(** * draw-size-app: rectification requests, region selection and analysis storage

    A shallow embedding of the Python sources
      - [backend/app/main.py]   ([upload_image], [transform_image]: the
                                 in-memory prototype),
      - [backend/app/routes.py] ([get_project_image], [delete_project],
                                 [upload_project_image],
                                 [transform_project_image],
                                 [save_image_analysis]),
      - [backend/app/schemas.py], [backend/app/models.py] (the records),
      - [floodfill-03.py]       ([on_mouse_click], the fuzzy-select tool),
    together with the properties stated about them.

    Python [float] is IEEE 754 binary64; it is modelled by [spec_float]
    with [prec = 53] and [emax = 1024], whose operations are the
    correctly rounded ones. *)

From Stdlib Require Import ZArith QArith Qminmax Bool List String Lia.
From Stdlib Require Import SpecFloat.
From stdpp Require Import base option list gmap strings pretty.

Local Open Scope Z_scope.

(** ** Python floats *)

Module PyFloat.

Definition prec : Z := 53.
Definition emax : Z := 1024.

Definition float := spec_float.

(** [float(n)] for an integer literal of the program. *)
Definition of_Z (n : Z) : float := binary_normalize prec emax n 0 false.

Definition mul (x y : float) : float := SFmul prec emax x y.
Definition div (x y : float) : float := SFdiv prec emax x y.

Definition is_zero (x : float) : bool :=
  match x with S754_zero _ => true | _ => false end.

Definition is_finite (x : float) : bool :=
  match x with S754_zero _ | S754_finite _ _ _ => true | _ => false end.

(** The exceptions the float operations of the handlers can raise. *)
Inductive py_exn :=
| ZeroDivisionError
| OverflowError
| ValueError.

(** [a / b]: Python raises on a zero divisor instead of returning an
    infinity or a NaN. *)
Definition truediv (a b : float) : py_exn + float :=
  if is_zero b then inl ZeroDivisionError else inr (div a b).

(** Magnitude of [m * 2^e] with the fraction dropped. *)
Definition trunc_mag (m : positive) (e : Z) : Z :=
  match e with
  | Z0 => Zpos m
  | Zpos p => Zpos m * 2 ^ Zpos p
  | Zneg p => Zpos m / 2 ^ Zpos p
  end.

(** [int(x)]: truncation toward zero; infinities and NaN raise. *)
Definition py_int (x : float) : py_exn + Z :=
  match x with
  | S754_zero _ => inr 0
  | S754_finite s m e => inr (if s then - trunc_mag m e else trunc_mag m e)
  | S754_infinity _ => inl OverflowError
  | S754_nan => inl ValueError
  end.

(** The exact rational value of a finite float. *)
Definition to_Q (x : float) : Q :=
  match x with
  | S754_finite s m e =>
      let mag := match e with
                 | Z0 => inject_Z (Zpos m)
                 | Zpos p => inject_Z (Zpos m * 2 ^ Zpos p)
                 | Zneg p => Qmake (Zpos m) (2 ^ p)%positive
                 end in
      if s then Qopp mag else mag
  | _ => 0%Q
  end.

(** [round(x)] to an integer: nearest, ties to the even neighbour. *)
Definition round_half_even (num : Z) (den : positive) : Z :=
  let q := num / Zpos den in
  let r := num mod Zpos den in
  match 2 * r ?= Zpos den with
  | Lt => q
  | Gt => q + 1
  | Eq => if Z.even q then q else q + 1
  end.

Definition py_round (x : float) : py_exn + Z :=
  match x with
  | S754_zero _ => inr 0
  | S754_finite _ _ _ => inr (round_half_even (Qnum (to_Q x)) (Qden (to_Q x)))
  | S754_infinity _ => inl OverflowError
  | S754_nan => inl ValueError
  end.

Definition is_positive (x : float) : bool :=
  match x with
  | S754_finite false _ _ | S754_infinity false => true
  | _ => false
  end.

(** [x <= 0.0] as Python evaluates it (false on NaN). *)
Definition is_nonpositive (x : float) : bool :=
  SFleb x (S754_zero false).

End PyFloat.

Import PyFloat.

(** ** The output canvas dimensions (main.py 167-172, routes.py 378-383)

<<
    aspect_ratio = width / height
    output_height = 800
    output_width = int(output_height * aspect_ratio)
>>
    The two lines are the same in both handlers.  The result is
    [(output_width, output_height)]. *)

Definition output_height : Z := 800.

Definition output_dims (width height : float) : py_exn + (Z * Z) :=
  match truediv width height with
  | inl e => inl e
  | inr aspect_ratio =>
      match py_int (mul (of_Z output_height) aspect_ratio) with
      | inl e => inl e
      | inr output_width => inr (output_width, output_height)
      end
  end.

(** The same dimensions as the specification words them, with [round]
    in place of [int]. *)
Definition spec_output_dims (width height : float) : py_exn + (Z * Z) :=
  match truediv width height with
  | inl e => inl e
  | inr aspect_ratio =>
      match py_round (mul (of_Z 800) aspect_ratio) with
      | inl e => inl e
      | inr w => inr (w, 800)
      end
  end.

(** *** Facts about [int] and the sign of products and quotients *)

Definition nonneg (x : float) : Prop :=
  match x with
  | S754_zero false | S754_finite false _ _ | S754_infinity false | S754_nan => True
  | _ => False
  end.

Lemma binary_round_aux_nonneg mx ex lx :
  nonneg (binary_round_aux prec emax false mx ex lx).
Proof.
  unfold binary_round_aux.
  destruct (shr_fexp prec emax mx ex lx) as [mrs' e'].
  destruct (shr_fexp prec emax _ e' loc_Exact) as [mrs'' e''].
  destruct (shr_m mrs''); simpl; auto.
  destruct (e'' <=? emax - prec); simpl; auto.
Qed.

Lemma div_nonneg x y :
  is_positive x = true -> is_positive y = true -> nonneg (div x y).
Proof.
  destruct x as [[]|[]| |[] mx ex], y as [[]|[]| |[] my ey]; simpl; try discriminate; auto.
  intros _ _. unfold div, SFdiv.
  destruct (SFdiv_core_binary prec emax (Z.pos mx) ex (Z.pos my) ey) as [[mz ez] lz].
  apply binary_round_aux_nonneg.
Qed.

Lemma mul_nonneg x y :
  is_positive x = true -> nonneg y -> nonneg (mul x y).
Proof.
  destruct x as [[]|[]| |[] mx ex], y as [[]|[]| |[] my ey]; simpl;
    intros Hx Hy; try discriminate; try contradiction; auto.
  apply binary_round_aux_nonneg.
Qed.

Lemma trunc_mag_nonneg m e : 0 <= trunc_mag m e.
Proof.
  destruct e; simpl.
  - lia.
  - apply Z.mul_nonneg_nonneg; [lia | apply Z.pow_nonneg; lia].
  - apply Z.div_pos; [lia | apply Z.pow_pos_nonneg; lia].
Qed.

(** [int] drops the fraction of a non-negative float: the result is the
    integer part of its exact value. *)
Lemma trunc_mag_bounds m e :
  (inject_Z (trunc_mag m e) <= to_Q (S754_finite false m e)
   /\ to_Q (S754_finite false m e) < inject_Z (trunc_mag m e) + 1)%Q.
Proof.
  destruct e as [|p|p]; simpl.
  - split; [apply Qle_refl|].
    unfold Qlt, Qplus, inject_Z; simpl. lia.
  - split; [apply Qle_refl|].
    unfold Qlt, Qplus, inject_Z; simpl. lia.
  - assert (Hd : Z.pos (2 ^ p) = 2 ^ Z.pos p) by apply Pos2Z.inj_pow.
    assert (Hpos : 0 < 2 ^ Z.pos p) by (apply Z.pow_pos_nonneg; lia).
    pose proof (Z.mul_div_le (Z.pos m) _ Hpos) as Hle.
    pose proof (Z.mul_succ_div_gt (Z.pos m) _ Hpos) as Hgt.
    unfold Qle, Qlt, Qplus, inject_Z; simpl Qnum; simpl Qden.
    rewrite Hd. split; lia.
Qed.


Lemma py_int_nonneg_bounds p n :
  nonneg p -> py_int p = inr n ->
  0 <= n /\ (inject_Z n <= to_Q p /\ to_Q p < inject_Z n + 1)%Q.
Proof.
  destruct p as [[]|[]| |[] m e]; simpl; intros Hp Hn;
    try contradiction; try discriminate; injection Hn as <-.
  - split; [lia|]. split; [apply Qle_refl | reflexivity].
  - split; [apply trunc_mag_nonneg | apply trunc_mag_bounds].
Qed.

Definition f_1 := of_Z 1.
Definition f_3 := of_Z 3.

(** C1 (as amended). For every transform request with positive real
    width and height whose scaled aspect ratio [800 * (width / height)]
    is a finite float, both handlers compute [output_height = 800] and
    [output_width = int(800 * (width / height))]: the integer part of the
    product (truncation, which for these non-negative values is the
    floor), not its rounding to the nearest integer. *)
Theorem output_dims_truncates (width height : float) :
  is_positive width = true ->
  is_positive height = true ->
  is_finite (mul (of_Z 800) (div width height)) = true ->
  exists output_width : Z,
    output_dims width height = inr (output_width, 800)
    /\ py_int (mul (of_Z 800) (div width height)) = inr output_width
    /\ 0 <= output_width
    /\ (inject_Z output_width <= to_Q (mul (of_Z 800) (div width height)))%Q
    /\ (to_Q (mul (of_Z 800) (div width height)) < inject_Z output_width + 1)%Q.
Proof.
  intros Hw Hh Hfin.
  assert (Hnn : nonneg (mul (of_Z 800) (div width height))).
  { apply mul_nonneg; [reflexivity | apply div_nonneg; assumption]. }
  unfold output_dims, truediv.
  replace (is_zero height) with false by (destruct height as [| | |[]]; simpl in *; congruence).
  change (of_Z output_height) with (of_Z 800).
  destruct (py_int (mul (of_Z 800) (div width height))) as [e|n] eqn:Hint.
  - destruct (mul (of_Z 800) (div width height)); simpl in *; discriminate.
  - destruct (py_int_nonneg_bounds _ _ Hnn Hint) as (H0 & Hlo & Hhi).
    exists n. repeat split; assumption.
Qed.

Lemma output_dims_truncates_witness :
  exists output_width : Z,
    output_dims f_1 f_3 = inr (output_width, 800)
    /\ py_int (mul (of_Z 800) (div f_1 f_3)) = inr output_width
    /\ 0 <= output_width
    /\ (inject_Z output_width <= to_Q (mul (of_Z 800) (div f_1 f_3)))%Q
    /\ (to_Q (mul (of_Z 800) (div f_1 f_3)) < inject_Z output_width + 1)%Q.
Proof.
  apply (output_dims_truncates f_1 f_3); vm_compute; reflexivity.
Defined.

(** C1 as stated fails at width = 1.0, height = 3.0: the product is
    266.66..., [round] gives 267, the handlers' [int] gives 266. *)
Lemma output_width_not_rounded :
  is_positive f_1 = true /\ is_positive f_3 = true
  /\ output_dims f_1 f_3 = inr (266, 800)
  /\ spec_output_dims f_1 f_3 = inr (267, 800).
Proof. vm_compute. repeat split; reflexivity. Qed.

(** ** Images and masks: numpy arrays as lists of rows *)

(** A pixel of a decoded colour image: the B, G and R channels. *)
Abbreviation pixel := (Z * Z * Z)%type.

Abbreviation image := (list (list pixel)).

(** A single-channel [uint8] array. *)
Abbreviation mask := (list (list Z)).

Section Grid.
Context {A : Type}.

(** [a[r][c]], when in range. *)
Definition get2 (g : list (list A)) (r c : nat) : option A :=
  match g !! r with
  | Some row => row !! c
  | None => None
  end.

(** [a[r][c] = v] on an in-range cell. *)
Definition set2 (g : list (list A)) (r c : nat) (v : A) : list (list A) :=
  alter (fun row => <[c := v]> row) r g.

(** [a.shape[:2]]: rows, then columns. *)
Definition shape (g : list (list A)) : nat * nat :=
  (length g, match g with [] => O | row :: _ => length row end).

(** Every row has [w] cells and there are [h] rows. *)
Definition has_shape (h w : nat) (g : list (list A)) : Prop :=
  length g = h /\ Forall (fun row => length row = w) g.

(** [a[1:-1, 1:-1]] *)
Definition slice_inner (g : list (list A)) : list (list A) :=
  (fun row => take (length row - 2) (drop 1 row))
    <$> take (length g - 2) (drop 1 g).
End Grid.

Section GridFacts.
Context {A : Type}.
Implicit Types (g : list (list A)) (r c h w : nat) (v : A).

Lemma get2_set2_eq g r c v :
  is_Some (get2 g r c) -> get2 (set2 g r c v) r c = Some v.
Proof.
  unfold get2, set2. intros [x Hx].
  rewrite list_lookup_alter_eq.
  destruct (g !! r) as [row|] eqn:Hrow; [simpl | discriminate].
  apply list_lookup_insert_eq. by eapply lookup_lt_Some.
Qed.

Lemma get2_set2_ne g r c v r' c' :
  (r, c) <> (r', c') -> get2 (set2 g r c v) r' c' = get2 g r' c'.
Proof.
  unfold get2, set2. intros Hne.
  destruct (decide (r = r')) as [->|Hr].
  - rewrite list_lookup_alter_eq.
    destruct (g !! r') as [row|]; [simpl | done].
    apply list_lookup_insert_ne. congruence.
  - by rewrite list_lookup_alter_ne.
Qed.

Lemma has_shape_set2 h w g r c v :
  has_shape h w g -> has_shape h w (set2 g r c v).
Proof.
  unfold has_shape, set2. intros [Hlen Hrows]. split.
  - by rewrite length_alter.
  - apply Forall_lookup. intros i row Hi.
    destruct (decide (r = i)) as [->|Hne].
    + rewrite list_lookup_alter_eq in Hi.
      destruct (g !! i) as [row0|] eqn:Hrow0; simplify_eq/=.
      rewrite length_insert.
      by eapply (proj1 (Forall_lookup _ _) Hrows).
    + rewrite list_lookup_alter_ne in Hi by done.
      by eapply (proj1 (Forall_lookup _ _) Hrows).
Qed.

Lemma get2_lt g h w r c :
  has_shape h w g -> is_Some (get2 g r c) -> (r < h /\ c < w)%nat.
Proof.
  unfold has_shape, get2. intros [Hlen Hrows] [x Hx].
  destruct (g !! r) as [row|] eqn:Hrow; [|discriminate].
  pose proof (lookup_lt_Some _ _ _ Hrow).
  pose proof (lookup_lt_Some _ _ _ Hx).
  pose proof (proj1 (Forall_lookup _ _) Hrows _ _ Hrow). simpl in *. lia.
Qed.

Lemma get2_is_Some g h w r c :
  has_shape h w g -> (r < h)%nat -> (c < w)%nat -> is_Some (get2 g r c).
Proof.
  unfold has_shape, get2. intros [Hlen Hrows] Hr Hc.
  destruct (lookup_lt_is_Some_2 g r) as [row Hrow]; [lia|].
  rewrite Hrow.
  pose proof (proj1 (Forall_lookup _ _) Hrows _ _ Hrow). simpl in *.
  apply lookup_lt_is_Some_2. lia.
Qed.

Lemma shape_has_shape g h w :
  has_shape h w g -> (0 < h)%nat -> shape g = (h, w).
Proof.
  unfold has_shape, shape. intros [Hlen Hrows] Hh.
  destruct g as [|row g']; simpl in *; [lia|].
  inversion Hrows; subst. done.
Qed.

Lemma has_shape_slice_inner g h w :
  has_shape (h + 2) (w + 2) g -> has_shape h w (slice_inner g).
Proof.
  unfold has_shape, slice_inner. intros [Hlen Hrows]. split.
  - rewrite length_fmap, length_take, length_drop. lia.
  - apply Forall_fmap, Forall_take, Forall_drop.
    eapply Forall_impl; [exact Hrows|]. intros row Hrow. simpl in *.
    rewrite length_take, length_drop. lia.
Qed.

Lemma get2_slice_inner g h w r c :
  has_shape (h + 2) (w + 2) g -> (r < h)%nat -> (c < w)%nat ->
  get2 (slice_inner g) r c = get2 g (S r) (S c).
Proof.
  unfold has_shape, slice_inner, get2. intros [Hlen Hrows] Hr Hc.
  rewrite list_lookup_fmap, lookup_take_lt by lia.
  rewrite lookup_drop. simpl.
  destruct (g !! S r) as [row|] eqn:Hrow; simpl; [|done].
  pose proof (proj1 (Forall_lookup _ _) Hrows _ _ Hrow). simpl in *.
  rewrite lookup_take_lt by lia. by rewrite lookup_drop.
Qed.
End GridFacts.

(** [np.zeros((h, w), np.uint8)] *)
Definition zeros (h w : nat) : mask := replicate h (replicate w 0).

(** ** cv2.floodFill

    The OpenCV primitive behind the fuzzy-select tool, in the mode the
    tool calls it: a mask is supplied, the range is fixed (every
    candidate is compared with the seed pixel), and only the mask is
    written.  A pixel (x, y) of the image corresponds to the cell
    (y + 1, x + 1) of the mask; the one-cell frame of the mask is set
    non-zero so that the fill stops at the image border, and the fill
    never crosses a non-zero cell.  Cells are kept in mask coordinates
    on an explicit worklist. *)

Module FloodFill.

Inductive cv2_error :=
| BadFlags          (* a mode outside the one described above *)
| BadDiff           (* lo_diff and up_diff must be non-negative *)
| SeedOutOfRange    (* Seed point is outside of image *)
| BadMaskSize
| WorkBudget.

Definition FLOODFILL_FIXED_RANGE : Z := Z.shiftl 1 16.
Definition FLOODFILL_MASK_ONLY : Z := Z.shiftl 1 17.

(** [saturate_cast<uchar>] *)
Definition saturate_u8 (z : Z) : Z := Z.max 0 (Z.min 255 z).

Definition channel_in_range (lo up seedc c : Z) : bool :=
  (seedc - lo <=? c) && (c <=? seedc + up).

(** The fixed-range test on all three channels: the candidate [v]
    against the seed pixel's colour [seedv]. *)
Definition in_range (lo up seedv v : pixel) : bool :=
  let '(lb, lg, lr) := lo in
  let '(ub, ug, ur) := up in
  let '(sb, sg, sr) := seedv in
  let '(b, g, r) := v in
  channel_in_range lb ub sb b && channel_in_range lg ug sg g
  && channel_in_range lr ur sr r.

(** The four cells sharing an edge with a cell. *)
Definition neighbours4 (p : nat * nat) : list (nat * nat) :=
  let '(r, c) := p in [(r - 1, c); (r + 1, c); (r, c - 1); (r, c + 1)]%nat.

Section Fill.
Variable img : image.
Variable lo up seedv : pixel.
Variable newMaskVal : Z.

(** Visit one neighbour: an unmarked cell whose pixel is in range is
    marked and queued. *)
Definition try_fill (st : mask * list (nat * nat)) (q : nat * nat)
  : mask * list (nat * nat) :=
  let '(m, work) := st in
  match get2 m q.1 q.2 with
  | Some 0 =>
      match get2 img (q.1 - 1) (q.2 - 1) with
      | Some v =>
          if in_range lo up seedv v
          then (set2 m q.1 q.2 newMaskVal, q :: work)
          else st
      | None => st
      end
  | _ => st
  end.

Fixpoint fill_loop (fuel : nat) (m : mask) (work : list (nat * nat))
  {struct fuel} : option mask :=
  match work with
  | [] => Some m
  | p :: work' =>
      match fuel with
      | O => None
      | S fuel' =>
          let '(m', work'') := foldl try_fill (m, work') (neighbours4 p) in
          fill_loop fuel' m' work''
      end
  end.
End Fill.

(** The frame of an (h+2) x (w+2) mask set to 1. *)
Definition with_border (h w : nat) (m : mask) : mask :=
  imap (fun r row =>
          imap (fun c v =>
                  if decide (r = O \/ c = O \/ r = S h \/ c = S w) then 1 else v)
               row) m.

Definition floodFill (image_ : image) (mask_ : mask) (seedPoint : Z * Z)
    (loDiff upDiff : pixel) (flags : Z) : cv2_error + mask :=
  let '(h, w) := shape image_ in
  let '(x, y) := seedPoint in
  let connectivity := Z.land flags 255 in
  let newMaskVal :=
    let v := Z.land (Z.shiftr flags 8) 255 in if v =? 0 then 1 else v in
  let '(lb, lg, lr) := loDiff in
  let '(ub, ug, ur) := upDiff in
  if negb (((connectivity =? 0) || (connectivity =? 4))
           && Z.testbit flags 16 && Z.testbit flags 17)
  then inl BadFlags
  else if (lb <? 0) || (lg <? 0) || (lr <? 0) || (ub <? 0) || (ug <? 0) || (ur <? 0)
  then inl BadDiff
  else if negb ((0 <=? x) && (x <? Z.of_nat w) && (0 <=? y) && (y <? Z.of_nat h))
  then inl SeedOutOfRange
  else if negb (bool_decide (shape mask_ = (h + 2, w + 2)%nat))
  then inl BadMaskSize
  else
    let lo := (saturate_u8 lb, saturate_u8 lg, saturate_u8 lr) in
    let up := (saturate_u8 ub, saturate_u8 ug, saturate_u8 ur) in
    let sr := S (Z.to_nat y) in
    let sc := S (Z.to_nat x) in
    let m0 := with_border h w mask_ in
    match get2 image_ (Z.to_nat y) (Z.to_nat x), get2 m0 sr sc with
    | Some seedv, Some 0 =>
        match fill_loop image_ lo up seedv newMaskVal
                (S ((h + 2) * (w + 2))) (set2 m0 sr sc newMaskVal) [(sr, sc)] with
        | Some m => inr m
        | None => inl WorkBudget
        end
    | Some _, _ => inr m0
    | None, _ => inl SeedOutOfRange
    end.

(** *** The fuzzy-select tool (floodfill-03.py)

    The module's globals: the configured tolerance, the loaded image
    and the mask of the last selection.  The green overlay that is
    drawn from the mask is display only and is left out. *)

Record globals := {
  TOLERANCE : Z;
  img : image;
  current_mask : option mask
}.

Definition EVENT_LBUTTONDOWN : Z := 1.

Definition on_mouse_click (g : globals) (event x y : Z) : cv2_error + globals :=
  if event =? EVENT_LBUTTONDOWN then
    let '(h, w) := shape (img g) in
    (* Mask must be +2 pixels larger than image *)
    let mask_ := zeros (h + 2) (w + 2) in
    let lo_diff := (TOLERANCE g, TOLERANCE g, TOLERANCE g) in
    let up_diff := (TOLERANCE g, TOLERANCE g, TOLERANCE g) in
    let flags :=
      Z.lor (Z.lor (Z.lor 4 FLOODFILL_FIXED_RANGE) FLOODFILL_MASK_ONLY)
            (Z.shiftl 255 8) in
    match floodFill (img g) mask_ (x, y) lo_diff up_diff flags with
    | inl e => inl e
    | inr filled =>
        inr {| TOLERANCE := TOLERANCE g; img := img g;
               current_mask := Some (slice_inner filled) |}
    end
  else inr g.

(** The tool as started by [main]: tolerance 50, no selection yet. *)
Definition start (i : image) : globals :=
  {| TOLERANCE := 50; img := i; current_mask := None |}.

(** *** Counting the unmarked cells: the termination measure *)

Definition count0_row (row : list Z) : nat :=
  length (filter (fun v => v = 0) row).

Definition count0 (m : mask) : nat := sum_list (count0_row <$> m).

Lemma count0_row_insert (row : list Z) (c : nat) (v : Z) :
  row !! c = Some 0 -> v <> 0 ->
  S (count0_row (<[c := v]> row)) = count0_row row.
Proof.
  unfold count0_row. revert c.
  induction row as [|a row IH]; intros [|c] Hc Hv; simplify_eq/=.
  - by rewrite filter_cons_False.
  - specialize (IH c Hc Hv).
    destruct (decide (a = 0)) as [Ha|Ha].
    + rewrite !filter_cons_True by done. simpl. by rewrite IH.
    + rewrite !filter_cons_False by done. done.
Qed.

Lemma count0_set2 (m : mask) (r c : nat) (v : Z) :
  get2 m r c = Some 0 -> v <> 0 -> S (count0 (set2 m r c v)) = count0 m.
Proof.
  unfold count0, get2, set2. revert r.
  induction m as [|row m IH]; intros [|r] Hget Hv; simplify_eq/=.
  - by rewrite <- (count0_row_insert row c v).
  - rewrite <- (IH r Hget Hv). lia.
Qed.

Lemma count0_row_le (row : list Z) : (count0_row row <= length row)%nat.
Proof. apply length_filter. Qed.

Lemma count0_le (h w : nat) (m : mask) :
  has_shape h w m -> (count0 m <= h * w)%nat.
Proof.
  unfold count0. intros [Hlen Hrows]. subst h.
  induction Hrows as [|row m Hrow _ IH]; csimpl; [lia|].
  pose proof (count0_row_le row). simpl in Hrow. lia.
Qed.

(** *** The region: pixels connected to the seed through similar pixels *)

(** Two cells (row, column) that share an edge. *)
Definition adjacent4 (p q : nat * nat) : Prop :=
  (p.1 = q.1 /\ (q.2 = S p.2 \/ p.2 = S q.2))
  \/ (p.2 = q.2 /\ (q.1 = S p.1 \/ p.1 = S q.1)).

(** [connected i ok seed q]: there is a path of edge-sharing pixels of
    the image [i] from [seed] to [q], every pixel of which (the seed
    and [q] included) has a colour accepted by [ok]. *)
Inductive connected (i : image) (ok : pixel -> Prop) (seed : nat * nat)
  : nat * nat -> Prop :=
| connected_seed v :
    get2 i seed.1 seed.2 = Some v -> ok v -> connected i ok seed seed
| connected_step p q v :
    connected i ok seed p -> adjacent4 p q ->
    get2 i q.1 q.2 = Some v -> ok v -> connected i ok seed q.

Lemma connected_impl (i : image) (ok ok' : pixel -> Prop) seed q :
  (forall v, ok v -> ok' v) -> connected i ok seed q -> connected i ok' seed q.
Proof.
  intros Himp. induction 1 as [v Hv Hok | p q v _ IH Hadj Hv Hok].
  - eapply connected_seed; eauto.
  - eapply connected_step; eauto.
Qed.

(** *** Correctness of the worklist fill *)

Section FillCorrect.
Variables (h w : nat) (i : image).
Variables (lo up seedv : pixel) (newMaskVal : Z).
Variable seed : nat * nat.             (* image coordinates (row, column) *)
Hypothesis i_shape : has_shape h w i.
Hypothesis newMaskVal_nonzero : newMaskVal <> 0.
Hypothesis seed_pixel : get2 i seed.1 seed.2 = Some seedv.
Hypothesis seed_ok : in_range lo up seedv seedv = true.

Let ok (v : pixel) : Prop := in_range lo up seedv v = true.

(** A cell of the mask that lies over a pixel of the image. *)
Definition inner (q : nat * nat) : Prop :=
  (1 <= q.1 <= h /\ 1 <= q.2 <= w)%nat.

Definition marked (m : mask) (q : nat * nat) : Prop :=
  get2 m q.1 q.2 = Some newMaskVal.

(** A cell the fill may enter. *)
Definition candidate (q : nat * nat) : Prop :=
  inner q /\ exists v, get2 i (q.1 - 1) (q.2 - 1) = Some v /\ ok v.

(** The loop invariant, while the neighbours [todo] of the popped
    cell [p0] are still to be visited. *)
Record inv (m : mask) (work : list (nat * nat))
    (p0 : nat * nat) (todo : list (nat * nat)) : Prop := {
  inv_shape : has_shape (h + 2) (w + 2) m;
  inv_zero_inner : forall r c, get2 m r c = Some 0 -> inner (r, c);
  inv_values : forall q, inner q -> marked m q \/ get2 m q.1 q.2 = Some 0;
  inv_sound : forall q, inner q -> marked m q ->
              connected i ok seed ((q.1 - 1)%nat, (q.2 - 1)%nat);
  inv_work : forall q, q ∈ work -> inner q /\ marked m q;
  inv_todo : forall q, q ∈ todo ->
             q ∈ neighbours4 p0 /\ inner p0 /\ marked m p0;
  inv_closed : forall p q, inner p -> marked m p ->
               q ∈ neighbours4 p -> candidate q ->
               marked m q \/ p ∈ work \/ (p = p0 /\ q ∈ todo);
  inv_seed : inner (S seed.1, S seed.2) /\ marked m (S seed.1, S seed.2)
}.

Lemma neighbours4_adjacent4 p q :
  inner p -> inner q -> q ∈ neighbours4 p ->
  adjacent4 ((p.1 - 1)%nat, (p.2 - 1)%nat) ((q.1 - 1)%nat, (q.2 - 1)%nat).
Proof.
  destruct p as [pr pc], q as [qr qc]. unfold inner, adjacent4, neighbours4.
  simpl. intros Hp Hq Hin.
  repeat (apply elem_of_cons in Hin as [Hin|Hin]; [simplify_eq; lia|]).
  by apply elem_of_nil in Hin.
Qed.

Lemma adjacent4_neighbours4 p q :
  adjacent4 p q -> (S q.1, S q.2) ∈ neighbours4 (S p.1, S p.2).
Proof.
  destruct p as [pr pc], q as [qr qc]. unfold adjacent4, neighbours4.
  simpl. rewrite !elem_of_cons, !Nat.sub_0_r.
  intros [[-> [->| ->]]|[-> [->| ->]]]; simpl; rewrite ?Nat.sub_0_r; auto 6.
  - do 3 right. left. f_equal. lia.
  - right. left. f_equal. lia.
Qed.

Lemma inv_skip m work p0 q todo :
  inv m work p0 (q :: todo) -> (candidate q -> marked m q) ->
  inv m work p0 todo.
Proof.
  intros [Hs Hz Hv Hsd Hw Ht Hc Hseed] Hq. split; try done.
  - intros q' Hq'. apply Ht. by right.
  - intros p q' Hp Hmp Hadj Hcand.
    destruct (Hc p q' Hp Hmp Hadj Hcand) as [?|[?|[-> Hin]]]; auto.
    apply elem_of_cons in Hin as [->|Hin]; auto.
Qed.

Lemma marked_set2 m q q' :
  is_Some (get2 m q.1 q.2) ->
  marked m q' -> marked (set2 m q.1 q.2 newMaskVal) q'.
Proof.
  unfold marked. intros Hsome Hm.
  destruct (decide ((q.1, q.2) = (q'.1, q'.2))) as [Heq|Hne].
  - injection Heq as <- <-. by apply get2_set2_eq.
  - by rewrite get2_set2_ne.
Qed.

Lemma inv_fill m work p0 q todo :
  inv m work p0 (q :: todo) ->
  get2 m q.1 q.2 = Some 0 -> candidate q ->
  inv (set2 m q.1 q.2 newMaskVal) (q :: work) p0 todo.
Proof.
  intros [Hs Hz Hv Hsd Hw Ht Hc Hseed] Hq0 Hcand.
  assert (Hsome : is_Some (get2 m q.1 q.2)) by (by eexists).
  assert (Hmq : marked (set2 m q.1 q.2 newMaskVal) q)
    by (by apply get2_set2_eq).
  assert (Hold : forall q', q' <> q ->
            get2 (set2 m q.1 q.2 newMaskVal) q'.1 q'.2 = get2 m q'.1 q'.2).
  { intros q' Hne. apply get2_set2_ne. destruct q, q'; simpl. congruence. }
  destruct (Ht q) as (Hadj0 & Hp0 & Hmp0); [by left|].
  split.
  - by apply has_shape_set2.
  - intros r c Hrc. apply Hz.
    destruct (decide ((r, c) = q)) as [<-|Hne].
    + unfold marked in Hmq; simpl in Hmq, Hrc.
      pose proof newMaskVal_nonzero. congruence.
    + pose proof (Hold (r, c) Hne) as E. simpl in E. congruence.
  - intros q' Hq'. destruct (decide (q' = q)) as [->|Hne]; [by left|].
    unfold marked. rewrite (Hold q' Hne). by apply Hv.
  - intros q' Hq' Hm'. destruct (decide (q' = q)) as [->|Hne].
    + destruct Hcand as (_ & v & Hv' & Hokv).
      eapply connected_step; [apply (Hsd p0 Hp0 Hmp0) | | exact Hv' | exact Hokv].
      by apply neighbours4_adjacent4.
    + apply Hsd; [done|]. unfold marked in *. by rewrite <- (Hold q' Hne).
  - intros q' Hq'. apply elem_of_cons in Hq' as [->|Hq'].
    + split; [|done]. destruct q. by apply Hz.
    + destruct (Hw q' Hq') as [? ?]. split; [done|]. by apply marked_set2.
  - intros q' Hq'. destruct (Ht q') as (? & ? & ?); [by right|].
    split; [done|]. split; [done|]. by apply marked_set2.
  - intros p q' Hp Hmp Hadj Hcq'.
    destruct (decide (p = q)) as [->|Hne]; [right; left; by left|].
    unfold marked in Hmp. rewrite (Hold p Hne) in Hmp.
    destruct (Hc p q' Hp Hmp Hadj Hcq') as [Hm|[Hin|[-> Hin]]].
    + left. by apply marked_set2.
    + right; left. by right.
    + apply elem_of_cons in Hin as [->|Hin]; [by left|]. by right; right.
  - destruct Hseed as [? ?]. split; [done|]. by apply marked_set2.
Qed.

Lemma try_fill_inv m work p0 q todo :
  inv m work p0 (q :: todo) ->
  let st := try_fill i lo up seedv newMaskVal (m, work) q in
  inv st.1 st.2 p0 todo
  /\ (count0 st.1 + length st.2 = count0 m + length work)%nat.
Proof.
  intros Hinv. unfold try_fill.
  destruct (get2 m q.1 q.2) as [[| |]|] eqn:Hq; simpl.
  - destruct (get2 i (q.1 - 1) (q.2 - 1)) as [v|] eqn:Hv; simpl.
    + destruct (in_range lo up seedv v) eqn:Hr; simpl.
      * split.
        -- apply inv_fill; [done..|]. split; [|by exists v].
           destruct q. by apply (inv_zero_inner _ _ _ _ Hinv).
        -- rewrite <- (count0_set2 m q.1 q.2 newMaskVal Hq newMaskVal_nonzero). lia.
      * split; [|done]. eapply inv_skip; [done|].
        intros (_ & v' & Hv' & Hok'). unfold ok in Hok'. congruence.
    + split; [|done]. eapply inv_skip; [done|].
      intros (_ & v' & Hv' & _). congruence.
  - split; [|done]. eapply inv_skip; [done|].
    intros [Hin _]. destruct (inv_values _ _ _ _ Hinv q Hin); [done|congruence].
  - split; [|done]. eapply inv_skip; [done|].
    intros [Hin _]. destruct (inv_values _ _ _ _ Hinv q Hin); [done|congruence].
  - split; [|done]. eapply inv_skip; [done|].
    intros [Hin _]. destruct (inv_values _ _ _ _ Hinv q Hin) as [Hm|?];
      [unfold marked in Hm|]; congruence.
Qed.

Lemma foldl_try_fill_inv todo m work p0 :
  inv m work p0 todo ->
  let st := foldl (try_fill i lo up seedv newMaskVal) (m, work) todo in
  inv st.1 st.2 p0 []
  /\ (count0 st.1 + length st.2 = count0 m + length work)%nat.
Proof.
  revert m work. induction todo as [|q todo IH]; intros m work Hinv.
  - done.
  - cbn [foldl].
    destruct (try_fill_inv m work p0 q todo Hinv) as [Hinv' Hcnt].
    destruct (try_fill i lo up seedv newMaskVal (m, work) q) as [m' work'].
    simpl in *. destruct (IH m' work' Hinv') as [Hfin Hcnt'].
    split; [exact Hfin|lia].
Qed.

Lemma inv_pop m p work p1 :
  inv m (p :: work) p1 [] -> inv m work p (neighbours4 p).
Proof.
  intros [Hs Hz Hv Hsd Hw Ht Hc Hseed]. split; try done.
  - intros q Hq. apply Hw. by right.
  - intros q Hq. destruct (Hw p) as [? ?]; [by left|]. done.
  - intros p' q Hp' Hmp' Hadj Hcand.
    destruct (Hc p' q Hp' Hmp' Hadj Hcand) as [?|[Hin|[_ Hin]]]; auto.
    + apply elem_of_cons in Hin as [->|Hin]; auto.
    + by apply elem_of_nil in Hin.
Qed.

(** With fuel for every unmarked cell the loop ends, and it ends in
    a state that satisfies the invariant with nothing left to do. *)
Lemma fill_loop_inv fuel m work p0 :
  inv m work p0 [] -> (count0 m + length work <= fuel)%nat ->
  exists m' p1, fill_loop i lo up seedv newMaskVal fuel m work = Some m'
                /\ inv m' [] p1 [].
Proof.
  revert m work p0.
  induction fuel as [|fuel IH]; intros m [|p work] p0 Hinv Hfuel; simpl in *.
  - by exists m, p0.
  - lia.
  - by exists m, p0.
  - apply inv_pop in Hinv.
    destruct (foldl_try_fill_inv _ _ _ _ Hinv) as [Hinv' Hcnt].
    destruct (foldl _ (m, work) (neighbours4 p)) as [m' work'].
    simpl in *. apply (IH m' work' p Hinv'). lia.
Qed.

(** At the end the marked cells are exactly the cells over the
    pixels connected to the seed. *)
Lemma inv_final m p1 q :
  inv m [] p1 [] ->
  connected i ok seed q <-> (inner (S q.1, S q.2) /\ marked m (S q.1, S q.2)).
Proof.
  intros Hinv. split.
  - induction 1 as [v Hv Hok | p q v _ IH Hadj Hv Hok].
    + apply (inv_seed _ _ _ _ Hinv).
    + destruct IH as [Hp Hmp].
      assert (Hq : inner (S q.1, S q.2)).
      { destruct (get2_lt i h w q.1 q.2 i_shape) as [? ?]; [by eexists|].
        unfold inner; simpl. lia. }
      split; [done|].
      destruct (inv_closed _ _ _ _ Hinv (S p.1, S p.2) (S q.1, S q.2))
        as [?|[Hin|[_ Hin]]]; try done.
      * by apply adjacent4_neighbours4.
      * split; [done|]. exists v. simpl. by rewrite !Nat.sub_0_r.
      * by apply elem_of_nil in Hin.
      * by apply elem_of_nil in Hin.
  - intros [Hq Hm].
    pose proof (inv_sound _ _ _ _ Hinv _ Hq Hm) as Hc.
    simpl in Hc. rewrite !Nat.sub_0_r in Hc. by destruct q.
Qed.
End FillCorrect.

(** *** The initial state of the fill *)

Lemma get2_zeros (h w r c : nat) :
  (r < h)%nat -> (c < w)%nat -> get2 (zeros h w) r c = Some 0.
Proof.
  intros Hr Hc. unfold get2, zeros.
  rewrite lookup_replicate_2 by done. by apply lookup_replicate_2.
Qed.

Lemma has_shape_zeros (h w : nat) : has_shape h w (zeros h w).
Proof.
  unfold has_shape, zeros. split; [apply length_replicate|].
  apply Forall_replicate. apply length_replicate.
Qed.

Lemma has_shape_with_border (h w a b : nat) (m : mask) :
  has_shape a b m -> has_shape a b (with_border h w m).
Proof.
  unfold has_shape, with_border. intros [Hlen Hrows]. split.
  - by rewrite length_imap.
  - apply Forall_lookup. intros r row Hrow.
    rewrite list_lookup_imap in Hrow.
    apply fmap_Some in Hrow as (row0 & Hrow0 & ->).
    rewrite length_imap.
    by eapply (proj1 (Forall_lookup _ _) Hrows).
Qed.

Lemma get2_with_border (h w : nat) (m : mask) (r c : nat) :
  get2 (with_border h w m) r c =
  (fun v => if decide (r = O \/ c = O \/ r = S h \/ c = S w) then 1 else v)
    <$> get2 m r c.
Proof.
  unfold get2, with_border. rewrite list_lookup_imap.
  destruct (m !! r) as [row|]; simpl; [|done].
  by rewrite list_lookup_imap.
Qed.

Lemma in_range_refl (lo up v : pixel) :
  (0 <= lo.1.1 /\ 0 <= lo.1.2 /\ 0 <= lo.2) ->
  (0 <= up.1.1 /\ 0 <= up.1.2 /\ 0 <= up.2) ->
  in_range lo up v v = true.
Proof.
  destruct lo as [[lb lg] lr], up as [[ub ug] ur], v as [[b g] r]; simpl.
  intros (? & ? & ?) (? & ? & ?). unfold channel_in_range.
  repeat (apply andb_true_intro; split); lia.
Qed.

Section FillInit.
Variables (h w : nat) (i : image).
Variables (lo up seedv : pixel) (newMaskVal : Z).
Variable seed : nat * nat.
Hypothesis i_shape : has_shape h w i.
Hypothesis newMaskVal_nonzero : newMaskVal <> 0.
Hypothesis seed_pixel : get2 i seed.1 seed.2 = Some seedv.
Hypothesis seed_ok : in_range lo up seedv seedv = true.

Let m0 : mask := with_border h w (zeros (h + 2) (w + 2)).

Lemma get2_m0_inner q : inner h w q -> get2 m0 q.1 q.2 = Some 0.
Proof.
  unfold inner, m0. intros [? ?]. rewrite get2_with_border.
  rewrite get2_zeros by lia. simpl.
  rewrite decide_False; [done|lia].
Qed.

Lemma get2_m0_zero r c : get2 m0 r c = Some 0 -> inner h w (r, c).
Proof.
  unfold m0. rewrite get2_with_border. intros Hget.
  destruct (get2 (zeros (h + 2) (w + 2)) r c) as [v|] eqn:Hv; simplify_eq/=.
  destruct (get2_lt _ (h + 2) (w + 2) r c (has_shape_zeros _ _)) as [? ?];
    [by eexists|].
  case_decide; [done|]. unfold inner; simpl. lia.
Qed.

Lemma seed_inner : inner h w (S seed.1, S seed.2).
Proof.
  destruct (get2_lt i h w seed.1 seed.2 i_shape) as [? ?]; [by eexists|].
  unfold inner; simpl. lia.
Qed.

Lemma inv_init p0 :
  inv h w i lo up seedv newMaskVal seed
      (set2 m0 (S seed.1) (S seed.2) newMaskVal) [(S seed.1, S seed.2)] p0 [].
Proof.
  pose proof seed_inner as Hsi.
  pose proof (get2_m0_inner _ Hsi) as Hs0. simpl in Hs0.
  assert (Hsome : is_Some (get2 m0 (S seed.1) (S seed.2))) by (by eexists).
  assert (Hold : forall q, q <> (S seed.1, S seed.2) ->
            get2 (set2 m0 (S seed.1) (S seed.2) newMaskVal) q.1 q.2
            = get2 m0 q.1 q.2).
  { intros q Hne. apply get2_set2_ne. destruct q; simpl. congruence. }
  assert (Honly : forall q, inner h w q ->
            marked newMaskVal (set2 m0 (S seed.1) (S seed.2) newMaskVal) q ->
            q = (S seed.1, S seed.2)).
  { intros q Hq Hm. destruct (decide (q = (S seed.1, S seed.2))); [done|].
    unfold marked in Hm. rewrite Hold in Hm by done.
    rewrite get2_m0_inner in Hm by done. congruence. }
  split.
  - apply has_shape_set2, has_shape_with_border, has_shape_zeros.
  - intros r c Hrc.
    destruct (decide ((r, c) = (S seed.1, S seed.2))) as [Heq|Hne].
    + by rewrite Heq.
    + pose proof (Hold (r, c) Hne) as E. simpl in E.
      apply get2_m0_zero. congruence.
  - intros q Hq. destruct (decide (q = (S seed.1, S seed.2))) as [->|Hne].
    + left. by apply get2_set2_eq.
    + right. rewrite Hold by done. by apply get2_m0_inner.
  - intros q Hq Hm. rewrite (Honly q Hq Hm). simpl. rewrite !Nat.sub_0_r.
    destruct seed. eapply connected_seed; [exact seed_pixel | exact seed_ok].
  - intros q Hq. apply list_elem_of_singleton in Hq as ->.
    split; [done|]. by apply get2_set2_eq.
  - intros q Hq. by apply elem_of_nil in Hq.
  - intros p q Hp Hm _ _. right; left.
    rewrite (Honly p Hp Hm). by left.
  - split; [done|]. by apply get2_set2_eq.
Qed.
End FillInit.

(** *** What a click computes *)

(** The flag word of the tool's call. *)
Definition click_flags : Z :=
  Z.lor (Z.lor (Z.lor 4 FLOODFILL_FIXED_RANGE) FLOODFILL_MASK_ONLY)
        (Z.shiftl 255 8).

(** The tolerance on each channel, as [floodFill] uses it. *)
Definition diff_of (t : Z) : pixel := (saturate_u8 t, saturate_u8 t, saturate_u8 t).

(** The colour test of the fill for tolerance [t] around [seedv]. *)
Definition within (t : Z) (seedv v : pixel) : Prop :=
  in_range (diff_of t) (diff_of t) seedv v = true.

Lemma shape_zeros (a b : nat) : shape (zeros (S a) b) = (S a, b).
Proof. unfold shape, zeros. simpl. by rewrite !length_replicate. Qed.

Lemma click_spec (g : globals) (h w : nat) (x y : Z) :
  has_shape h w (img g) ->
  0 <= x < Z.of_nat w -> 0 <= y < Z.of_nat h -> 0 <= TOLERANCE g ->
  exists cm seedv,
    on_mouse_click g EVENT_LBUTTONDOWN x y
      = inr {| TOLERANCE := TOLERANCE g; img := img g; current_mask := Some cm |}
    /\ get2 (img g) (Z.to_nat y) (Z.to_nat x) = Some seedv
    /\ has_shape h w cm
    /\ forall r c, (r < h)%nat -> (c < w)%nat ->
         (get2 cm r c = Some 255 <->
          connected (img g) (within (TOLERANCE g) seedv)
                    (Z.to_nat y, Z.to_nat x) (r, c))
         /\ (get2 cm r c = Some 255 \/ get2 cm r c = Some 0).
Proof.
  intros Hshape Hx Hy Ht.
  destruct (get2_is_Some (img g) h w (Z.to_nat y) (Z.to_nat x) Hshape)
    as [seedv Hseedv]; [lia..|].
  set (t := TOLERANCE g) in *.
  set (seed := (Z.to_nat y, Z.to_nat x)).
  assert (Hok : in_range (diff_of t) (diff_of t) seedv seedv = true).
  { apply in_range_refl; unfold diff_of, saturate_u8; simpl; lia. }
  assert (H255 : (255 : Z) <> 0) by done.
  pose proof (inv_init h w (img g) (diff_of t) (diff_of t) seedv 255 seed
                Hshape H255 Hseedv Hok seed) as Hinit.
  set (m0 := with_border h w (zeros (h + 2) (w + 2))) in *.
  assert (Hm0 : get2 m0 (S (Z.to_nat y)) (S (Z.to_nat x)) = Some 0).
  { apply (get2_m0_inner h w (S (Z.to_nat y), S (Z.to_nat x))).
    unfold inner; simpl. lia. }
  destruct (fill_loop_inv h w (img g) (diff_of t) (diff_of t) seedv 255 seed
              H255 Hok (S ((h + 2) * (w + 2))) _ _ _ Hinit)
    as (m & p1 & Hloop & Hinv).
  { pose proof (count0_set2 m0 _ _ 255 Hm0 H255) as Hc.
    pose proof (count0_le (h + 2) (w + 2) m0
                  (has_shape_with_border _ _ _ _ _ (has_shape_zeros _ _))) as Hle.
    simpl in *. lia. }
  exists (slice_inner m), seedv.
  split; [|split; [done|split]].
  - unfold on_mouse_click. rewrite Z.eqb_refl.
    rewrite (shape_has_shape (img g) h w Hshape) by lia.
    unfold floodFill.
    rewrite (shape_has_shape (img g) h w Hshape) by lia.
    replace (h + 2)%nat with (S (S h)) by lia. rewrite shape_zeros.
    replace (S (S h)) with (h + 2)%nat by lia.
    fold click_flags. fold t.
    change (Z.land click_flags 255) with 4.
    change (Z.land (Z.shiftr click_flags 8) 255) with 255.
    change (Z.testbit click_flags 16) with true.
    change (Z.testbit click_flags 17) with true.
    cbn [Z.eqb negb orb andb].
    replace (t <? 0) with false by (symmetry; apply Z.ltb_ge; lia).
    cbn [orb].
    replace ((0 <=? x) && (x <? Z.of_nat w) && (0 <=? y) && (y <? Z.of_nat h))
      with true by (symmetry; repeat (apply andb_true_intro; split); lia).
    cbn [negb]. rewrite bool_decide_eq_true_2 by done. cbn [negb].
    rewrite Hseedv. fold m0. rewrite Hm0.
    fold (diff_of t). unfold seed in Hloop. cbn [fst snd] in Hloop.
    rewrite Hloop. done.
  - apply has_shape_slice_inner. apply (inv_shape _ _ _ _ _ _ _ _ _ _ _ _ Hinv).
  - intros r c Hr Hc.
    rewrite (get2_slice_inner m h w r c
               (inv_shape _ _ _ _ _ _ _ _ _ _ _ _ Hinv) Hr Hc).
    assert (Hin : inner h w (S r, S c)) by (unfold inner; simpl; lia).
    split.
    + rewrite (inv_final h w (img g) (diff_of t) (diff_of t) seedv 255 seed
                 Hshape m p1 (r, c) Hinv).
      unfold marked; simpl. tauto.
    + apply (inv_values _ _ _ _ _ _ _ _ _ _ _ _ Hinv (S r, S c) Hin).
Qed.

(** *** The region in the words of the specification *)

(** On every colour channel the absolute difference from the seed
    pixel's colour is at most [t]. *)
Definition similar (t : Z) (seedv v : pixel) : Prop :=
  Z.abs (v.1.1 - seedv.1.1) <= t
  /\ Z.abs (v.1.2 - seedv.1.2) <= t
  /\ Z.abs (v.2 - seedv.2) <= t.

Lemma within_similar (t : Z) (seedv v : pixel) :
  0 <= t <= 255 -> within t seedv v <-> similar t seedv v.
Proof.
  intros Ht. unfold within, similar, diff_of, in_range, channel_in_range.
  destruct seedv as [[sb sg] sr], v as [[b g'] r]; simpl.
  replace (saturate_u8 t) with t by (unfold saturate_u8; lia).
  rewrite !andb_true_iff, !Z.leb_le. lia.
Qed.

Lemma within_mono (t1 t2 : Z) (seedv v : pixel) :
  t1 <= t2 -> within t1 seedv v -> within t2 seedv v.
Proof.
  intros Ht. unfold within, diff_of, in_range, channel_in_range.
  destruct seedv as [[sb sg] sr], v as [[b g'] r]; simpl.
  assert (saturate_u8 t1 <= saturate_u8 t2) by (unfold saturate_u8; lia).
  rewrite !andb_true_iff, !Z.leb_le. lia.
Qed.

Lemma connected_iff (i : image) (ok ok' : pixel -> Prop) seed q :
  (forall v, ok v <-> ok' v) -> connected i ok seed q <-> connected i ok' seed q.
Proof. intros H. split; apply connected_impl; intros v; apply H. Qed.

Lemma connected_in_image (i : image) (ok : pixel -> Prop) seed q :
  connected i ok seed q -> is_Some (get2 i q.1 q.2).
Proof. destruct 1; by eexists. Qed.

Definition test_img : image :=
  [[(10,10,10); (20,20,20); (200,200,200)];
   [(200,200,200); (30,30,30); (200,200,200)];
   [(15,15,15); (200,200,200); (61,10,10)]].

Lemma test_img_shape : has_shape 3 3 test_img.
Proof. split; [reflexivity | repeat constructor]. Qed.

Example click_top_left :
  on_mouse_click (start test_img) EVENT_LBUTTONDOWN 0 0
  = inr {| TOLERANCE := 50; img := test_img;
           current_mask := Some [[255; 255; 0]; [0; 255; 0]; [0; 0; 0]] |}.
Proof. vm_compute. reflexivity. Qed.

Example click_outside :
  on_mouse_click (start test_img) EVENT_LBUTTONDOWN 3 2 = inl SeedOutOfRange.
Proof. vm_compute. reflexivity. Qed.

Example other_event_is_ignored :
  on_mouse_click (start test_img) 0 1 1 = inr (start test_img).
Proof. reflexivity. Qed.

(** C2. A left click at an in-bounds seed, with a tolerance in the
    0..255 range of a channel, selects exactly the pixels that a
    4-connected path joins to the seed, every pixel of the path differing
    from the seed pixel's own colour by at most the tolerance on each
    channel. *)
Theorem click_selects_connected_region (g : globals) (h w : nat) (x y : Z) :
  has_shape h w (img g) ->
  0 <= x < Z.of_nat w -> 0 <= y < Z.of_nat h ->
  0 <= TOLERANCE g <= 255 ->
  exists cm seedv,
    on_mouse_click g EVENT_LBUTTONDOWN x y
      = inr {| TOLERANCE := TOLERANCE g; img := img g; current_mask := Some cm |}
    /\ get2 (img g) (Z.to_nat y) (Z.to_nat x) = Some seedv
    /\ forall r c,
         get2 cm r c = Some 255 <->
         connected (img g) (similar (TOLERANCE g) seedv)
                   (Z.to_nat y, Z.to_nat x) (r, c).
Proof.
  intros Hshape Hx Hy Ht.
  destruct (click_spec g h w x y Hshape Hx Hy) as (cm & seedv & Hrun & Hseed & Hcm & Hreg);
    [lia|].
  exists cm, seedv. split; [done|]. split; [done|].
  intros r c.
  rewrite <- (connected_iff (img g) (within (TOLERANCE g) seedv));
    [|intros v; by apply within_similar].
  split.
  - intros Hm. destruct (get2_lt cm h w r c Hcm) as [Hr Hc]; [by eexists|].
    by apply (Hreg r c Hr Hc).
  - intros Hconn.
    destruct (get2_lt (img g) h w r c Hshape) as [Hr Hc];
      [apply (connected_in_image _ _ _ _ Hconn)|].
    by apply (Hreg r c Hr Hc).
Qed.

Lemma click_selects_connected_region_witness :
  exists cm seedv,
    on_mouse_click (start test_img) EVENT_LBUTTONDOWN 0 0
      = inr {| TOLERANCE := 50; img := test_img; current_mask := Some cm |}
    /\ get2 test_img 0 0 = Some seedv
    /\ forall r c,
         get2 cm r c = Some 255 <->
         connected test_img (similar 50 seedv) (0%nat, 0%nat) (r, c).
Proof.
  apply (click_selects_connected_region (start test_img) 3 3 0 0).
  - exact test_img_shape.
  - simpl; lia.
  - simpl; lia.
  - simpl; lia.
Defined.

(** C5 (as amended). A left click at an in-bounds seed returns a mask
    of the image's height and width that holds 255 -- the fill value the
    tool puts into its flag word, not 1 -- at exactly the pixels of the
    grown region and 0 at every other pixel. *)
Theorem click_mask_is_255_on_region (g : globals) (h w : nat) (x y : Z) :
  has_shape h w (img g) ->
  0 <= x < Z.of_nat w -> 0 <= y < Z.of_nat h ->
  0 <= TOLERANCE g ->
  exists cm seedv,
    on_mouse_click g EVENT_LBUTTONDOWN x y
      = inr {| TOLERANCE := TOLERANCE g; img := img g; current_mask := Some cm |}
    /\ get2 (img g) (Z.to_nat y) (Z.to_nat x) = Some seedv
    /\ has_shape h w cm
    /\ shape cm = shape (img g)
    /\ forall r c, (r < h)%nat -> (c < w)%nat ->
         let in_region :=
           connected (img g) (within (TOLERANCE g) seedv)
                     (Z.to_nat y, Z.to_nat x) (r, c) in
         (in_region -> get2 cm r c = Some 255)
         /\ (~ in_region -> get2 cm r c = Some 0).
Proof.
  intros Hshape Hx Hy Ht.
  destruct (click_spec g h w x y Hshape Hx Hy Ht)
    as (cm & seedv & Hrun & Hseed & Hcm & Hreg).
  exists cm, seedv. repeat (split; [done|]). split.
  - rewrite (shape_has_shape cm h w Hcm) by lia.
    by rewrite (shape_has_shape (img g) h w Hshape) by lia.
  - intros r c Hr Hc. destruct (Hreg r c Hr Hc) as [Hiff Hval]. split.
    + apply Hiff.
    + intros Hnot. destruct Hval as [H255|H0]; [|done].
      exfalso. apply Hnot. by apply Hiff.
Qed.

Lemma click_mask_is_255_on_region_witness :
  exists cm seedv,
    on_mouse_click (start test_img) EVENT_LBUTTONDOWN 2 2
      = inr {| TOLERANCE := 50; img := test_img; current_mask := Some cm |}
    /\ get2 test_img 2 2 = Some seedv
    /\ has_shape 3 3 cm
    /\ shape cm = shape test_img
    /\ forall r c, (r < 3)%nat -> (c < 3)%nat ->
         let in_region :=
           connected test_img (within 50 seedv) (2%nat, 2%nat) (r, c) in
         (in_region -> get2 cm r c = Some 255)
         /\ (~ in_region -> get2 cm r c = Some 0).
Proof.
  apply (click_mask_is_255_on_region (start test_img) 3 3 2 2).
  - exact test_img_shape.
  - simpl; lia.
  - simpl; lia.
  - simpl; lia.
Defined.

(** C5 as stated fails on a one-pixel image: the only pixel is the
    region, and its mask value is 255, not 1. *)
Lemma click_mask_value_is_not_1 :
  on_mouse_click (start [[(1, 1, 1)]]) EVENT_LBUTTONDOWN 0 0
  = inr {| TOLERANCE := 50; img := [[(1, 1, 1)]]; current_mask := Some [[255]] |}.
Proof. vm_compute. reflexivity. Qed.

(** C6. Growth is monotonic in the tolerance: with the same image and
    the same in-bounds seed, every pixel selected under tolerance [t1]
    is selected under any larger tolerance [t2]. *)
Theorem click_monotone_in_tolerance
    (i : image) (old : option mask) (h w : nat) (x y t1 t2 : Z) :
  has_shape h w i ->
  0 <= x < Z.of_nat w -> 0 <= y < Z.of_nat h ->
  0 <= t1 -> t1 < t2 ->
  exists cm1 cm2,
    on_mouse_click {| TOLERANCE := t1; img := i; current_mask := old |}
        EVENT_LBUTTONDOWN x y
      = inr {| TOLERANCE := t1; img := i; current_mask := Some cm1 |}
    /\ on_mouse_click {| TOLERANCE := t2; img := i; current_mask := old |}
        EVENT_LBUTTONDOWN x y
      = inr {| TOLERANCE := t2; img := i; current_mask := Some cm2 |}
    /\ forall r c, get2 cm1 r c = Some 255 -> get2 cm2 r c = Some 255.
Proof.
  intros Hshape Hx Hy Ht1 Hlt.
  destruct (click_spec {| TOLERANCE := t1; img := i; current_mask := old |}
              h w x y Hshape Hx Hy Ht1)
    as (cm1 & seedv1 & Hrun1 & Hseed1 & Hcm1 & Hreg1).
  destruct (click_spec {| TOLERANCE := t2; img := i; current_mask := old |}
              h w x y Hshape Hx Hy)
    as (cm2 & seedv2 & Hrun2 & Hseed2 & Hcm2 & Hreg2); [simpl; lia|].
  simpl in *. assert (seedv2 = seedv1) as -> by congruence.
  exists cm1, cm2. split; [done|]. split; [done|].
  intros r c Hm.
  destruct (get2_lt cm1 h w r c Hcm1) as [Hr Hc]; [by eexists|].
  apply (Hreg2 r c Hr Hc).
  eapply connected_impl; [|by apply (Hreg1 r c Hr Hc)].
  intros v. apply within_mono. lia.
Qed.

Lemma click_monotone_in_tolerance_witness :
  exists cm1 cm2,
    on_mouse_click {| TOLERANCE := 5; img := test_img; current_mask := None |}
        EVENT_LBUTTONDOWN 0 0
      = inr {| TOLERANCE := 5; img := test_img; current_mask := Some cm1 |}
    /\ on_mouse_click {| TOLERANCE := 50; img := test_img; current_mask := None |}
        EVENT_LBUTTONDOWN 0 0
      = inr {| TOLERANCE := 50; img := test_img; current_mask := Some cm2 |}
    /\ forall r c, get2 cm1 r c = Some 255 -> get2 cm2 r c = Some 255.
Proof.
  apply (click_monotone_in_tolerance test_img None 3 3 0 0 5 50).
  - exact test_img_shape.
  - simpl; lia.
  - simpl; lia.
  - lia.
  - lia.
Defined.

End FloodFill.

(** ** Rectification requests

    *** Outcomes of a request *)

Inductive exn :=
| PyExn (e : py_exn)
| TypeError (msg : string)
| KeyError (key : string)          (* the repr of the missing key *)
| IndexError (msg : string)
| NumpyError (msg : string)
| Cv2Error (msg : string)
| DBError (msg : string).

Definition str (e : exn) : string :=
  match e with
  | PyExn ZeroDivisionError => "float division by zero"
  | PyExn OverflowError => "cannot convert float infinity to integer"
  | PyExn ValueError => "cannot convert float NaN to integer"
  | TypeError msg => msg
  | KeyError key => key
  | IndexError msg => msg
  | NumpyError msg => msg
  | Cv2Error msg => msg
  | DBError msg => msg
  end.

Inductive failure :=
| HTTPException (status_code : Z) (detail : string)
| Unhandled (e : exn).      (* escapes the handler: a 500 answer *)

(** *** The corners field

    The handlers take the corners as text and run [json.loads] on it.
    What comes back is any JSON value; the handlers then ask for its
    length and subscript it with [0] to [3] and with ["x"] and ["y"].
    A string holds its characters one by one, an object the entries
    left after [json.loads] has resolved repeated keys.  The messages
    of the errors are those of CPython 3.11. *)

#[warnings="-register-all"]
Inductive json :=
| JNull
| JBool (b : bool)
| JInt (n : Z)
| JFloat (x : float)
| JStr (s : string)
| JList (items : list json)
| JDict (fields : gmap string json).

Definition type_name (v : json) : string :=
  match v with
  | JNull => "NoneType"
  | JBool _ => "bool"
  | JInt _ => "int"
  | JFloat _ => "float"
  | JStr _ => "str"
  | JList _ => "list"
  | JDict _ => "dict"
  end.

(** [len(v)] *)
Definition len (v : json) : exn + nat :=
  match v with
  | JStr s => inr (String.length s)
  | JList items => inr (length items)
  | JDict fields => inr (size fields)
  | _ => inl (TypeError ("object of type '" +:+ type_name v +:+ "' has no len()"))
  end.

(** [v[i]] for an integer [i]; the keys of a JSON object are strings,
    so an object has no entry under an integer. *)
Definition item_at (v : json) (i : nat) : exn + json :=
  match v with
  | JList items =>
      match items !! i with
      | Some x => inr x
      | None => inl (IndexError "list index out of range")
      end
  | JStr s =>
      match String.get i s with
      | Some c => inr (JStr (String c EmptyString))
      | None => inl (IndexError "string index out of range")
      end
  | JDict _ => inl (KeyError (pretty i))
  | _ => inl (TypeError ("'" +:+ type_name v +:+ "' object is not subscriptable"))
  end.

(** [v[key]] for a string [key] *)
Definition item_of (v : json) (key : string) : exn + json :=
  match v with
  | JDict fields =>
      match fields !! key with
      | Some x => inr x
      | None => inl (KeyError ("'" +:+ key +:+ "'"))
      end
  | JList _ => inl (TypeError "list indices must be integers or slices, not str")
  | JStr _ => inl (TypeError "string indices must be integers, not 'str'")
  | _ => inl (TypeError ("'" +:+ type_name v +:+ "' object is not subscriptable"))
  end.

(** [[corners_data[i]["x"], corners_data[i]["y"]]] *)
Definition corner_entry (corners_data : json) (i : nat) : exn + json * json :=
  match item_at corners_data i with
  | inl e => inl e
  | inr c =>
      match item_of c "x" with
      | inl e => inl e
      | inr x =>
          match item_of c "y" with
          | inl e => inl e
          | inr y => inr (x, y)
          end
      end
  end.

(** The nested list the handlers hand to [np.float32], built corner
    by corner. *)
Fixpoint corner_entries (corners_data : json) (indices : list nat)
  : exn + list (json * json) :=
  match indices with
  | [] => inr []
  | i :: rest =>
      match corner_entry corners_data i with
      | inl e => inl e
      | inr xy =>
          match corner_entries corners_data rest with
          | inl e => inl e
          | inr entries => inr (xy :: entries)
          end
      end
  end.

Record point := { pt_x : float; pt_y : float }.

(** A JSON number as a coordinate: a float as it is, an integer that
    a float holds exactly as that float.  [np.float32] rounds both to
    single precision, which is left to the solver below. *)
Definition number (v : json) : option float :=
  match v with
  | JFloat x => Some x
  | JInt n => if Z.abs n <=? 2 ^ 53 then Some (of_Z n) else None
  | _ => None
  end.

Definition plain_points (entries : list (json * json)) : option (list point) :=
  mapM (fun xy : json * json =>
          match number xy.1, number xy.2 with
          | Some x, Some y => Some {| pt_x := x; pt_y := y |}
          | _, _ => None
          end) entries.

(** *** The OpenCV and numpy calls of the handlers

    [cv2.getPerspectiveTransform] solves the 8 x 8 system of the four
    correspondences and returns the matrix; it does not report whether
    the system was singular, so on four points it is a total function
    of its two point lists.  [cv2.warpPerspective] resamples through
    the inverse of the matrix in floating point; the colour it gives to
    a destination pixel is left to the interface, the embedding fixes
    the shape of its result.  Whether it resamples at all depends on
    the source and on the size asked for, not on the matrix: the
    release has limits on the sides of the source and the machine on
    the memory for the canvas.  What it does with an empty [dsize]
    differs between OpenCV releases.  What [np.float32] and the solver
    make of coordinates that are not plain numbers (strings, booleans,
    None, nested values, integers beyond 2^53) is left to the interface
    as well. *)

Class OpenCV := {
  matrix : Type;
  getPerspectiveTransform : list point -> list point -> matrix;
  (* the colour of the destination pixel in column u, row v *)
  resample : image -> matrix -> nat -> nat -> pixel;
  (* the error raised for a source and a positive size that the library
     cannot handle; None where it resamples *)
  warp_refuses : image -> Z * Z -> option string;
  (* the outcome for a dsize with a non-positive side: an error text or a canvas *)
  warp_empty_dsize : image -> matrix -> Z * Z -> string + image;
  (* np.float32 on entries that are not all plain numbers: the error it
     raises, None where it builds an array *)
  float32_other : list (json * json) -> option string;
  (* the solver on the array built from such entries *)
  solve_other : list (json * json) -> list point -> string + matrix
}.

(** The array [np.float32] builds from the corner entries. *)
Inductive float32_array :=
| Plain (points : list point)
| Converted (entries : list (json * json)).

Definition np_float32 `{OpenCV} (entries : list (json * json)) : string + float32_array :=
  match plain_points entries with
  | Some points => inr (Plain points)
  | None =>
      match float32_other entries with
      | Some msg => inl msg
      | None => inr (Converted entries)
      end
  end.

(** [cv2.getPerspectiveTransform(src_points, dst_points)] *)
Definition perspective_transform `{OpenCV} (src_points : float32_array)
    (dst_points : list point) : string + matrix :=
  match src_points with
  | Plain points => inr (getPerspectiveTransform points dst_points)
  | Converted entries => solve_other entries dst_points
  end.

(** The sides of [dsize] are converted to C [int]; a Python integer
    outside its range makes the call raise before OpenCV sees it. *)
Definition INT_MAX : Z := 2147483647.

Definition fits_int (n : Z) : bool := (- INT_MAX - 1 <=? n) && (n <=? INT_MAX).

Definition warpPerspective `{OpenCV} (src : image) (M : matrix) (dsize : Z * Z)
  : string + image :=
  let '(w, h) := dsize in
  if negb (fits_int w && fits_int h)
  then inl "Python int too large to convert to C int"%string
  else
    match shape src with
    | (O, _) | (_, O) => inl "(-215:Assertion failed) _src.total() > 0"%string
    | _ =>
        if (0 <? w) && (0 <? h)
        then
          match warp_refuses src dsize with
          | Some msg => inl msg
          | None =>
              inr ((fun v => (fun u => resample src M u v) <$> seq 0 (Z.to_nat w))
                     <$> seq 0 (Z.to_nat h))
          end
        else warp_empty_dsize src M dsize
    end.

Arguments warpPerspective : simpl never.

(** An instance that paints every destination pixel black, to run the
    handlers on concrete requests. *)
Definition cv_blank : OpenCV := {|
  matrix := list point * list point;
  getPerspectiveTransform := fun src dst => (src, dst);
  resample := fun _ _ _ _ => (0, 0, 0);
  warp_refuses := fun _ _ => None;
  warp_empty_dsize := fun src _ _ => inr src;
  float32_other := fun _ => Some "could not convert to float"%string;
  solve_other := fun _ _ => inl "(-215:Assertion failed) src.checkVector(2, CV_32F) == 4"%string
|}.

(** *** Writing and encoding JPEG

    The handlers write every picture as JPEG.  libjpeg refuses a
    picture with a side above [JPEG_MAX_DIMENSION]: [cv2.imwrite] then
    leaves no file and reports the failure by its return value, which
    the handlers do not look at, while [cv2.imencode] raises.  Both
    raise on an empty picture.  A file is identified with the picture
    it was written from. *)

Definition JPEG_MAX_DIMENSION : Z := 65500.

Definition is_empty (img : image) : bool :=
  match shape img with
  | (O, _) | (_, O) => true
  | _ => false
  end.

Definition jpeg_encodable (img : image) : bool :=
  (Z.of_nat (shape img).1 <=? JPEG_MAX_DIMENSION)
  && (Z.of_nat (shape img).2 <=? JPEG_MAX_DIMENSION).

(** [cv2.imwrite(filename, img)] over the files of the storage
    directory: the error it raises, or the files after the call. *)
Definition imwrite (filename : string) (img : image) (files : gmap string image)
  : string + gmap string image :=
  if is_empty img
  then inl "(-215:Assertion failed) !_img.empty() in function 'imwrite'"%string
  else if jpeg_encodable img then inr (<[filename := img]> files)
  else inr files.

(** [cv2.imencode('.jpg', img)]: the error it raises, or the encoded
    picture. *)
Definition imencode (img : image) : string + image :=
  if is_empty img
  then inl "(-215:Assertion failed) !image.empty() in function 'imencode'"%string
  else if jpeg_encodable img then inr img
  else inl "(-215:Assertion failed) code in function 'imencode'"%string.

(** The four destination corners, in the order of the source corners. *)
Definition dst_points (output_width output_height : Z) : list point :=
  [ {| pt_x := of_Z 0; pt_y := of_Z 0 |};
    {| pt_x := of_Z output_width; pt_y := of_Z 0 |};
    {| pt_x := of_Z output_width; pt_y := of_Z output_height |};
    {| pt_x := of_Z 0; pt_y := of_Z output_height |} ].

Definition STORAGE_DIR : string := "storage".

Definition transformed_path (image_id : string) : string :=
  STORAGE_DIR +:+ "/" +:+ image_id +:+ "_transformed.jpg".

(** The body of a successful answer; [transformed_image] stands for the
    encoded picture. *)
Record transform_response := {
  resp_image_id : string;
  transformed_image : image;
  resp_width : Z;
  resp_height : Z;
  real_dimensions : float * float * string
}.

(** The form fields of a transform request.  [corners] is the result
    of [json.loads]: [None] when the text is not JSON, otherwise the
    value it denotes. *)
Record transform_form := {
  corners : option json;
  height : float;
  width : float
}.

(** *** main.py: the in-memory prototype *)

Module Main.

Record store_entry := {
  original : image;
  filename : string;
  transformed : option image;
  dimensions : option (float * float)     (* width, height *)
}.

Record state := {
  image_store : gmap string store_entry;
  storage : gmap string image               (* the files written *)
}.

(** transform_image (main.py 113-225).  The entry of the store is
    assigned before the picture is written and encoded, so a failure of
    those two calls is answered with a 500 over a store that already
    holds the canvas. *)
Definition transform_image `{OpenCV} (st : state) (image_id : string)
    (form : transform_form) : (failure + transform_response) * state :=
  let error (e : exn) : failure :=
    HTTPException 500 ("Error transforming image: " +:+ str e) in
  match image_store st !! image_id with
  | None => (inl (HTTPException 404 "Image not found"), st)
  | Some entry =>
  match corners form with
  | None => (inl (HTTPException 400 "Invalid corners format"), st)
  | Some corners_data =>
  match len corners_data with
  | inl e => (inl (error e), st)
  | inr n =>
  if negb (n =? 4)%nat
  then (inl (HTTPException 400 "Exactly 4 corners required"), st)
  else
  let img := original entry in
  match corner_entries corners_data [0; 1; 2; 3]%nat with
  | inl e => (inl (error e), st)
  | inr entries =>
  match np_float32 entries with
  | inl msg => (inl (error (NumpyError msg)), st)
  | inr src_points =>
  match output_dims (width form) (height form) with
  | inl e => (inl (error (PyExn e)), st)
  | inr (output_width, output_height) =>
  match perspective_transform src_points
          (dst_points output_width output_height) with
  | inl msg => (inl (error (Cv2Error msg)), st)
  | inr M =>
  match warpPerspective img M (output_width, output_height) with
  | inl msg => (inl (error (Cv2Error msg)), st)
  | inr transformed_ =>
      let entry' :=
        {| original := original entry;
           filename := filename entry;
           transformed := Some transformed_;
           dimensions := Some (width form, height form) |} in
      let image_store' := <[image_id := entry']> (image_store st) in
      match imwrite (transformed_path image_id) transformed_ (storage st) with
      | inl msg =>
          (inl (error (Cv2Error msg)),
           {| image_store := image_store'; storage := storage st |})
      | inr storage' =>
          match imencode transformed_ with
          | inl msg =>
              (inl (error (Cv2Error msg)),
               {| image_store := image_store'; storage := storage' |})
          | inr buffer =>
              (inr {| resp_image_id := image_id;
                      transformed_image := buffer;
                      resp_width := output_width;
                      resp_height := output_height;
                      real_dimensions := (width form, height form, "meters"%string) |},
               {| image_store := image_store'; storage := storage' |})
          end
      end
  end end end end end end end end.

End Main.

(** *** routes.py: the project-bound handlers over the database *)

Module Routes.

Abbreviation uuid := string.

(** A value of a nullable column or of an optional request field. *)
Inductive value :=
| VFloat (x : float)
| VStr (s : string).

(** models.Project *)
Record project := {
  user_id : uuid;
  name : string
}.

(** models.ProjectImage.  The columns the handlers assign (the
    real-world dimensions, the analysis figures, [status],
    [storage_transformed_path]) are kept by column name; a column
    without an entry is NULL. *)
Record project_image := {
  project_id : uuid;
  original_filename : string;
  storage_original_path : string;
  width_px : Z;
  height_px : Z;
  columns : gmap string value
}.

(** schemas.DeselectItemCreate *)
Record deselect_item := {
  item_shape : string;
  item_count : Z;
  item_length : option float;
  item_breadth : option float;
  item_diameter : option float;
  item_area : option float;
  item_unit : string
}.

(** models.ImageDeselection *)
Record image_deselection := {
  deselection_id : uuid;
  image_id : uuid;
  item : deselect_item
}.

Record database := {
  projects : gmap uuid project;
  project_images : gmap uuid project_image;
  image_deselections : list image_deselection
}.

(** **** A session: one transaction over the database

    Statements act on the transaction's own view; the committed
    database changes only at COMMIT.  Every statement is a round trip
    that fails once the connection is lost: [budget] counts the round
    trips the connection still carries ([None]: it holds).  A handler
    that raises leaves its session without committing, and the view is
    dropped. *)

Record session := {
  view : database;
  budget : option nat;
  next_uuid : nat
}.

Definition tx (A : Type) : Type := session -> failure + A * session.

Definition tx_ret {A} (a : A) : tx A := fun s => inr (a, s).

Definition tx_bind {A B} (m : tx A) (k : A -> tx B) : tx B :=
  fun s => match m s with
           | inl f => inl f
           | inr (a, s') => k a s'
           end.

Definition raise {A} (f : failure) : tx A := fun _ => inl f.

Notation "x <- m ;; k" := (tx_bind m (fun x => k))
  (at level 100, m at next level, right associativity).
Notation "m ;; k" := (tx_bind m (fun _ => k))
  (at level 100, right associativity).

(** One round trip to the server. *)
Definition round_trip : tx unit :=
  fun s =>
    match budget s with
    | Some O => inl (Unhandled (DBError "connection lost"))
    | Some (S n) =>
        inr (tt, {| view := view s; budget := Some n; next_uuid := next_uuid s |})
    | None => inr (tt, s)
    end.

Definition read_view : tx database := fun s => inr (view s, s).

Definition write_view (d : database) : tx unit :=
  fun s => inr (tt, {| view := d; budget := budget s; next_uuid := next_uuid s |}).

(** [select(ProjectImage).join(Project).where(id, project_id, user_id)]
    followed by [scalar_one_or_none]. *)
Definition select_image (current_user project_id_ image_id_ : uuid)
  : tx (option project_image) :=
  round_trip ;;
  d <- read_view ;;
  tx_ret
    (match project_images d !! image_id_ with
     | Some row =>
         match projects d !! project_id row with
         | Some p =>
             if bool_decide (project_id row = project_id_)
                && bool_decide (user_id p = current_user)
             then Some row else None
         | None => None
         end
     | None => None
     end).

(** The UPDATE that flushes the attributes assigned to a loaded row. *)
Definition update_image (image_id_ : uuid) (row : project_image) : tx unit :=
  round_trip ;;
  d <- read_view ;;
  write_view {| projects := projects d;
                project_images := <[image_id_ := row]> (project_images d);
                image_deselections := image_deselections d |}.

(** [delete(ImageDeselection).where(ImageDeselection.image_id == id)] *)
Definition delete_deselections (image_id_ : uuid) : tx unit :=
  round_trip ;;
  d <- read_view ;;
  write_view {| projects := projects d;
                project_images := project_images d;
                image_deselections :=
                  filter (fun r => image_id r <> image_id_) (image_deselections d) |}.

(** The values of the [deselect_shape] enum of the column. *)
Definition deselect_shape : list string := ["rect"; "circle"; "irregular"].

(** The range of the Integer column [count]. *)
Definition int4 (n : Z) : bool := (- 2 ^ 31 <=? n) && (n <? 2 ^ 31).

(** The INSERT of one deselection row; the primary key comes from
    [uuid4].  A count outside the range of the column is refused, and
    so is a shape outside the enum.  The Numeric and String columns are
    taken to hold what they are sent. *)
Definition insert_deselection (uuid4 : nat -> uuid) (image_id_ : uuid)
    (it : deselect_item) : tx unit :=
  round_trip ;;
  if negb (int4 (item_count it))
  then raise (Unhandled (DBError "value out of int32 range"))
  else if bool_decide (item_shape it ∈ deselect_shape) then
    fun s =>
      let d := view s in
      let row := {| deselection_id := uuid4 (next_uuid s);
                    image_id := image_id_; item := it |} in
      inr (tt, {| view := {| projects := projects d;
                             project_images := project_images d;
                             image_deselections := image_deselections d ++ [row] |};
                  budget := budget s;
                  next_uuid := S (next_uuid s) |})
  else raise (Unhandled (DBError "invalid input value for enum deselect_shape")).

Fixpoint insert_all (uuid4 : nat -> uuid) (image_id_ : uuid)
    (items : list deselect_item) : tx unit :=
  match items with
  | [] => tx_ret tt
  | it :: rest =>
      insert_deselection uuid4 image_id_ it ;; insert_all uuid4 image_id_ rest
  end.

(** Run a handler body in a fresh session, COMMIT, then refresh.  The
    result carries the committed database. *)
Definition in_session {A} (conn : option nat) (d : database) (body : tx A)
  : (failure + A) * database :=
  match body {| view := d; budget := conn; next_uuid := O |} with
  | inl f => (inl f, d)
  | inr (a, s) =>
      match round_trip s with         (* COMMIT *)
      | inl f => (inl f, d)
      | inr (_, s') =>
          match round_trip s' with    (* db.refresh *)
          | inl f => (inl f, view s')
          | inr _ => (inr a, view s')
          end
      end
  end.

(** **** save_image_analysis (routes.py 428-490) *)

(** schemas.ImageAnalysisUpdate: the ten optional analysis fields by
    name (a null or missing field has no entry), the deselection list
    and the cemented image. *)
Record image_analysis_update := {
  analysis_fields : gmap string value;
  deselections : option (list deselect_item);
  cemented_image : option string
}.

Definition ANALYSIS_FIELDS : list string :=
  [ "mask_coverage_percent"; "deselect_area"; "effective_deselect_area";
    "usable_area"; "cemented_area"; "cemented_percent"; "sort_key_numeric";
    "real_width"; "real_height"; "real_unit" ].

(** The loop over the field names: [setattr] where the value is not None. *)
Definition assign_fields (analysis : image_analysis_update)
    (cols : gmap string value) : gmap string value :=
  foldl (fun cols field =>
           match analysis_fields analysis !! field with
           | Some v => <[field := v]> cols
           | None => cols
           end) cols ANALYSIS_FIELDS.

Definition with_columns (row : project_image) (cols : gmap string value)
  : project_image :=
  {| project_id := project_id row;
     original_filename := original_filename row;
     storage_original_path := storage_original_path row;
     width_px := width_px row;
     height_px := height_px row;
     columns := cols |}.

Definition save_image_analysis_body (uuid4 : nat -> uuid)
    (current_user project_id_ image_id_ : uuid)
    (analysis : image_analysis_update) : tx project_image :=
  found <- select_image current_user project_id_ image_id_ ;;
  match found with
  | None => raise (HTTPException 404 "Image not found")
  | Some db_image =>
      let db_image' := with_columns db_image (assign_fields analysis (columns db_image)) in
      update_image image_id_ db_image' ;;
      match deselections analysis with
      | Some items =>
          delete_deselections image_id_ ;;
          insert_all uuid4 image_id_ items
      | None => tx_ret tt
      end ;;
      tx_ret db_image'
  end.

Definition save_image_analysis (uuid4 : nat -> uuid) (conn : option nat)
    (d : database) (current_user project_id_ image_id_ : uuid)
    (analysis : image_analysis_update) : (failure + project_image) * database :=
  in_session conn d
    (save_image_analysis_body uuid4 current_user project_id_ image_id_ analysis).

(** **** transform_project_image (routes.py 330-425)

    The handler has no [try]: what its calls raise escapes it.  The
    picture is written before the row is updated and committed, and
    encoded for the answer after the commit. *)

Record world := {
  db : database;
  files : gmap string image       (* the pictures under the storage directory *)
}.

Definition transform_project_image `{OpenCV} (conn : option nat) (w : world)
    (current_user project_id_ image_id_ : uuid) (form : transform_form)
  : (failure + transform_response) * world :=
  match select_image current_user project_id_ image_id_
          {| view := db w; budget := conn; next_uuid := O |} with
  | inl f => (inl f, w)
  | inr (None, _) => (inl (HTTPException 404 "Image not found"), w)
  | inr (Some db_image, s) =>
  match corners form with
  | None => (inl (HTTPException 400 "Invalid corners format"), w)
  | Some corners_data =>
  match len corners_data with
  | inl e => (inl (Unhandled e), w)
  | inr n =>
  if negb (n =? 4)%nat
  then (inl (HTTPException 400 "Exactly 4 corners required"), w)
  else
  match files w !! storage_original_path db_image with
  | None => (inl (HTTPException 500 "Stored image could not be read"), w)
  | Some img =>
  match corner_entries corners_data [0; 1; 2; 3]%nat with
  | inl e => (inl (Unhandled e), w)
  | inr entries =>
  match np_float32 entries with
  | inl msg => (inl (Unhandled (NumpyError msg)), w)
  | inr src_points =>
  match output_dims (width form) (height form) with
  | inl e => (inl (Unhandled (PyExn e)), w)
  | inr (output_width, output_height) =>
  match perspective_transform src_points
          (dst_points output_width output_height) with
  | inl msg => (inl (Unhandled (Cv2Error msg)), w)
  | inr M =>
  match warpPerspective img M (output_width, output_height) with
  | inl msg => (inl (Unhandled (Cv2Error msg)), w)
  | inr transformed_ =>
  let transform_path := transformed_path image_id_ in
  match imwrite transform_path transformed_ (files w) with
  | inl msg => (inl (Unhandled (Cv2Error msg)), w)
  | inr files' =>
      let db_image' :=
        with_columns db_image
          (<["status" := VStr "ready"]>
             (<["real_unit" := VStr "m"]>
                (<["real_height" := VFloat (height form)]>
                   (<["real_width" := VFloat (width form)]>
                      (<["storage_transformed_path" := VStr transform_path]>
                         (columns db_image)))))) in
      match (update_image image_id_ db_image' ;; round_trip) s with
      | inl f => (inl f, {| db := db w; files := files' |})
      | inr (_, s') =>
          match round_trip s' with      (* db.refresh *)
          | inl f => (inl f, {| db := view s'; files := files' |})
          | inr _ =>
              match imencode transformed_ with
              | inl msg =>
                  (inl (Unhandled (Cv2Error msg)),
                   {| db := view s'; files := files' |})
              | inr buffer =>
                  (inr {| resp_image_id := image_id_;
                          transformed_image := buffer;
                          resp_width := output_width;
                          resp_height := output_height;
                          real_dimensions :=
                            (width form, height form, "meters"%string) |},
                   {| db := view s'; files := files' |})
              end
          end
      end
  end end end end end end end end end
  end.

End Routes.

(** ** Properties of the transform handlers *)

Lemma warpPerspective_shape `{OpenCV} (src : image) (M : matrix) (w h : Z) :
  (0 < (shape src).1)%nat -> (0 < (shape src).2)%nat ->
  0 < w <= INT_MAX -> 0 < h <= INT_MAX ->
  warp_refuses src (w, h) = None ->
  exists canvas,
    warpPerspective src M (w, h) = inr canvas
    /\ has_shape (Z.to_nat h) (Z.to_nat w) canvas.
Proof.
  intros Hr Hc Hw Hh Hok. unfold warpPerspective, fits_int.
  replace ((- INT_MAX - 1 <=? w) && (w <=? INT_MAX)) with true
    by (symmetry; apply andb_true_intro; split; lia).
  replace ((- INT_MAX - 1 <=? h) && (h <=? INT_MAX)) with true
    by (symmetry; apply andb_true_intro; split; lia).
  cbn [andb negb].
  destruct (shape src) as [[|a] [|b]]; simpl in Hr, Hc; try lia.
  replace ((0 <? w) && (0 <? h)) with true
    by (symmetry; apply andb_true_intro; split; lia).
  rewrite Hok.
  eexists. split; [reflexivity|]. split.
  - by rewrite length_fmap, length_seq.
  - apply Forall_fmap, Forall_forall. intros v _. simpl.
    by rewrite length_fmap, length_seq.
Qed.

(** A size with a side beyond the C [int] never reaches OpenCV. *)
Lemma warpPerspective_overflow `{OpenCV} (src : image) (M : matrix) (w h : Z) :
  INT_MAX < w -> exists msg, warpPerspective src M (w, h) = inl msg.
Proof.
  intros Hw. unfold warpPerspective, fits_int.
  replace (w <=? INT_MAX) with false by (symmetry; apply Z.leb_gt; lia).
  rewrite andb_false_r. cbn [andb negb]. by eexists.
Qed.

(** A canvas of at most [JPEG_MAX_DIMENSION] pixels a side is written
    and encoded. *)
Lemma jpeg_written (canvas : image) (h w : nat) (path : string)
    (fs : gmap string image) :
  has_shape h w canvas -> (0 < h)%nat -> (0 < w)%nat ->
  Z.of_nat h <= JPEG_MAX_DIMENSION -> Z.of_nat w <= JPEG_MAX_DIMENSION ->
  imwrite path canvas fs = inr (<[path := canvas]> fs)
  /\ imencode canvas = inr canvas.
Proof.
  intros Hshape Hh Hw Hhm Hwm.
  pose proof (shape_has_shape _ _ _ Hshape Hh) as Hs.
  unfold imwrite, imencode, is_empty, jpeg_encodable. rewrite Hs. cbn [fst snd].
  replace (Z.of_nat h <=? JPEG_MAX_DIMENSION) with true
    by (symmetry; apply Z.leb_le; lia).
  replace (Z.of_nat w <=? JPEG_MAX_DIMENSION) with true
    by (symmetry; apply Z.leb_le; lia).
  destruct h as [|h']; [lia|]. destruct w as [|w']; [lia|]. done.
Qed.

(** A wider canvas is neither written nor encoded: [imwrite] leaves
    the files as they are, [imencode] raises. *)
Lemma jpeg_too_wide (canvas : image) (h w : nat) (path : string)
    (fs : gmap string image) :
  has_shape h w canvas -> (0 < h)%nat -> JPEG_MAX_DIMENSION < Z.of_nat w ->
  imwrite path canvas fs = inr fs
  /\ imencode canvas
     = inl "(-215:Assertion failed) code in function 'imencode'"%string.
Proof.
  intros Hshape Hh Hwm.
  pose proof (shape_has_shape _ _ _ Hshape Hh) as Hs.
  unfold imwrite, imencode, is_empty, jpeg_encodable. rewrite Hs. cbn [fst snd].
  replace (Z.of_nat w <=? JPEG_MAX_DIMENSION) with false
    by (symmetry; apply Z.leb_gt; lia).
  rewrite andb_false_r.
  destruct h as [|h']; [lia|]. destruct w as [|w']; [unfold JPEG_MAX_DIMENSION in *; lia|].
  done.
Qed.

Lemma output_dims_zero_height (w h : float) :
  is_zero h = true -> output_dims w h = inl ZeroDivisionError.
Proof. intros Hz. unfold output_dims, truediv. by rewrite Hz. Qed.

(** *** Corners sent as a list of four objects with float coordinates *)

Definition corner_object (p : point) : json :=
  JDict {[ "x" := JFloat (pt_x p); "y" := JFloat (pt_y p) ]}.

Definition corners_json (cs : list point) : json := JList (corner_object <$> cs).

Definition form_of (cs : list point) (w h : float) : transform_form :=
  {| corners := Some (corners_json cs); height := h; width := w |}.

Lemma corner_object_x (p : point) : item_of (corner_object p) "x" = inr (JFloat (pt_x p)).
Proof. unfold item_of, corner_object. by rewrite lookup_insert_eq. Qed.

Lemma corner_object_y (p : point) : item_of (corner_object p) "y" = inr (JFloat (pt_y p)).
Proof.
  unfold item_of, corner_object.
  rewrite lookup_insert_ne by done. by rewrite lookup_singleton_eq.
Qed.

Lemma corner_entry_object (items : list json) (i : nat) (p : point) :
  items !! i = Some (corner_object p) ->
  corner_entry (JList items) i = inr (JFloat (pt_x p), JFloat (pt_y p)).
Proof.
  intros Hi. unfold corner_entry, item_at. rewrite Hi.
  by rewrite corner_object_x, corner_object_y.
Qed.

(** Such a list passes the length check and reaches the solver as the
    four points it names. *)
Lemma corners_json_points `{OpenCV} (cs : list point) :
  length cs = 4%nat ->
  len (corners_json cs) = inr 4%nat
  /\ exists entries,
       corner_entries (corners_json cs) [0; 1; 2; 3]%nat = inr entries
       /\ np_float32 entries = inr (Plain cs).
Proof.
  intros Hlen.
  destruct cs as [|p0 [|p1 [|p2 [|p3 [|p4 cs]]]]]; try discriminate.
  split; [reflexivity|].
  exists [ (JFloat (pt_x p0), JFloat (pt_y p0)); (JFloat (pt_x p1), JFloat (pt_y p1));
           (JFloat (pt_x p2), JFloat (pt_y p2)); (JFloat (pt_x p3), JFloat (pt_y p3)) ].
  split.
  - unfold corners_json. cbn [fmap list_fmap corner_entries].
    rewrite (corner_entry_object _ 0 p0) by reflexivity.
    rewrite (corner_entry_object _ 1 p1) by reflexivity.
    rewrite (corner_entry_object _ 2 p2) by reflexivity.
    rewrite (corner_entry_object _ 3 p3) by reflexivity.
    reflexivity.
  - unfold np_float32, plain_points. cbn.
    by destruct p0, p1, p2, p3.
Qed.

(** The prototype accepts every request that names a stored image,
    carries four corner objects and asks for a canvas that the library
    resamples and JPEG holds. *)
Lemma main_transform_runs `{OpenCV} (st : Main.state) (id : string)
    (form : transform_form) (entry : Main.store_entry)
    (cs : list point) (ow : Z) :
  Main.image_store st !! id = Some entry ->
  (0 < (shape (Main.original entry)).1)%nat ->
  (0 < (shape (Main.original entry)).2)%nat ->
  corners form = Some (corners_json cs) -> length cs = 4%nat ->
  output_dims (width form) (height form) = inr (ow, 800) ->
  0 < ow <= JPEG_MAX_DIMENSION ->
  warp_refuses (Main.original entry) (ow, 800) = None ->
  exists canvas,
    Main.transform_image st id form
    = (inr {| resp_image_id := id; transformed_image := canvas;
              resp_width := ow; resp_height := 800;
              real_dimensions := (width form, height form, "meters"%string) |},
       {| Main.image_store :=
            <[id := {| Main.original := Main.original entry;
                       Main.filename := Main.filename entry;
                       Main.transformed := Some canvas;
                       Main.dimensions := Some (width form, height form) |}]>
              (Main.image_store st);
          Main.storage := <[transformed_path id := canvas]> (Main.storage st) |})
    /\ has_shape 800 (Z.to_nat ow) canvas.
Proof.
  intros Hentry Hr Hc Hcs Hlen Hdims How Hok.
  unfold JPEG_MAX_DIMENSION in How.
  destruct (corners_json_points cs Hlen) as (Hl & entries & Hent & Hnp).
  destruct (warpPerspective_shape (Main.original entry)
              (getPerspectiveTransform cs (dst_points ow 800)) ow 800 Hr Hc)
    as (canvas & Hwarp & Hshape); [unfold INT_MAX; lia | unfold INT_MAX; lia | exact Hok |].
  destruct (jpeg_written canvas _ _ (transformed_path id) (Main.storage st) Hshape)
    as [Hwrite Henc]; [lia | lia | unfold JPEG_MAX_DIMENSION; lia
                      | unfold JPEG_MAX_DIMENSION; lia |].
  exists canvas. split; [|exact Hshape].
  unfold Main.transform_image.
  rewrite Hentry, Hcs, Hl. cbn [Nat.eqb negb]. cbv iota.
  rewrite Hent, Hnp, Hdims. cbn [perspective_transform].
  by rewrite Hwarp, Hwrite, Henc.
Qed.

(** The same for the project-bound handler, when the image belongs to
    a project of the caller, its stored original can be read and the
    connection holds. *)
Lemma routes_transform_runs `{OpenCV} (w : Routes.world)
    (user pid iid : string) (form : transform_form)
    (row : Routes.project_image) (p : Routes.project) (img : image)
    (cs : list point) (ow : Z) :
  Routes.project_images (Routes.db w) !! iid = Some row ->
  Routes.projects (Routes.db w) !! Routes.project_id row = Some p ->
  Routes.project_id row = pid -> Routes.user_id p = user ->
  Routes.files w !! Routes.storage_original_path row = Some img ->
  (0 < (shape img).1)%nat -> (0 < (shape img).2)%nat ->
  corners form = Some (corners_json cs) -> length cs = 4%nat ->
  output_dims (width form) (height form) = inr (ow, 800) ->
  0 < ow <= JPEG_MAX_DIMENSION ->
  warp_refuses img (ow, 800) = None ->
  exists canvas,
    Routes.transform_project_image None w user pid iid form
    = (inr {| resp_image_id := iid; transformed_image := canvas;
              resp_width := ow; resp_height := 800;
              real_dimensions := (width form, height form, "meters"%string) |},
       {| Routes.db :=
            {| Routes.projects := Routes.projects (Routes.db w);
               Routes.project_images :=
                 <[iid := Routes.with_columns row
                     (<["status" := Routes.VStr "ready"]>
                        (<["real_unit" := Routes.VStr "m"]>
                           (<["real_height" := Routes.VFloat (height form)]>
                              (<["real_width" := Routes.VFloat (width form)]>
                                 (<["storage_transformed_path" :=
                                      Routes.VStr (transformed_path iid)]>
                                    (Routes.columns row))))))]>
                   (Routes.project_images (Routes.db w));
               Routes.image_deselections :=
                 Routes.image_deselections (Routes.db w) |};
          Routes.files := <[transformed_path iid := canvas]> (Routes.files w) |})
    /\ has_shape 800 (Z.to_nat ow) canvas.
Proof.
  intros Hrow Hproj Hpid Huser Hfile Hr Hc Hcs Hlen Hdims How Hok.
  unfold JPEG_MAX_DIMENSION in How.
  destruct (corners_json_points cs Hlen) as (Hl & entries & Hent & Hnp).
  destruct (warpPerspective_shape img
              (getPerspectiveTransform cs (dst_points ow 800)) ow 800 Hr Hc)
    as (canvas & Hwarp & Hshape); [unfold INT_MAX; lia | unfold INT_MAX; lia | exact Hok |].
  destruct (jpeg_written canvas _ _ (transformed_path iid) (Routes.files w) Hshape)
    as [Hwrite Henc]; [lia | lia | unfold JPEG_MAX_DIMENSION; lia
                      | unfold JPEG_MAX_DIMENSION; lia |].
  exists canvas. split; [|exact Hshape].
  unfold Routes.transform_project_image, Routes.select_image, Routes.tx_bind,
    Routes.round_trip, Routes.read_view, Routes.tx_ret.
  cbn [Routes.view Routes.budget Routes.next_uuid].
  rewrite Hrow, Hproj.
  rewrite !bool_decide_eq_true_2 by done. cbn [andb].
  rewrite Hcs, Hl. cbn [Nat.eqb negb]. cbv iota.
  rewrite Hfile, Hent, Hnp, Hdims. cbn [perspective_transform].
  rewrite Hwarp, Hwrite.
  unfold Routes.update_image, Routes.tx_bind, Routes.round_trip, Routes.read_view,
    Routes.write_view.
  cbn [Routes.view Routes.budget Routes.next_uuid].
  by rewrite Henc.
Qed.

(** *** Concrete requests *)

Definition one_pixel : image := [[(1, 1, 1)]].

Definition pt (x y : Z) : point := {| pt_x := of_Z x; pt_y := of_Z y |}.

(** An already rectangular quad, and one whose corners are all the
    same point. *)
Definition proper_quad : list point := [pt 0 0; pt 100 0; pt 100 80; pt 0 80].

Definition entry0 : Main.store_entry :=
  {| Main.original := one_pixel; Main.filename := "wall.jpg";
     Main.transformed := None; Main.dimensions := None |}.

Definition main_state0 : Main.state :=
  {| Main.image_store := {[ "a" := entry0 ]}; Main.storage := ∅ |}.

Definition image_row0 : Routes.project_image :=
  {| Routes.project_id := "p"; Routes.original_filename := "wall.jpg";
     Routes.storage_original_path := "storage/a_original.jpg";
     Routes.width_px := 1; Routes.height_px := 1;
     Routes.columns := {[ "status" := Routes.VStr "new" ]} |}.

Definition project0 : Routes.project :=
  {| Routes.user_id := "u"; Routes.name := "site" |}.

Definition database0 : Routes.database :=
  {| Routes.projects := {[ "p" := project0 ]};
     Routes.project_images := {[ "a" := image_row0 ]};
     Routes.image_deselections := [] |}.

Definition world0 : Routes.world :=
  {| Routes.db := database0;
     Routes.files := {[ "storage/a_original.jpg" := one_pixel ]} |}.

Lemma main_state0_entry : Main.image_store main_state0 !! "a" = Some entry0.
Proof. apply lookup_singleton_eq. Qed.

Lemma world0_image : Routes.project_images (Routes.db world0) !! "a" = Some image_row0.
Proof. apply lookup_singleton_eq. Qed.

Lemma world0_project :
  Routes.projects (Routes.db world0) !! Routes.project_id image_row0 = Some project0.
Proof. apply lookup_singleton_eq. Qed.

Lemma world0_file :
  Routes.files world0 !! Routes.storage_original_path image_row0 = Some one_pixel.
Proof. apply lookup_singleton_eq. Qed.

Lemma one_pixel_rows : (0 < (shape one_pixel).1)%nat.
Proof. simpl. lia. Qed.

Lemma one_pixel_columns : (0 < (shape one_pixel).2)%nat.
Proof. simpl. lia. Qed.

Lemma dims_neg2_neg1 : output_dims (of_Z (-2)) (of_Z (-1)) = inr (1600, 800).
Proof. vm_compute. reflexivity. Qed.

Lemma dims_2_1 : output_dims (of_Z 2) (of_Z 1) = inr (1600, 800).
Proof. vm_compute. reflexivity. Qed.


Lemma width_1600 : 0 < 1600 <= JPEG_MAX_DIMENSION.
Proof. unfold JPEG_MAX_DIMENSION. lia. Qed.


(** C3 (as amended). A request whose real height is zero is never
    answered with a canvas: the division raises, the request ends in an
    error answer (a 500, or an earlier error of the lookups and the
    corner checks), and the stored state is left as it was. *)
Theorem zero_height_fails_without_effect `{OpenCV}
    (st : Main.state) (id : string)
    (conn : option nat) (w : Routes.world) (user pid iid : string)
    (form : transform_form) :
  is_zero (height form) = true ->
  (exists f, Main.transform_image st id form = (inl f, st))
  /\ (exists f, Routes.transform_project_image conn w user pid iid form = (inl f, w)).
Proof.
  intros Hz. pose proof (output_dims_zero_height (width form) _ Hz) as Hd.
  split.
  - unfold Main.transform_image.
    destruct (Main.image_store st !! id); [|by eexists].
    destruct (corners form); [|by eexists].
    destruct (len _); [by eexists|].
    destruct (negb _); [by eexists|].
    destruct (corner_entries _ _); [by eexists|].
    destruct (np_float32 _); [by eexists|].
    rewrite Hd. by eexists.
  - unfold Routes.transform_project_image.
    destruct (Routes.select_image _ _ _ _) as [f|[[row|] s]]; try by eexists.
    destruct (corners form); [|by eexists].
    destruct (len _); [by eexists|].
    destruct (negb _); [by eexists|].
    destruct (Routes.files w !! _); [|by eexists].
    destruct (corner_entries _ _); [by eexists|].
    destruct (np_float32 _); [by eexists|].
    rewrite Hd. by eexists.
Qed.

Lemma zero_height_fails_without_effect_witness :
  (exists f, @Main.transform_image cv_blank main_state0 "a"
               (form_of proper_quad (of_Z 2) (of_Z 0)) = (inl f, main_state0))
  /\ (exists f, @Routes.transform_project_image cv_blank None world0 "u" "p" "a"
                  (form_of proper_quad (of_Z 2) (of_Z 0)) = (inl f, world0)).
Proof.
  apply (@zero_height_fails_without_effect cv_blank). reflexivity.
Defined.

(** How the prototype answers a zero height. *)
Example zero_height_answer :
  @Main.transform_image cv_blank main_state0 "a"
     (form_of proper_quad (of_Z 2) (of_Z 0))
  = (inl (HTTPException 500 "Error transforming image: float division by zero"),
     main_state0).
Proof. vm_compute. reflexivity. Qed.

(** C3 as stated fails at width = -2.0, height = -1.0: both dimensions
    are non-positive, yet wherever OpenCV resamples a one-pixel picture
    onto 1600 x 800 pixels, and whatever colours it gives them, both
    handlers answer with a 1600 x 800 canvas and store it together with
    the negative dimensions. *)
Lemma negative_dimensions_are_accepted :
  is_nonpositive (of_Z (-2)) = true /\ is_nonpositive (of_Z (-1)) = true
  /\ (forall cv : OpenCV,
        warp_refuses one_pixel (1600, 800) = None ->
        exists resp st',
        @Main.transform_image cv main_state0 "a"
           (form_of proper_quad (of_Z (-2)) (of_Z (-1))) = (inr resp, st')
        /\ has_shape 800 1600 (transformed_image resp)
        /\ (resp_width resp, resp_height resp) = (1600, 800)
        /\ Main.storage st' !! transformed_path "a" = Some (transformed_image resp)
        /\ Main.dimensions <$> Main.image_store st' !! "a"
           = Some (Some (of_Z (-2), of_Z (-1))))
  /\ (forall cv : OpenCV,
        warp_refuses one_pixel (1600, 800) = None ->
        exists resp w',
        @Routes.transform_project_image cv None world0 "u" "p" "a"
           (form_of proper_quad (of_Z (-2)) (of_Z (-1))) = (inr resp, w')
        /\ has_shape 800 1600 (transformed_image resp)
        /\ Routes.files w' !! transformed_path "a" = Some (transformed_image resp)
        /\ (Routes.project_images (Routes.db w') !! "a"
              ≫= fun row => Routes.columns row !! "real_width")
           = Some (Routes.VFloat (of_Z (-2)))).
Proof.
  split; [reflexivity|]. split; [reflexivity|]. split.
  - intros cv Hok.
    destruct (@main_transform_runs cv main_state0 "a"
                (form_of proper_quad (of_Z (-2)) (of_Z (-1)))
                entry0 proper_quad 1600 main_state0_entry
                one_pixel_rows one_pixel_columns eq_refl eq_refl
                dims_neg2_neg1 width_1600 Hok)
      as (canvas & Hrun & Hshape).
    eexists _, _. split; [exact Hrun|]. cbn [transformed_image resp_width
      resp_height Main.storage Main.image_store].
    split; [exact Hshape|]. split; [reflexivity|].
    split; [apply lookup_insert_eq|]. by rewrite lookup_insert_eq.
  - intros cv Hok.
    destruct (@routes_transform_runs cv world0 "u" "p" "a"
                (form_of proper_quad (of_Z (-2)) (of_Z (-1)))
                image_row0 project0 one_pixel proper_quad 1600
                world0_image world0_project eq_refl eq_refl world0_file
                one_pixel_rows one_pixel_columns eq_refl eq_refl
                dims_neg2_neg1 width_1600 Hok)
      as (canvas & Hrun & Hshape).
    eexists _, _. split; [exact Hrun|]. cbn [transformed_image Routes.files
      Routes.db Routes.project_images].
    split; [exact Hshape|].
    split; [apply lookup_insert_eq|]. rewrite lookup_insert_eq.
    cbn [mbind option_bind Routes.columns Routes.with_columns].
    rewrite lookup_insert_ne by done. rewrite lookup_insert_ne by done.
    rewrite lookup_insert_ne by done. by rewrite lookup_insert_eq.
Qed.




(** ** Properties of save_image_analysis *)

Module RoutesFacts.
Import Routes.

(** The deselection rows of one image. *)
Definition rows_of (image_id_ : uuid) (d : database) : list image_deselection :=
  filter (fun r => image_id r = image_id_) (image_deselections d).

(** The rows that [insert_all] appends, the [n]-th uuid coming first. *)
Fixpoint new_rows (uuid4 : nat -> uuid) (image_id_ : uuid) (n : nat)
    (items : list deselect_item) : list image_deselection :=
  match items with
  | [] => []
  | it :: rest =>
      {| deselection_id := uuid4 n; image_id := image_id_; item := it |}
        :: new_rows uuid4 image_id_ (S n) rest
  end.

Lemma new_rows_items uuid4 iid n items :
  item <$> new_rows uuid4 iid n items = items.
Proof.
  revert n. induction items as [|it rest IH]; intros n; simpl; [done|].
  by rewrite IH.
Qed.

Lemma new_rows_image uuid4 iid n items :
  Forall (fun r => image_id r = iid) (new_rows uuid4 iid n items).
Proof.
  revert n. induction items as [|it rest IH]; intros n; simpl; constructor; auto.
Qed.

Lemma round_trip_view s u s' :
  round_trip s = inr (u, s') -> view s' = view s /\ next_uuid s' = next_uuid s.
Proof.
  unfold round_trip. destruct (budget s) as [[|n]|]; intros Hr; simplify_eq/=; done.
Qed.

Lemma tx_bind_inr {A B} (m : tx A) (k : A -> tx B) s b s' :
  tx_bind m k s = inr (b, s') ->
  exists a s1, m s = inr (a, s1) /\ k a s1 = inr (b, s').
Proof.
  unfold tx_bind. destruct (m s) as [f|[a s1]]; [discriminate|].
  intros Hk. by exists a, s1.
Qed.

Lemma read_view_inr s d s' : read_view s = inr (d, s') -> d = view s /\ s' = s.
Proof. unfold read_view. intros Hr. by simplify_eq. Qed.

Lemma write_view_inr d s u s' :
  write_view d s = inr (u, s') -> view s' = d /\ next_uuid s' = next_uuid s.
Proof. unfold write_view. intros Hr. by simplify_eq. Qed.

Lemma select_image_inr user pid iid s found s' :
  select_image user pid iid s = inr (found, s') ->
  view s' = view s /\ next_uuid s' = next_uuid s
  /\ forall row, found = Some row -> project_images (view s) !! iid = Some row.
Proof.
  unfold select_image. intros Hrun.
  apply tx_bind_inr in Hrun as ([] & s1 & Hrt & Hrun).
  apply round_trip_view in Hrt as [Hv Hn].
  apply tx_bind_inr in Hrun as (d & s2 & Hread & Hrun).
  apply read_view_inr in Hread as [-> ->].
  unfold tx_ret in Hrun. injection Hrun as <- <-.
  split; [done|]. split; [done|]. rewrite Hv. intros row.
  destruct (project_images (view s) !! iid) as [row0|]; [|discriminate].
  destruct (projects (view s) !! project_id row0); [|discriminate].
  destruct (_ && _); [|discriminate]. done.
Qed.

Lemma update_image_inr iid row s u s' :
  update_image iid row s = inr (u, s') ->
  view s' = {| projects := projects (view s);
               project_images := <[iid := row]> (project_images (view s));
               image_deselections := image_deselections (view s) |}
  /\ next_uuid s' = next_uuid s.
Proof.
  unfold update_image. intros Hrun.
  apply tx_bind_inr in Hrun as ([] & s1 & Hrt & Hrun).
  apply round_trip_view in Hrt as [Hv Hn].
  apply tx_bind_inr in Hrun as (d & s2 & Hread & Hrun).
  apply read_view_inr in Hread as [-> ->].
  apply write_view_inr in Hrun as [Hv' Hn'].
  rewrite Hv', Hn', Hv, Hn. done.
Qed.

Lemma delete_deselections_inr iid s u s' :
  delete_deselections iid s = inr (u, s') ->
  view s' = {| projects := projects (view s);
               project_images := project_images (view s);
               image_deselections :=
                 filter (fun r => image_id r <> iid) (image_deselections (view s)) |}
  /\ next_uuid s' = next_uuid s.
Proof.
  unfold delete_deselections. intros Hrun.
  apply tx_bind_inr in Hrun as ([] & s1 & Hrt & Hrun).
  apply round_trip_view in Hrt as [Hv Hn].
  apply tx_bind_inr in Hrun as (d & s2 & Hread & Hrun).
  apply read_view_inr in Hread as [-> ->].
  apply write_view_inr in Hrun as [Hv' Hn'].
  rewrite Hv', Hn', Hv, Hn. done.
Qed.

Lemma insert_deselection_inr uuid4 iid it s u s' :
  insert_deselection uuid4 iid it s = inr (u, s') ->
  view s' = {| projects := projects (view s);
               project_images := project_images (view s);
               image_deselections :=
                 image_deselections (view s)
                   ++ [{| deselection_id := uuid4 (next_uuid s);
                          image_id := iid; item := it |}] |}
  /\ next_uuid s' = S (next_uuid s).
Proof.
  unfold insert_deselection. intros Hrun.
  apply tx_bind_inr in Hrun as ([] & s1 & Hrt & Hrun).
  apply round_trip_view in Hrt as [Hv Hn].
  destruct (negb _); [discriminate|].
  destruct (bool_decide _); [|discriminate].
  injection Hrun as <- <-. cbn [view next_uuid]. by rewrite Hv, Hn.
Qed.

Lemma insert_all_view uuid4 iid items s u s' :
  insert_all uuid4 iid items s = inr (u, s') ->
  view s' =
    {| projects := projects (view s);
       project_images := project_images (view s);
       image_deselections :=
         image_deselections (view s) ++ new_rows uuid4 iid (next_uuid s) items |}.
Proof.
  revert s. induction items as [|it rest IH]; intros s Hrun; simpl in Hrun.
  - unfold tx_ret in Hrun. injection Hrun as <- <-. simpl.
    rewrite app_nil_r. by destruct (view s).
  - apply tx_bind_inr in Hrun as ([] & s1 & Hins & Hrun).
    apply insert_deselection_inr in Hins as [Hv Hn].
    apply IH in Hrun. rewrite Hrun, Hv, Hn. simpl.
    by rewrite <- app_assoc.
Qed.

(** What the transaction's view holds when the body of the handler
    has run to its end. *)
Lemma save_image_analysis_body_view uuid4 user pid iid analysis s0 row s :
  save_image_analysis_body uuid4 user pid iid analysis s0 = inr (row, s) ->
  exists db_image,
    project_images (view s0) !! iid = Some db_image
    /\ row = with_columns db_image (assign_fields analysis (columns db_image))
    /\ view s =
       {| projects := projects (view s0);
          project_images := <[iid := row]> (project_images (view s0));
          image_deselections :=
            match deselections analysis with
            | Some items =>
                filter (fun r => image_id r <> iid) (image_deselections (view s0))
                  ++ new_rows uuid4 iid (next_uuid s0) items
            | None => image_deselections (view s0)
            end |}.
Proof.
  unfold save_image_analysis_body. intros Hrun.
  apply tx_bind_inr in Hrun as (found & s1 & Hsel & Hrun).
  apply select_image_inr in Hsel as (Hv1 & Hn1 & Hfound).
  destruct found as [db_image|]; [|discriminate].
  exists db_image. split; [by apply Hfound|].
  apply tx_bind_inr in Hrun as ([] & s2 & Hupd & Hrun).
  apply update_image_inr in Hupd as [Hv2 Hn2].
  apply tx_bind_inr in Hrun as ([] & s3 & Hdes & Hrun).
  unfold tx_ret in Hrun. injection Hrun as <- <-. split; [done|].
  destruct (deselections analysis) as [items|].
  - apply tx_bind_inr in Hdes as ([] & s4 & Hdel & Hins).
    apply delete_deselections_inr in Hdel as [Hv4 Hn4].
    apply insert_all_view in Hins.
    rewrite Hins, Hv4, Hn4, Hv2, Hn2, Hv1, Hn1. done.
  - unfold tx_ret in Hdes. injection Hdes as <-.
    rewrite Hv2, Hv1. done.
Qed.

(** The committed database after the request is the one before it, or
    the complete view of a body that ran to its end. *)
Lemma in_session_outcome {A} conn d (body : tx A) :
  (exists f, in_session conn d body = (inl f, d))
  \/ (exists a s r,
        body {| view := d; budget := conn; next_uuid := O |} = inr (a, s)
        /\ in_session conn d body = (r, view s)
        /\ (r = inr a \/ exists f, r = inl f)).
Proof.
  unfold in_session.
  destruct (body _) as [f|[a s]] eqn:Hbody; [left; by eexists|].
  destruct (round_trip s) as [f|[[] s1]] eqn:Hrt1; [left; by eexists|].
  destruct (round_trip_view _ _ _ Hrt1) as [Hv1 _].
  right. exists a, s. rewrite Hv1.
  destruct (round_trip s1) as [f|[[] s2]]; eauto 8.
Qed.

Lemma in_session_success {A} conn d (body : tx A) a d' :
  in_session conn d body = (inr a, d') ->
  exists s, body {| view := d; budget := conn; next_uuid := O |} = inr (a, s)
            /\ d' = view s.
Proof.
  unfold in_session.
  destruct (body _) as [f|[a' s]] eqn:Hbody; [discriminate|].
  destruct (round_trip s) as [f|[[] s1]] eqn:Hrt1; [discriminate|].
  destruct (round_trip_view _ _ _ Hrt1) as [Hv1 _].
  destruct (round_trip s1) as [f|[[] s2]]; [discriminate|].
  intros Heq. injection Heq as <- <-. exists s. by rewrite Hv1.
Qed.

Lemma assign_fields_None analysis cols field :
  analysis_fields analysis !! field = None ->
  assign_fields analysis cols !! field = cols !! field.
Proof.
  intros Hnone. unfold assign_fields. generalize ANALYSIS_FIELDS as fields.
  intros fields. revert cols.
  induction fields as [|f fields IH]; intros cols; simpl; [done|].
  rewrite IH. destruct (analysis_fields analysis !! f) as [v|] eqn:Hf; [|done].
  apply lookup_insert_ne. congruence.
Qed.

Lemma filter_rows_replaced (iid : uuid) (old new : list image_deselection) :
  Forall (fun r => image_id r = iid) new ->
  filter (fun r => image_id r = iid)
    (filter (fun r => image_id r <> iid) old ++ new) = new.
Proof.
  intros Hnew. rewrite filter_app.
  assert (Hnil : filter (fun r => image_id r = iid)
                   (filter (fun r => image_id r <> iid) old) = []).
  { induction old as [|r old IH]; [done|].
    rewrite (filter_cons (fun r => image_id r <> iid)).
    destruct (decide (image_id r <> iid)) as [Hne|Heq]; [|exact IH].
    rewrite filter_cons. by destruct (decide (image_id r = iid)). }
  rewrite Hnil. simpl.
  induction Hnew as [|r new Hr _ IH]; [done|].
  rewrite filter_cons. destruct (decide (image_id r = iid)); [|done].
  by rewrite IH.
Qed.

Lemma filter_rows_other (iid other : uuid) (old new : list image_deselection) :
  other <> iid -> Forall (fun r => image_id r = iid) new ->
  filter (fun r => image_id r = other)
    (filter (fun r => image_id r <> iid) old ++ new)
  = filter (fun r => image_id r = other) old.
Proof.
  intros Hne Hnew. rewrite filter_app.
  assert (Hnil : filter (fun r => image_id r = other) new = []).
  { induction Hnew as [|r new Hr _ IH]; [done|].
    rewrite filter_cons. destruct (decide (image_id r = other)); [congruence|done]. }
  rewrite Hnil, app_nil_r.
  induction old as [|r old IH]; [done|].
  rewrite (filter_cons (fun r => image_id r <> iid)).
  rewrite (filter_cons (fun r => image_id r = other) r old).
  destruct (decide (image_id r <> iid)) as [Hni|Heq].
  - rewrite filter_cons. destruct (decide (image_id r = other)); by rewrite IH.
  - destruct (decide (image_id r = other)) as [Ho|Ho]; [|exact IH].
    exfalso. apply Heq. congruence.
Qed.

(** *** Concrete analysis requests *)

Definition rect_item : deselect_item :=
  {| item_shape := "rect"; item_count := 2;
     item_length := Some (of_Z 2); item_breadth := Some (of_Z 3);
     item_diameter := None; item_area := Some (of_Z 12); item_unit := "m" |}.

Definition circle_item : deselect_item :=
  {| item_shape := "circle"; item_count := 1;
     item_length := None; item_breadth := None;
     item_diameter := Some (of_Z 1); item_area := None; item_unit := "m" |}.

(** A shape outside the enum of the column. *)
Definition star_item : deselect_item :=
  {| item_shape := "star"; item_count := 1;
     item_length := None; item_breadth := None;
     item_diameter := None; item_area := Some (of_Z 1); item_unit := "m" |}.

Definition old_row (id_ image_id_ : uuid) : image_deselection :=
  {| deselection_id := id_; image_id := image_id_; item := circle_item |}.

(** Image "a" with two stored deselections and a stored usable area,
    image "b" with one deselection. *)
Definition database1 : database :=
  {| projects := {[ "p" := project0 ]};
     project_images :=
       {[ "a" := with_columns image_row0
                   (<["usable_area" := VFloat (of_Z 7)]> (columns image_row0));
          "b" := image_row0 ]};
     image_deselections := [old_row "r1" "a"; old_row "r2" "b"; old_row "r3" "a"] |}.

Definition uuids (n : nat) : uuid :=
  match n with O => "n0" | 1%nat => "n1" | _ => "n2" end.

Definition analysis_of (items : option (list deselect_item)) : image_analysis_update :=
  {| analysis_fields := {[ "deselect_area" := VFloat (of_Z 13) ]};
     deselections := items;
     cemented_image := None |}.

Example replace_succeeds :
  image_deselections
    (save_image_analysis uuids None database1 "u" "p" "a"
       (analysis_of (Some [rect_item; circle_item]))).2
  = [ old_row "r2" "b";
      {| deselection_id := "n0"; image_id := "a"; item := rect_item |};
      {| deselection_id := "n1"; image_id := "a"; item := circle_item |} ].
Proof. vm_compute. reflexivity. Qed.

(** The second INSERT is refused: the DELETE and the first INSERT that
    went before it are not visible. *)
Example refused_insert_changes_nothing :
  save_image_analysis uuids None database1 "u" "p" "a"
    (analysis_of (Some [rect_item; star_item]))
  = (inl (Unhandled (DBError "invalid input value for enum deselect_shape")),
     database1).
Proof. vm_compute. reflexivity. Qed.

(** The connection is lost after the SELECT, the UPDATE, the DELETE
    and one INSERT. *)
Example lost_connection_changes_nothing :
  save_image_analysis uuids (Some 4%nat) database1 "u" "p" "a"
    (analysis_of (Some [rect_item; circle_item]))
  = (inl (Unhandled (DBError "connection lost")), database1).
Proof. vm_compute. reflexivity. Qed.

(** A number a Numeric column holds whatever the release of the
    server: infinities are stored by some releases and refused by
    others. *)
Definition finite_or_null (x : option float) : Prop :=
  match x with
  | Some x => is_finite x = true
  | None => True
  end.

(** A row the server stores: its count is in the range of the column,
    its shape is a value of the enum, its measures are finite. *)
Definition storable (it : deselect_item) : Prop :=
  int4 (item_count it) = true /\ item_shape it ∈ deselect_shape
  /\ finite_or_null (item_length it) /\ finite_or_null (item_breadth it)
  /\ finite_or_null (item_diameter it) /\ finite_or_null (item_area it).

(** The analysis figures of a request are finite. *)
Definition finite_fields (analysis : image_analysis_update) : Prop :=
  forall field x,
    analysis_fields analysis !! field = Some (VFloat x) -> is_finite x = true.

(** Over a connection that holds, the caller's own image is found. *)
Lemma select_image_owned user pid iid d n row p :
  project_images d !! iid = Some row -> project_id row = pid ->
  projects d !! pid = Some p -> user_id p = user ->
  select_image user pid iid {| view := d; budget := None; next_uuid := n |}
  = inr (Some row, {| view := d; budget := None; next_uuid := n |}).
Proof.
  intros Hrow Hpid Hp Hu.
  unfold select_image, tx_bind, round_trip, read_view, tx_ret.
  cbn [view budget next_uuid]. rewrite Hrow, Hpid, Hp.
  by rewrite !bool_decide_eq_true_2.
Qed.

(** Over a connection that holds, rows the server stores are all
    inserted. *)
Lemma insert_all_holds uuid4 iid items d n :
  Forall storable items ->
  exists d' n',
    insert_all uuid4 iid items {| view := d; budget := None; next_uuid := n |}
    = inr (tt, {| view := d'; budget := None; next_uuid := n' |}).
Proof.
  intros Hitems. revert d n.
  induction Hitems as [|it rest (Hcount & Hshape & _) _ IH]; intros d n.
  - by exists d, n.
  - cbn [insert_all]. unfold tx_bind at 1.
    unfold insert_deselection, tx_bind, round_trip.
    cbn [view budget next_uuid]. rewrite Hcount. cbn [negb].
    rewrite bool_decide_eq_true_2 by done. cbn [view budget next_uuid].
    apply IH.
Qed.

(** Over a connection that holds, the body of the handler runs to its
    end for the caller's own image and rows the server stores. *)
Lemma save_image_analysis_body_holds uuid4 user pid iid analysis d items row p :
  deselections analysis = Some items -> Forall storable items ->
  project_images d !! iid = Some row -> project_id row = pid ->
  projects d !! pid = Some p -> user_id p = user ->
  exists row' d' n',
    save_image_analysis_body uuid4 user pid iid analysis
      {| view := d; budget := None; next_uuid := O |}
    = inr (row', {| view := d'; budget := None; next_uuid := n' |}).
Proof.
  intros Hitems Hst Hrow Hpid Hp Hu.
  unfold save_image_analysis_body. unfold tx_bind at 1.
  rewrite (select_image_owned user pid iid d O row p Hrow Hpid Hp Hu).
  rewrite Hitems.
  unfold tx_bind at 1. unfold update_image, tx_bind at 1.
  unfold round_trip at 1. cbn [view budget next_uuid].
  unfold tx_bind at 1. unfold read_view at 1. unfold write_view at 1.
  cbn [view budget next_uuid].
  unfold tx_bind at 1. unfold tx_bind at 1.
  unfold delete_deselections, tx_bind at 1.
  unfold round_trip at 1. cbn [view budget next_uuid].
  unfold tx_bind at 1. unfold read_view at 1. unfold write_view at 1.
  cbn [view budget next_uuid].
  match goal with
  | |- context [insert_all uuid4 iid items
                  {| view := ?d1; budget := None; next_uuid := ?n1 |}] =>
      destruct (insert_all_holds uuid4 iid items d1 n1 Hst) as (d' & n' & Hins)
  end.
  rewrite Hins. unfold tx_ret. by eexists _, _, _.
Qed.

(** C9. When the request carries a deselection list, the committed
    deselections of the image are, whatever fails and wherever, either
    all as they were before the request (together with the rest of the
    database) or exactly the new list, the rows of other images being
    kept; when the request succeeds they are the new list; and they
    are replaced by the new list whenever the connection holds, the
    image is the caller's, the server stores every row of the list and
    the analysis figures sent along are finite. *)
Theorem deselections_replaced_atomically
    (uuid4 : nat -> uuid) (conn : option nat) (d : database)
    (user pid iid : uuid) (analysis : image_analysis_update)
    (items : list deselect_item) :
  deselections analysis = Some items ->
  let result := save_image_analysis uuid4 conn d user pid iid analysis in
  (result.2 = d
   \/ (item <$> rows_of iid result.2 = items
       /\ forall other, other <> iid -> rows_of other result.2 = rows_of other d))
  /\ (forall row, result.1 = inr row -> item <$> rows_of iid result.2 = items)
  /\ ((exists row p, project_images d !! iid = Some row /\ project_id row = pid
                      /\ projects d !! pid = Some p /\ user_id p = user) ->
      Forall storable items -> finite_fields analysis ->
      let held := save_image_analysis uuid4 None d user pid iid analysis in
      item <$> rows_of iid held.2 = items
      /\ forall other, other <> iid -> rows_of other held.2 = rows_of other d).
Proof.
  intros Hitems result.
  assert (Hview : forall conn row s,
            save_image_analysis_body uuid4 user pid iid analysis
              {| view := d; budget := conn; next_uuid := O |} = inr (row, s) ->
            item <$> rows_of iid (view s) = items
            /\ forall other, other <> iid ->
                 rows_of other (view s) = rows_of other d).
  { intros conn' row s Hbody.
    apply save_image_analysis_body_view in Hbody as (db_image & _ & _ & Hv).
    rewrite Hitems in Hv. simpl in Hv. unfold rows_of. rewrite Hv. simpl. split.
    - rewrite filter_rows_replaced by apply new_rows_image.
      apply new_rows_items.
    - intros other Hne. apply filter_rows_other; [done|apply new_rows_image]. }
  split; [|split].
  - destruct (in_session_outcome conn d
                (save_image_analysis_body uuid4 user pid iid analysis))
      as [[f Hf]|(row & s & r & Hbody & Hrun & _)].
    + left. unfold result, save_image_analysis. by rewrite Hf.
    + right. unfold result, save_image_analysis. rewrite Hrun. simpl.
      by apply (Hview conn row s).
  - intros row Hrow.
    destruct (in_session_success conn d
                (save_image_analysis_body uuid4 user pid iid analysis)
                row result.2) as (s & Hbody & ->).
    { unfold result in *. unfold save_image_analysis in *.
      destruct (in_session _ _ _) as [r d']. simpl in *. by subst. }
    by apply (Hview conn row s).
  - intros (row & p & Hrow & Hpid & Hp & Hu) Hst _ held.
    destruct (save_image_analysis_body_holds uuid4 user pid iid analysis d items
                row p Hitems Hst Hrow Hpid Hp Hu) as (row' & d' & n' & Hbody).
    destruct (Hview _ _ _ Hbody) as [Hnew Hother]. cbn [view] in Hnew, Hother.
    assert (Hrun : held = (inr row', d')).
    { unfold held, save_image_analysis, in_session. rewrite Hbody.
      unfold round_trip. cbn [view budget next_uuid]. done. }
    rewrite Hrun. cbn [fst snd]. by split.
Qed.

Lemma rect_and_circle_storable : Forall storable [rect_item; circle_item].
Proof.
  repeat constructor; cbn; rewrite ?elem_of_cons; auto.
Qed.

Lemma analysis_of_finite items : finite_fields (analysis_of items).
Proof.
  intros field x Hx. cbn in Hx.
  apply lookup_singleton_Some in Hx as [_ [= <-]]. reflexivity.
Qed.

Lemma deselections_replaced_atomically_witness :
  let result :=
    save_image_analysis uuids None database1 "u" "p" "a"
      (analysis_of (Some [rect_item; circle_item])) in
  item <$> rows_of "a" result.2 = [rect_item; circle_item]
  /\ forall other, other <> "a" -> rows_of other result.2 = rows_of other database1.
Proof.
  apply (proj2 (proj2 (deselections_replaced_atomically uuids None database1
                         "u" "p" "a" (analysis_of (Some [rect_item; circle_item]))
                         [rect_item; circle_item] eq_refl))).
  - exists (with_columns image_row0
              (<["usable_area" := VFloat (of_Z 7)]> (columns image_row0))), project0.
    split; [apply lookup_insert_eq|]. split; [reflexivity|].
    split; [apply lookup_singleton_eq|reflexivity].
  - exact rect_and_circle_storable.
  - apply analysis_of_finite.
Defined.

(** C10. Whatever the outcome of the request, an analysis field that
    is null in it keeps its stored value on the image record, and when
    the deselections field is null every deselection row is kept. *)
Theorem null_fields_are_kept
    (uuid4 : nat -> uuid) (conn : option nat) (d : database)
    (user pid iid : uuid) (analysis : image_analysis_update) :
  let result := save_image_analysis uuid4 conn d user pid iid analysis in
  (forall field,
     analysis_fields analysis !! field = None ->
     (project_images result.2 !! iid ≫= fun row => columns row !! field)
     = (project_images d !! iid ≫= fun row => columns row !! field))
  /\ (deselections analysis = None ->
      image_deselections result.2 = image_deselections d).
Proof.
  intros result.
  destruct (in_session_outcome conn d
              (save_image_analysis_body uuid4 user pid iid analysis))
    as [[f Hf]|(row & s & r & Hbody & Hrun & _)].
  - unfold result, save_image_analysis. rewrite Hf. by split.
  - unfold result, save_image_analysis. rewrite Hrun. simpl.
    apply save_image_analysis_body_view in Hbody as (db_image & Himg & Hrow & Hv).
    simpl in Himg, Hv. rewrite Hv. simpl. split.
    + intros field Hnone. rewrite lookup_insert_eq, Himg. simpl.
      rewrite Hrow. simpl. by apply assign_fields_None.
    + by intros ->.
Qed.

(** A request that sets one field and sends no deselections: the
    stored usable area and the three rows stay. *)
Example null_usable_area_is_kept :
  let result :=
    save_image_analysis uuids None database1 "u" "p" "a" (analysis_of None) in
  (project_images result.2 !! "a" ≫= fun row => columns row !! "usable_area")
    = Some (VFloat (of_Z 7))
  /\ (project_images result.2 !! "a" ≫= fun row => columns row !! "deselect_area")
    = Some (VFloat (of_Z 13))
  /\ image_deselections result.2 = image_deselections database1.
Proof. vm_compute. repeat split; reflexivity. Qed.

End RoutesFacts.

(** ** The area summary *)

Module AreaAccountant.

Inductive warning :=
| NegativeUsableAreaClamped.

Inductive error :=
| ValidationError (reason : string).

Record area_summary := {
  deselect_area : Q;
  effective_deselect_area : Q;
  usable_area : Q;
  warnings : list warning
}.

Definition sum_areas (item_areas : list Q) : Q :=
  foldr Qplus 0%Q item_areas.

(** Modelled from the spec: the summary arithmetic of the
    AreaAccountant (section 4.4).  No function of the sources computes
    these figures -- [save_image_analysis] stores the ones the client
    sends -- so the definition follows the specification: lengths that
    are not positive are a validation error; [deselect_area] is the sum
    of the item areas; [effective_deselect_area] equals it;
    [usable_area] is the real area less the effective deselected area,
    a negative difference being replaced by zero and recorded as a
    warning next to the result. *)
Definition summarize (real_width real_height : Q) (item_areas : list Q)
  : error + area_summary :=
  if negb (Qle_bool real_width 0) && negb (Qle_bool real_height 0) then
    let deselect := sum_areas item_areas in
    let effective := deselect in
    let raw := (real_width * real_height - effective)%Q in
    if Qle_bool 0 raw
    then inr {| deselect_area := deselect; effective_deselect_area := effective;
                usable_area := raw; warnings := [] |}
    else inr {| deselect_area := deselect; effective_deselect_area := effective;
                usable_area := 0; warnings := [NegativeUsableAreaClamped] |}
  else inl (ValidationError "non-positive length").

Lemma Qle_bool_false (x y : Q) : Qle_bool x y = false -> (y < x)%Q.
Proof.
  intros Hb. apply Qnot_le_lt. intros Hle.
  apply Qle_bool_iff in Hle. congruence.
Qed.

(** C8. For positive real dimensions the summary is produced, never an
    error, and its usable area is max(0, real_width * real_height -
    effective_deselect_area): a negative difference gives zero together
    with a warning, any other difference is reported as it is, without
    one. *)
Theorem usable_area_is_clamped (real_width real_height : Q) (item_areas : list Q) :
  (0 < real_width)%Q -> (0 < real_height)%Q ->
  exists summary,
    summarize real_width real_height item_areas = inr summary
    /\ (usable_area summary ==
        Qmax 0 (real_width * real_height - effective_deselect_area summary))%Q
    /\ ((real_width * real_height - effective_deselect_area summary < 0)%Q ->
        (usable_area summary == 0)%Q
        /\ warnings summary = [NegativeUsableAreaClamped])
    /\ ((0 <= real_width * real_height - effective_deselect_area summary)%Q ->
        warnings summary = []).
Proof.
  intros Hw Hh. unfold summarize.
  assert (Hbw : Qle_bool real_width 0 = false).
  { destruct (Qle_bool real_width 0) eqn:Hb; [|done].
    apply Qle_bool_iff in Hb. exfalso. by apply (Qlt_not_le _ _ Hw). }
  assert (Hbh : Qle_bool real_height 0 = false).
  { destruct (Qle_bool real_height 0) eqn:Hb; [|done].
    apply Qle_bool_iff in Hb. exfalso. by apply (Qlt_not_le _ _ Hh). }
  rewrite Hbw, Hbh. simpl.
  destruct (Qle_bool 0 (real_width * real_height - sum_areas item_areas))
    eqn:Hraw; eexists; (split; [reflexivity|]); simpl.
  - apply Qle_bool_iff in Hraw. split; [|split].
    + symmetry. by apply Q.max_r.
    + intros Hneg. exfalso. by apply (Qlt_not_le _ _ Hneg).
    + done.
  - apply Qle_bool_false in Hraw. split; [|split].
    + symmetry. apply Q.max_l. by apply Qlt_le_weak.
    + intros _. split; [reflexivity|done].
    + intros Hpos. exfalso. by apply (Qlt_not_le _ _ Hraw).
Qed.

Lemma usable_area_is_clamped_witness :
  exists summary,
    summarize 4 3 [15%Q] = inr summary
    /\ (usable_area summary == Qmax 0 (4 * 3 - effective_deselect_area summary))%Q
    /\ ((4 * 3 - effective_deselect_area summary < 0)%Q ->
        (usable_area summary == 0)%Q
        /\ warnings summary = [NegativeUsableAreaClamped])
    /\ ((0 <= 4 * 3 - effective_deselect_area summary)%Q ->
        warnings summary = []).
Proof.
  apply (usable_area_is_clamped 4 3 [15%Q]); reflexivity.
Defined.

(** The example of the specification: 4 m x 3 m with 15 m2 deselected. *)
Example usable_area_4_3_15 :
  summarize 4 3 [15%Q]
  = inr {| deselect_area := 15 + 0; effective_deselect_area := 15 + 0;
           usable_area := 0; warnings := [NegativeUsableAreaClamped] |}.
Proof. reflexivity. Qed.

End AreaAccountant.

(** * Further properties of the sources

    ** The fuzzy-select tool: edge behaviour of a click *)

Module FloodFillMore.
Import FloodFill.

(** X1. A left click inside the image with a non-negative tolerance
    always selects the clicked pixel itself. *)
Theorem click_selects_seed (g : globals) (h w : nat) (x y : Z) :
  has_shape h w (img g) ->
  0 <= x < Z.of_nat w -> 0 <= y < Z.of_nat h -> 0 <= TOLERANCE g ->
  exists cm,
    on_mouse_click g EVENT_LBUTTONDOWN x y
      = inr {| TOLERANCE := TOLERANCE g; img := img g; current_mask := Some cm |}
    /\ get2 cm (Z.to_nat y) (Z.to_nat x) = Some 255.
Proof.
  intros Hshape Hx Hy Ht.
  destruct (click_spec g h w x y Hshape Hx Hy Ht)
    as (cm & seedv & Hrun & Hseed & Hcm & Hreg).
  exists cm. split; [done|].
  apply (Hreg (Z.to_nat y) (Z.to_nat x)); [lia..|].
  eapply connected_seed; [exact Hseed|].
  apply in_range_refl; unfold diff_of, saturate_u8; simpl; lia.
Qed.

Lemma click_selects_seed_witness :
  exists cm,
    on_mouse_click (start test_img) EVENT_LBUTTONDOWN 1 2
      = inr {| TOLERANCE := 50; img := test_img; current_mask := Some cm |}
    /\ get2 cm (Z.to_nat 2) (Z.to_nat 1) = Some 255.
Proof.
  apply (click_selects_seed (start test_img) 3 3 1 2);
    [exact test_img_shape | simpl; lia..].
Defined.

Lemma shape_bounds {A} (g : list (list A)) (h w h' w' : nat) :
  has_shape h w g -> shape g = (h', w') -> h' = h /\ (w' = w \/ h = O).
Proof.
  unfold has_shape, shape. intros [Hlen Hrows] Hs.
  destruct g as [|row g']; simpl in *; simplify_eq.
  - split; [done|by right].
  - split; [done|]. left. by inversion Hrows.
Qed.

(** X2. A left click whose point lies outside the image is refused:
    the fill raises and no mask is produced. *)
Theorem click_outside_image_is_refused (g : globals) (h w : nat) (x y : Z) :
  has_shape h w (img g) -> 0 <= TOLERANCE g ->
  ~ (0 <= x < Z.of_nat w /\ 0 <= y < Z.of_nat h) ->
  on_mouse_click g EVENT_LBUTTONDOWN x y = inl SeedOutOfRange.
Proof.
  intros Hshape Ht Hout. unfold on_mouse_click. rewrite Z.eqb_refl.
  unfold floodFill.
  destruct (shape (img g)) as [h' w'] eqn:Hs.
  destruct (shape_bounds _ _ _ _ _ Hshape Hs) as [-> Hw'].
  fold click_flags.
  change (Z.land click_flags 255) with 4.
  change (Z.testbit click_flags 16) with true.
  change (Z.testbit click_flags 17) with true.
  cbn [Z.eqb negb orb andb].
  replace (TOLERANCE g <? 0) with false by (symmetry; apply Z.ltb_ge; lia).
  cbn [orb].
  replace ((0 <=? x) && (x <? Z.of_nat w') && (0 <=? y) && (y <? Z.of_nat h))
    with false; [done|].
  symmetry. apply not_true_is_false. intros Hb.
  apply andb_prop in Hb as [Hb Hy2]. apply andb_prop in Hb as [Hb Hy1].
  apply andb_prop in Hb as [Hx1 Hx2].
  apply Z.leb_le in Hx1, Hy1. apply Z.ltb_lt in Hx2, Hy2.
  apply Hout. destruct Hw' as [->| ->]; lia.
Qed.

Lemma click_outside_image_is_refused_witness :
  on_mouse_click (start test_img) EVENT_LBUTTONDOWN (-1) 2 = inl SeedOutOfRange.
Proof.
  apply (click_outside_image_is_refused (start test_img) 3 3 (-1) 2);
    [exact test_img_shape | simpl; lia | lia].
Defined.

(** X3. With a negative tolerance every left click is refused, also
    one inside the image: the fill raises on the negative differences. *)
Theorem negative_tolerance_is_refused (g : globals) (h w : nat) (x y : Z) :
  has_shape h w (img g) ->
  0 <= x < Z.of_nat w -> 0 <= y < Z.of_nat h -> TOLERANCE g < 0 ->
  on_mouse_click g EVENT_LBUTTONDOWN x y = inl BadDiff.
Proof.
  intros Hshape Hx Hy Ht. unfold on_mouse_click. rewrite Z.eqb_refl.
  rewrite (shape_has_shape (img g) h w Hshape) by lia.
  unfold floodFill.
  rewrite (shape_has_shape (img g) h w Hshape) by lia.
  fold click_flags.
  change (Z.land click_flags 255) with 4.
  change (Z.testbit click_flags 16) with true.
  change (Z.testbit click_flags 17) with true.
  cbn [Z.eqb negb orb andb].
  replace (TOLERANCE g <? 0) with true by (symmetry; apply Z.ltb_lt; lia).
  done.
Qed.

Lemma negative_tolerance_is_refused_witness :
  on_mouse_click {| TOLERANCE := -1; img := test_img; current_mask := None |}
    EVENT_LBUTTONDOWN 0 0 = inl BadDiff.
Proof.
  apply (negative_tolerance_is_refused
           {| TOLERANCE := -1; img := test_img; current_mask := None |} 3 3 0 0);
    [exact test_img_shape | simpl; lia..].
Defined.

(** *** A tolerance that covers the whole channel range *)

(** The channels of a decoded picture are bytes. *)
Definition uint8_pixel (v : pixel) : Prop :=
  0 <= v.1.1 <= 255 /\ 0 <= v.1.2 <= 255 /\ 0 <= v.2 <= 255.

Definition uint8_image (i : image) : Prop := Forall (Forall uint8_pixel) i.

Lemma uint8_get2 (i : image) (r c : nat) (v : pixel) :
  uint8_image i -> get2 i r c = Some v -> uint8_pixel v.
Proof.
  unfold uint8_image, get2. intros Hi Hv.
  destruct (i !! r) as [row|] eqn:Hrow; [|discriminate].
  pose proof (proj1 (Forall_lookup _ _) Hi _ _ Hrow) as Hr.
  exact (proj1 (Forall_lookup _ _) Hr _ _ Hv).
Qed.

Lemma within_255 (t : Z) (seedv v : pixel) :
  255 <= t -> uint8_pixel seedv -> uint8_pixel v -> within t seedv v.
Proof.
  unfold within, diff_of, in_range, channel_in_range, uint8_pixel.
  destruct seedv as [[sb sg] sr], v as [[b g'] r]; simpl.
  intros Ht (? & ? & ?) (? & ? & ?).
  replace (saturate_u8 t) with 255 by (unfold saturate_u8; lia).
  rewrite !andb_true_iff, !Z.leb_le. lia.
Qed.

Section GridConnected.
Variables (h w : nat) (i : image) (ok : pixel -> Prop) (seed : nat * nat).
Hypothesis i_shape : has_shape h w i.
Hypothesis all_ok : forall r c v, get2 i r c = Some v -> ok v.

Lemma connected_next (p q : nat * nat) :
  connected i ok seed p -> adjacent4 p q ->
  (q.1 < h)%nat -> (q.2 < w)%nat -> connected i ok seed q.
Proof.
  intros Hp Hadj Hr Hc.
  destruct (get2_is_Some i h w q.1 q.2 i_shape Hr Hc) as [v Hv].
  eapply connected_step; [exact Hp | exact Hadj | exact Hv | by eapply all_ok].
Qed.

Lemma connected_rows_down (a c0 n : nat) :
  connected i ok seed (a, c0) -> (a + n < h)%nat -> (c0 < w)%nat ->
  connected i ok seed ((a + n)%nat, c0).
Proof.
  intros Ha Hn Hc. induction n as [|n IH].
  - by rewrite Nat.add_0_r.
  - apply (connected_next ((a + n)%nat, c0)); [apply IH; lia | | simpl; lia..].
    right. simpl. split; [done|]. left. lia.
Qed.

Lemma connected_rows_up (a c0 n : nat) :
  connected i ok seed ((a + n)%nat, c0) -> (a + n < h)%nat -> (c0 < w)%nat ->
  connected i ok seed (a, c0).
Proof.
  revert a. induction n as [|n IH]; intros a Ha Hn Hc.
  - by rewrite Nat.add_0_r in Ha.
  - apply (IH a); [|lia|done].
    apply (connected_next ((a + S n)%nat, c0)); [done| |simpl; lia..].
    right. simpl. split; [done|]. right. lia.
Qed.

Lemma connected_columns_right (r0 b n : nat) :
  connected i ok seed (r0, b) -> (r0 < h)%nat -> (b + n < w)%nat ->
  connected i ok seed (r0, (b + n)%nat).
Proof.
  intros Hb Hr Hn. induction n as [|n IH].
  - by rewrite Nat.add_0_r.
  - apply (connected_next (r0, (b + n)%nat)); [apply IH; lia | | simpl; lia..].
    left. simpl. split; [done|]. left. lia.
Qed.

Lemma connected_columns_left (r0 b n : nat) :
  connected i ok seed (r0, (b + n)%nat) -> (r0 < h)%nat -> (b + n < w)%nat ->
  connected i ok seed (r0, b).
Proof.
  revert b. induction n as [|n IH]; intros b Hb Hr Hn.
  - by rewrite Nat.add_0_r in Hb.
  - apply (IH b); [|done|lia].
    apply (connected_next (r0, (b + S n)%nat)); [done| |simpl; lia..].
    left. simpl. split; [done|]. right. lia.
Qed.

(** In a picture all of whose pixels are accepted, every pixel is
    joined to the seed. *)
Lemma grid_connected (r c : nat) :
  (seed.1 < h)%nat -> (seed.2 < w)%nat -> (r < h)%nat -> (c < w)%nat ->
  connected i ok seed (r, c).
Proof.
  intros Hsr Hsc Hr Hc.
  destruct (get2_is_Some i h w seed.1 seed.2 i_shape Hsr Hsc) as [v Hv].
  assert (H0 : connected i ok seed (seed.1, seed.2)).
  { rewrite <- surjective_pairing.
    eapply connected_seed; [exact Hv | by eapply all_ok]. }
  apply (connected_columns_right r O c); [|done|simpl; lia].
  apply (connected_columns_left r O seed.2); [|done|simpl; lia].
  apply (connected_rows_down O seed.2 r); [|simpl; lia|done].
  apply (connected_rows_up O seed.2 seed.1); [|simpl; lia|done].
  exact H0.
Qed.
End GridConnected.

(** X4. On a picture with byte channels a tolerance of 255 or more
    selects every pixel of the image, wherever the click falls. *)
Theorem full_tolerance_selects_everything (g : globals) (h w : nat) (x y : Z) :
  has_shape h w (img g) -> uint8_image (img g) ->
  0 <= x < Z.of_nat w -> 0 <= y < Z.of_nat h -> 255 <= TOLERANCE g ->
  exists cm,
    on_mouse_click g EVENT_LBUTTONDOWN x y
      = inr {| TOLERANCE := TOLERANCE g; img := img g; current_mask := Some cm |}
    /\ forall r c, (r < h)%nat -> (c < w)%nat -> get2 cm r c = Some 255.
Proof.
  intros Hshape Hu8 Hx Hy Ht.
  destruct (click_spec g h w x y Hshape Hx Hy) as (cm & seedv & Hrun & Hseed & Hcm & Hreg);
    [lia|].
  exists cm. split; [done|]. intros r c Hr Hc.
  apply (Hreg r c Hr Hc).
  apply (grid_connected h w (img g) _ (Z.to_nat y, Z.to_nat x) Hshape);
    [|simpl; lia..].
  intros r' c' v Hv. apply within_255; [done| |].
  - by eapply uint8_get2.
  - by eapply uint8_get2.
Qed.

Lemma test_img_uint8 : uint8_image test_img.
Proof. repeat constructor; simpl; lia. Qed.

Lemma full_tolerance_selects_everything_witness :
  exists cm,
    on_mouse_click {| TOLERANCE := 255; img := test_img; current_mask := None |}
        EVENT_LBUTTONDOWN 1 1
      = inr {| TOLERANCE := 255; img := test_img; current_mask := Some cm |}
    /\ forall r c, (r < 3)%nat -> (c < 3)%nat -> get2 cm r c = Some 255.
Proof.
  apply (full_tolerance_selects_everything
           {| TOLERANCE := 255; img := test_img; current_mask := None |} 3 3 1 1);
    [exact test_img_shape | exact test_img_uint8 | simpl; lia..].
Defined.

Lemma connected_ok (i : image) (ok : pixel -> Prop) (seed q : nat * nat) :
  connected i ok seed q -> exists v, get2 i q.1 q.2 = Some v /\ ok v.
Proof. destruct 1; eauto. Qed.

(** X5. No colour bleed: every pixel a click selects differs from the
    clicked pixel's colour by at most the tolerance on each channel. *)
Theorem selected_pixels_are_similar (g : globals) (h w : nat) (x y : Z) :
  has_shape h w (img g) ->
  0 <= x < Z.of_nat w -> 0 <= y < Z.of_nat h -> 0 <= TOLERANCE g <= 255 ->
  exists cm seedv,
    on_mouse_click g EVENT_LBUTTONDOWN x y
      = inr {| TOLERANCE := TOLERANCE g; img := img g; current_mask := Some cm |}
    /\ get2 (img g) (Z.to_nat y) (Z.to_nat x) = Some seedv
    /\ forall r c, get2 cm r c = Some 255 ->
         exists v, get2 (img g) r c = Some v /\ similar (TOLERANCE g) seedv v.
Proof.
  intros Hshape Hx Hy Ht.
  destruct (click_spec g h w x y Hshape Hx Hy) as (cm & seedv & Hrun & Hseed & Hcm & Hreg);
    [lia|].
  exists cm, seedv. split; [done|]. split; [done|]. intros r c Hm.
  destruct (get2_lt cm h w r c Hcm) as [Hr Hc]; [by eexists|].
  apply (Hreg r c Hr Hc) in Hm.
  apply connected_ok in Hm as (v & Hv & Hok).
  exists v. split; [done|]. by apply within_similar.
Qed.

Lemma selected_pixels_are_similar_witness :
  exists cm seedv,
    on_mouse_click (start test_img) EVENT_LBUTTONDOWN 0 0
      = inr {| TOLERANCE := 50; img := test_img; current_mask := Some cm |}
    /\ get2 test_img (Z.to_nat 0) (Z.to_nat 0) = Some seedv
    /\ forall r c, get2 cm r c = Some 255 ->
         exists v, get2 test_img r c = Some v /\ similar 50 seedv v.
Proof.
  apply (selected_pixels_are_similar (start test_img) 3 3 0 0);
    [exact test_img_shape | simpl; lia..].
Defined.

(** *** save_selection (floodfill-03.py 42-61)

    The picture is split into its B, G and R planes, the mask of the
    last click is added as the alpha plane, and the four planes are
    merged and written to "selection_cutout.png" (PNG keeps the pixel
    values).  [cv2.merge] raises when the planes differ in size. *)

Abbreviation bgra := (Z * Z * Z * Z)%type.

Inductive merge_error := PlaneSizeMismatch.

(** One channel of a picture. *)
Definition plane (f : pixel -> Z) (i : image) : mask :=
  (fun row : list pixel => f <$> row) <$> i.

(** [cv2.split] *)
Definition split (i : image) : mask * mask * mask :=
  (plane (fun v => v.1.1) i, plane (fun v => v.1.2) i, plane (fun v => v.2) i).

Definition merge_row (b g r a : list Z) : list bgra :=
  zip_with (fun (bg : Z * Z) (ra : Z * Z) => (bg.1, bg.2, ra.1, ra.2))
           (zip b g) (zip r a).

(** [cv2.merge] of four planes *)
Definition merge (b g r a : mask) : merge_error + list (list bgra) :=
  if bool_decide (shape g = shape b) && bool_decide (shape r = shape b)
     && bool_decide (shape a = shape b)
  then inr (zip_with (fun (bg : list Z * list Z) (ra : list Z * list Z) =>
                        merge_row bg.1 bg.2 ra.1 ra.2)
                     (zip b g) (zip r a))
  else inl PlaneSizeMismatch.

(** The files written and the lines printed by the tool. *)
Record outside := {
  written : gmap string (list (list bgra));
  printed : list string
}.

Definition save_selection (g : globals) (o : outside) : merge_error + outside :=
  match current_mask g with
  | None =>
      inr {| written := written o;
             printed := printed o
                          ++ ["No selection made yet! Click on the image first."] |}
  | Some alpha =>
      let '(b, g_, r) := split (img g) in
      match merge b g_ r alpha with
      | inl e => inl e
      | inr four_channel_img =>
          let filename := "selection_cutout.png" in
          inr {| written := <[filename := four_channel_img]> (written o);
                 printed := printed o ++ ["Saved cutout to: " +:+ filename] |}
      end
  end.

Lemma shape_plane (f : pixel -> Z) (i : image) : shape (plane f i) = shape i.
Proof.
  unfold shape, plane. rewrite length_fmap. destruct i as [|row i']; simpl; [done|].
  by rewrite length_fmap.
Qed.

Lemma lookup_plane (f : pixel -> Z) (i : image) (r : nat) :
  plane f i !! r = (fun row : list pixel => f <$> row) <$> (i !! r).
Proof. unfold plane. apply list_lookup_fmap. Qed.

Lemma has_shape_merge (h w : nat) (i : image) (alpha : mask) :
  has_shape h w i -> has_shape h w alpha ->
  exists cut,
    (let '(b, g, r) := split i in merge b g r alpha) = inr cut
    /\ has_shape h w cut
    /\ forall r c v a, get2 i r c = Some v -> get2 alpha r c = Some a ->
         get2 cut r c = Some (v.1.1, v.1.2, v.2, a).
Proof.
  intros Hi Ha. unfold split, merge. rewrite !shape_plane.
  assert (Hsh : shape alpha = shape i).
  { destruct h as [|h'].
    - destruct Hi as [Hli _], Ha as [Hla _].
      destruct i; [|discriminate]. by destruct alpha.
    - rewrite (shape_has_shape alpha (S h') w Ha) by lia.
      by rewrite (shape_has_shape i (S h') w Hi) by lia. }
  rewrite Hsh, !bool_decide_eq_true_2 by done. simpl.
  eexists. split; [reflexivity|]. destruct Hi as [Hli Hri], Ha as [Hla Hra].
  assert (Hrow : forall k irow arow, i !! k = Some irow -> alpha !! k = Some arow ->
            zip_with (fun (bg : list Z * list Z) (ra : list Z * list Z) =>
                        merge_row bg.1 bg.2 ra.1 ra.2)
              (zip (plane (fun v => v.1.1) i) (plane (fun v => v.1.2) i))
              (zip (plane (fun v => v.2) i) alpha) !! k
            = Some (merge_row ((fun v : pixel => v.1.1) <$> irow)
                              ((fun v : pixel => v.1.2) <$> irow)
                              ((fun v : pixel => v.2) <$> irow) arow)).
  { intros k irow arow Hik Hak.
    apply lookup_zip_with_Some.
    exists ((fun v : pixel => v.1.1) <$> irow, (fun v : pixel => v.1.2) <$> irow),
           ((fun v : pixel => v.2) <$> irow, arow).
    split; [done|]. split.
    - apply lookup_zip_with_Some. eexists _, _. split; [reflexivity|].
      rewrite !lookup_plane, Hik. done.
    - apply lookup_zip_with_Some. eexists _, _. split; [reflexivity|].
      rewrite lookup_plane, Hik. done. }
  split; [split|].
  - rewrite length_zip_with, !length_zip. unfold plane. rewrite !length_fmap. lia.
  - apply Forall_lookup. intros k row Hk.
    destruct (lookup_lt_is_Some_2 i k) as [irow Hik].
    { apply lookup_lt_Some in Hk.
      rewrite length_zip_with, !length_zip in Hk. unfold plane in Hk.
      rewrite !length_fmap in Hk. lia. }
    destruct (lookup_lt_is_Some_2 alpha k) as [arow Hak].
    { apply lookup_lt_Some in Hik. lia. }
    rewrite (Hrow k irow arow Hik Hak) in Hk. injection Hk as <-.
    pose proof (proj1 (Forall_lookup _ _) Hri _ _ Hik) as Hlen1.
    pose proof (proj1 (Forall_lookup _ _) Hra _ _ Hak) as Hlen2.
    simpl in *. unfold merge_row.
    rewrite length_zip_with, !length_zip, !length_fmap. lia.
  - intros r c v a Hv Hal. unfold get2 in *.
    destruct (i !! r) as [irow|] eqn:Hir; [|discriminate].
    destruct (alpha !! r) as [arow|] eqn:Har; [|discriminate].
    rewrite (Hrow r irow arow Hir Har). unfold merge_row.
    apply lookup_zip_with_Some. exists (v.1.1, v.1.2), (v.2, a).
    split; [done|]. split.
    + apply lookup_zip_with_Some. eexists _, _. split; [reflexivity|].
      rewrite !list_lookup_fmap, Hv. done.
    + apply lookup_zip_with_Some. eexists _, _. split; [reflexivity|].
      rewrite list_lookup_fmap, Hv. done.
Qed.

(** X6. Saving after a click inside the image never fails: it writes
    "selection_cutout.png", a four-channel picture of the image's size
    in which every pixel keeps its B, G and R values and has the value
    of the click's mask (255 on the selection, 0 elsewhere) as alpha. *)
Theorem save_selection_after_click (g : globals) (o : outside)
    (h w : nat) (x y : Z) :
  has_shape h w (img g) ->
  0 <= x < Z.of_nat w -> 0 <= y < Z.of_nat h -> 0 <= TOLERANCE g ->
  exists g' cm cut,
    on_mouse_click g EVENT_LBUTTONDOWN x y = inr g'
    /\ current_mask g' = Some cm
    /\ save_selection g' o
       = inr {| written := <["selection_cutout.png" := cut]> (written o);
                printed := printed o ++ ["Saved cutout to: selection_cutout.png"] |}
    /\ has_shape h w cut
    /\ forall r c v a, get2 (img g) r c = Some v -> get2 cm r c = Some a ->
         get2 cut r c = Some (v.1.1, v.1.2, v.2, a) /\ (a = 255 \/ a = 0).
Proof.
  intros Hshape Hx Hy Ht.
  destruct (click_spec g h w x y Hshape Hx Hy Ht)
    as (cm & seedv & Hrun & Hseed & Hcm & Hreg).
  destruct (has_shape_merge h w (img g) cm Hshape Hcm) as (cut & Hmerge & Hcut & Hpix).
  eexists _, cm, cut. split; [exact Hrun|]. split; [done|].
  split; [|split; [done|]].
  - unfold save_selection. cbn [current_mask img].
    revert Hmerge. destruct (split (img g)) as [[b g_] r]. by intros ->.
  - intros r c v a Hv Ha. split; [by apply Hpix|].
    destruct (get2_lt cm h w r c Hcm) as [Hr Hc]; [by eexists|].
    destruct (Hreg r c Hr Hc) as [_ [H255|H0]]; [left|right]; congruence.
Qed.

Lemma save_selection_after_click_witness :
  exists g' cm cut,
    on_mouse_click (start test_img) EVENT_LBUTTONDOWN 0 0 = inr g'
    /\ current_mask g' = Some cm
    /\ save_selection g' {| written := ∅; printed := [] |}
       = inr {| written := <["selection_cutout.png" := cut]> ∅;
                printed := [] ++ ["Saved cutout to: selection_cutout.png"] |}
    /\ has_shape 3 3 cut
    /\ forall r c v a, get2 test_img r c = Some v -> get2 cm r c = Some a ->
         get2 cut r c = Some (v.1.1, v.1.2, v.2, a) /\ (a = 255 \/ a = 0).
Proof.
  apply (save_selection_after_click (start test_img)
           {| written := ∅; printed := [] |} 3 3 0 0);
    [exact test_img_shape | simpl; lia..].
Defined.

(** Without a click nothing is written. *)
Example save_selection_without_click :
  save_selection (start test_img) {| written := ∅; printed := [] |}
  = inr {| written := ∅;
           printed := ["No selection made yet! Click on the image first."] |}.
Proof. reflexivity. Qed.

End FloodFillMore.

(** ** main.py: upload and transform *)

Module MainMore.
Import Main.

(** The decoder behind [cv2.imdecode] over the bytes of an uploaded
    file: [None] when the bytes are not a picture. *)
Class ImageCodec := {
  decode : string -> option image
}.

(** [cv2.imdecode(nparr, cv2.IMREAD_COLOR)]: the call raises on an
    empty buffer, and returns None for bytes it cannot decode. *)
Definition imdecode `{ImageCodec} (buf : string) : string + option image :=
  if (buf =? "")%string
  then inl "(-215:Assertion failed) !buf.empty() in function 'imdecode_'"%string
  else inr (decode buf).

(** The uploaded file as the handler sees it. *)
Record upload_file := {
  up_filename : string;
  content_type : option string;
  contents : string
}.

Record upload_response := {
  up_image_id : string;
  up_resp_filename : string;
  up_width : nat;
  up_height : nat;
  up_image_data : image
}.

Definition original_path (image_id : string) : string :=
  STORAGE_DIR +:+ "/" +:+ image_id +:+ "_original.jpg".

(** upload_image (main.py 47-110); [uuid4] is the identifier drawn for
    this request.  A file without a content type makes [startswith]
    raise, which the handler turns into a 500.  The entry of the store
    is assigned before the picture is written and encoded. *)
Definition upload_image `{ImageCodec} (uuid4 : string) (st : state)
    (file : upload_file) : (failure + upload_response) * state :=
  let error (msg : string) : failure :=
    HTTPException 500 ("Error processing image: " +:+ msg) in
  match content_type file with
  | None =>
      (inl (error "'NoneType' object has no attribute 'startswith'"), st)
  | Some ct =>
      if negb (String.prefix "image/" ct)
      then (inl (HTTPException 400 "File must be an image"), st)
      else
        match imdecode (contents file) with
        | inl msg => (inl (error msg), st)
        | inr None => (inl (HTTPException 400 "Invalid image file"), st)
        | inr (Some img) =>
            let image_id := uuid4 in
            let entry := {| original := img; filename := up_filename file;
                            transformed := None; dimensions := None |} in
            let image_store' := <[image_id := entry]> (image_store st) in
            match imwrite (original_path image_id) img (storage st) with
            | inl msg =>
                (inl (error msg),
                 {| image_store := image_store'; storage := storage st |})
            | inr storage' =>
                match imencode img with
                | inl msg =>
                    (inl (error msg),
                     {| image_store := image_store'; storage := storage' |})
                | inr buffer =>
                    (inr {| up_image_id := image_id;
                            up_resp_filename := up_filename file;
                            up_width := (shape img).2;
                            up_height := (shape img).1;
                            up_image_data := buffer |},
                     {| image_store := image_store'; storage := storage' |})
                end
            end
        end
  end.

(** A codec that reads every file as the same one-pixel picture, and
    one that reads none. *)
Definition codec_one_pixel : ImageCodec := {| decode := fun _ => Some one_pixel |}.
Definition codec_none : ImageCodec := {| decode := fun _ => None |}.

Definition jpeg_file : upload_file :=
  {| up_filename := "wall.jpg"; content_type := Some "image/jpeg";
     contents := "bytes" |}.

(** [imwrite] writes the named file or none. *)
Lemma imwrite_inr (path : string) (img : image) (fs fs' : gmap string image) :
  imwrite path img fs = inr fs' -> fs' = fs \/ fs' = <[path := img]> fs.
Proof.
  unfold imwrite. destruct (is_empty img); [discriminate|].
  destruct (jpeg_encodable img); intros [= <-]; auto.
Qed.

Lemma imwrite_other (path : string) (img : image) (fs fs' : gmap string image)
    (other : string) :
  imwrite path img fs = inr fs' -> other <> path -> fs' !! other = fs !! other.
Proof.
  intros Hw Hne. apply imwrite_inr in Hw as [->| ->]; [done|].
  by apply lookup_insert_ne.
Qed.

(** A picture that [imencode] encodes is one that [imwrite] writes. *)
Lemma imencode_inr (img buffer : image) :
  imencode img = inr buffer ->
  buffer = img
  /\ forall path fs, imwrite path img fs = inr (<[path := img]> fs).
Proof.
  unfold imencode, imwrite. destruct (is_empty img); [discriminate|].
  destruct (jpeg_encodable img); [|discriminate]. by intros [= <-].
Qed.

(** X7. The prototype assigns the store before it writes and encodes
    the picture, so an error answer is not always without effect.  What
    holds of every upload and every transform that is answered with an
    error: a 400 or a 404 leaves the image store and the files as they
    were; any error leaves the entries of all other images and all
    other files as they were; and a failed transform keeps the
    original picture and the file name of its image. *)
Theorem main_errors_keep_the_originals `{ImageCodec} `{OpenCV}
    (st : state) (uuid4 id : string) (file : upload_file) (form : transform_form) :
  (forall f st', upload_image uuid4 st file = (inl f, st') ->
     (forall code detail, f = HTTPException code detail -> code <> 500 -> st' = st)
     /\ (forall other, other <> uuid4 ->
           image_store st' !! other = image_store st !! other)
     /\ (forall path, path <> original_path uuid4 ->
           storage st' !! path = storage st !! path))
  /\ (forall f st', transform_image st id form = (inl f, st') ->
        (forall code detail, f = HTTPException code detail -> code <> 500 -> st' = st)
        /\ (forall other, other <> id ->
              image_store st' !! other = image_store st !! other)
        /\ original <$> image_store st' !! id = original <$> image_store st !! id
        /\ filename <$> image_store st' !! id = filename <$> image_store st !! id
        /\ (forall path, path <> transformed_path id ->
              storage st' !! path = storage st !! path)).
Proof.
  split; intros f st'.
  - unfold upload_image.
    destruct (content_type file) as [ct|]; [|by intros [= <- <-]].
    destruct (negb _); [by intros [= <- <-]|].
    destruct (imdecode _) as [msg|[img|]];
      [by intros [= <- <-] | | by intros [= <- <-]].
    destruct (imwrite _ _ _) as [msg|storage'] eqn:Hw.
    { intros [= <- <-]. cbn [image_store storage].
      split; [by intros code detail [= <- _]|].
      split; [|done]. intros other Hne. by apply lookup_insert_ne. }
    destruct (imencode img) as [msg|buffer]; [|discriminate].
    intros [= <- <-]. cbn [image_store storage].
    split; [by intros code detail [= <- _]|]. split.
    + intros other Hne. by apply lookup_insert_ne.
    + intros path Hne. by eapply imwrite_other.
  - unfold transform_image.
    destruct (image_store st !! id) as [entry|] eqn:Hentry;
      [|intros [= <- <-]; rewrite Hentry; by repeat split].
    destruct (corners form);
      [|intros [= <- <-]; rewrite Hentry; by repeat split].
    destruct (len _); [intros [= <- <-]; rewrite Hentry; by repeat split|].
    destruct (negb _); [intros [= <- <-]; rewrite Hentry; by repeat split|].
    destruct (corner_entries _ _);
      [intros [= <- <-]; rewrite Hentry; by repeat split|].
    destruct (np_float32 _); [intros [= <- <-]; rewrite Hentry; by repeat split|].
    destruct (output_dims _ _) as [e|[ow oh]];
      [intros [= <- <-]; rewrite Hentry; by repeat split|].
    destruct (perspective_transform _ _);
      [intros [= <- <-]; rewrite Hentry; by repeat split|].
    destruct (warpPerspective _ _ _) as [msg|canvas];
      [intros [= <- <-]; rewrite Hentry; by repeat split|].
    destruct (imwrite _ _ _) as [msg|storage'] eqn:Hw.
    { intros [= <- <-]. cbn [image_store storage].
      rewrite lookup_insert_eq.
      split; [by intros code detail [= <- _]|].
      split; [|done]. intros other Hne. by apply lookup_insert_ne. }
    destruct (imencode canvas) as [msg|buffer]; [|discriminate].
    intros [= <- <-]. cbn [image_store storage].
    rewrite lookup_insert_eq.
    split; [by intros code detail [= <- _]|]. split.
    + intros other Hne. by apply lookup_insert_ne.
    + split; [done|]. split; [done|].
      intros path Hne. by eapply imwrite_other.
Qed.

(** An upload whose declared content type does not start with
    "image/" is refused with a 400 whatever its bytes are, also when
    they would decode to a picture. *)
Theorem upload_refuses_other_content_types `{ImageCodec}
    (uuid4 : string) (st : state) (file : upload_file) (ct : string) :
  content_type file = Some ct -> String.prefix "image/" ct = false ->
  upload_image uuid4 st file
  = (inl (HTTPException 400 "File must be an image"), st).
Proof. intros Hct Hp. unfold upload_image. by rewrite Hct, Hp. Qed.

Lemma upload_refuses_other_content_types_witness :
  @upload_image codec_one_pixel "a" main_state0
     {| up_filename := "notes.txt"; content_type := Some "text/plain";
        contents := "bytes" |}
  = (inl (HTTPException 400 "File must be an image"), main_state0).
Proof.
  apply (@upload_refuses_other_content_types codec_one_pixel "a" main_state0
           _ "text/plain"); reflexivity.
Defined.

(** What an upload of a picture that JPEG holds stores and answers. *)
Lemma upload_image_runs `{ImageCodec} (uuid4 : string) (st : state)
    (file : upload_file) (ct : string) (img : image) :
  content_type file = Some ct -> String.prefix "image/" ct = true ->
  contents file <> ""%string -> decode (contents file) = Some img ->
  is_empty img = false -> jpeg_encodable img = true ->
  upload_image uuid4 st file
  = (inr {| up_image_id := uuid4;
            up_resp_filename := up_filename file;
            up_width := (shape img).2;
            up_height := (shape img).1;
            up_image_data := img |},
     {| image_store :=
          <[uuid4 := {| original := img; filename := up_filename file;
                        transformed := None; dimensions := None |}]>
            (image_store st);
        storage := <[original_path uuid4 := img]> (storage st) |}).
Proof.
  intros Hct Hp Hne Hdec Hemp Henc.
  unfold upload_image, imdecode, imwrite, imencode.
  rewrite Hct, Hp. apply String.eqb_neq in Hne. rewrite Hne, Hdec, Hemp, Henc.
  reflexivity.
Qed.

Lemma is_empty_false (img : image) :
  (0 < (shape img).1)%nat -> (0 < (shape img).2)%nat -> is_empty img = false.
Proof.
  unfold is_empty. destruct (shape img) as [[|r] [|c]]; simpl; intros; (done || lia).
Qed.

(** X8. Upload and transform compose: the identifier an upload
    answers with is known to the transform handler, which warps the
    uploaded picture itself.  For a non-empty file that decodes to a
    picture of at most 65500 pixels a side, four corner objects and a
    canvas of 1 to 65500 pixels in width that OpenCV resamples from the
    picture, both requests succeed and the transform answers with a
    canvas of [output_width] x 800 pixels. *)
Theorem upload_then_transform `{ImageCodec} `{OpenCV}
    (uuid4 : string) (st : state) (file : upload_file) (ct : string)
    (img : image) (cs : list point) (real_width real_height : float) (ow : Z) :
  content_type file = Some ct -> String.prefix "image/" ct = true ->
  contents file <> ""%string -> decode (contents file) = Some img ->
  (0 < (shape img).1)%nat -> (0 < (shape img).2)%nat ->
  jpeg_encodable img = true ->
  length cs = 4%nat ->
  output_dims real_width real_height = inr (ow, 800) ->
  0 < ow <= JPEG_MAX_DIMENSION ->
  warp_refuses img (ow, 800) = None ->
  exists up st1 resp st2,
    upload_image uuid4 st file = (inr up, st1)
    /\ (up_width up, up_height up) = ((shape img).2, (shape img).1)
    /\ transform_image st1 (up_image_id up) (form_of cs real_width real_height)
       = (inr resp, st2)
    /\ has_shape 800 (Z.to_nat ow) (transformed_image resp)
    /\ original <$> image_store st2 !! up_image_id up = Some img
    /\ transformed <$> image_store st2 !! up_image_id up
       = Some (Some (transformed_image resp)).
Proof.
  intros Hct Hp Hne Hdec Hr Hc Henc Hlen Hdims How Hok.
  rewrite (upload_image_runs uuid4 st file ct img Hct Hp Hne Hdec
             (is_empty_false img Hr Hc) Henc).
  eexists _, _.
  edestruct (main_transform_runs
               {| image_store :=
                    <[uuid4 := {| original := img; filename := up_filename file;
                                  transformed := None; dimensions := None |}]>
                      (image_store st);
                  storage := <[original_path uuid4 := img]> (storage st) |}
               uuid4 (form_of cs real_width real_height)
               {| original := img; filename := up_filename file;
                  transformed := None; dimensions := None |} cs ow)
    as (canvas & Hrun & Hshape);
    [apply lookup_insert_eq | exact Hr | exact Hc | reflexivity | exact Hlen
    | exact Hdims | exact How | exact Hok |].
  eexists _, _. split; [reflexivity|]. split; [reflexivity|].
  cbn [up_image_id]. split; [exact Hrun|].
  cbn [transformed_image image_store].
  split; [exact Hshape|]. by rewrite lookup_insert_eq.
Qed.

Lemma jpeg_file_not_empty : contents jpeg_file <> ""%string.
Proof. discriminate. Qed.

Lemma upload_then_transform_witness :
  exists up st1 resp st2,
    @upload_image codec_one_pixel "b" main_state0 jpeg_file = (inr up, st1)
    /\ (up_width up, up_height up) = ((shape one_pixel).2, (shape one_pixel).1)
    /\ @transform_image cv_blank st1 (up_image_id up)
         (form_of proper_quad (of_Z 2) (of_Z 1)) = (inr resp, st2)
    /\ has_shape 800 (Z.to_nat 1600) (transformed_image resp)
    /\ original <$> image_store st2 !! up_image_id up = Some one_pixel
    /\ transformed <$> image_store st2 !! up_image_id up
       = Some (Some (transformed_image resp)).
Proof.
  exact (@upload_then_transform codec_one_pixel cv_blank "b" main_state0 jpeg_file
           "image/jpeg" one_pixel proper_quad (of_Z 2) (of_Z 1) 1600
           eq_refl eq_refl jpeg_file_not_empty eq_refl
           one_pixel_rows one_pixel_columns eq_refl eq_refl
           dims_2_1 width_1600 eq_refl).
Defined.

(** What a successful transform returns and stores. *)
Lemma transform_image_inr `{OpenCV} (st : state) (id : string)
    (form : transform_form) (resp : transform_response) (st' : state) :
  transform_image st id form = (inr resp, st') ->
  exists entry corners_data entries src_points ow oh M,
    image_store st !! id = Some entry
    /\ corners form = Some corners_data /\ len corners_data = inr 4%nat
    /\ corner_entries corners_data [0; 1; 2; 3]%nat = inr entries
    /\ np_float32 entries = inr src_points
    /\ output_dims (width form) (height form) = inr (ow, oh)
    /\ perspective_transform src_points (dst_points ow oh) = inr M
    /\ warpPerspective (original entry) M (ow, oh) = inr (transformed_image resp)
    /\ imencode (transformed_image resp) = inr (transformed_image resp)
    /\ resp = {| resp_image_id := id; transformed_image := transformed_image resp;
                 resp_width := ow; resp_height := oh;
                 real_dimensions := (width form, height form, "meters"%string) |}
    /\ st' = {| image_store :=
                  <[id := {| original := original entry;
                             filename := filename entry;
                             transformed := Some (transformed_image resp);
                             dimensions := Some (width form, height form) |}]>
                    (image_store st);
                storage := <[transformed_path id := transformed_image resp]>
                             (storage st) |}.
Proof.
  unfold transform_image.
  destruct (image_store st !! id) as [entry|] eqn:Hentry; [|discriminate].
  destruct (corners form) as [corners_data|] eqn:Hcs; [|discriminate].
  destruct (len corners_data) as [e|n] eqn:Hl; [discriminate|].
  destruct (n =? 4)%nat eqn:Hlen; [|discriminate]. cbn [negb]. cbv iota.
  apply Nat.eqb_eq in Hlen. subst n.
  destruct (corner_entries _ _) as [e|entries] eqn:Hent; [discriminate|].
  destruct (np_float32 _) as [msg|src_points] eqn:Hnp; [discriminate|].
  destruct (output_dims _ _) as [e|[ow oh]] eqn:Hdims; [discriminate|].
  destruct (perspective_transform _ _) as [msg|M] eqn:HM; [discriminate|].
  destruct (warpPerspective _ _ _) as [msg|canvas] eqn:Hwarp; [discriminate|].
  destruct (imwrite _ _ _) as [msg|storage'] eqn:Hw; [discriminate|].
  destruct (imencode canvas) as [msg|buffer] eqn:Henc; [discriminate|].
  destruct (imencode_inr _ _ Henc) as [-> Hwrite].
  rewrite Hwrite in Hw. injection Hw as <-.
  intros [= <- <-]. exists entry, corners_data, entries, src_points, ow, oh, M.
  by repeat split.
Qed.

(** X9. Transforming is idempotent: the transform always warps the
    uploaded original, never an earlier result, so repeating a request
    that succeeded gives the same answer and leaves the state as the
    first run left it. *)
Theorem transform_image_idempotent `{OpenCV} (st : state) (id : string)
    (form : transform_form) (resp : transform_response) (st' : state) :
  transform_image st id form = (inr resp, st') ->
  transform_image st' id form = (inr resp, st').
Proof.
  intros Hrun.
  apply transform_image_inr in Hrun
    as (entry & corners_data & entries & src_points & ow & oh & M & Hentry & Hcs
        & Hlen & Hent & Hnp & Hdims & HM & Hwarp & Henc & Hresp & ->).
  destruct (imencode_inr _ _ Henc) as [_ Hwrite].
  unfold transform_image. cbn [image_store storage].
  rewrite lookup_insert_eq, Hcs, Hlen. cbn [Nat.eqb negb]. cbv iota.
  rewrite Hent, Hnp, Hdims, HM.
  cbn [original filename].
  rewrite Hwarp, Hwrite, Henc, !insert_insert_eq. by rewrite <- Hresp.
Qed.

Lemma transform_image_idempotent_witness :
  exists resp st',
    @transform_image cv_blank main_state0 "a"
       (form_of proper_quad (of_Z 2) (of_Z 1)) = (inr resp, st')
    /\ @transform_image cv_blank st' "a"
         (form_of proper_quad (of_Z 2) (of_Z 1)) = (inr resp, st').
Proof.
  destruct (@main_transform_runs cv_blank main_state0 "a"
              (form_of proper_quad (of_Z 2) (of_Z 1)) entry0 proper_quad 1600
              main_state0_entry one_pixel_rows one_pixel_columns eq_refl eq_refl
              dims_2_1 width_1600 eq_refl) as (canvas & Hrun & _).
  eexists _, _. split; [exact Hrun|].
  exact (@transform_image_idempotent cv_blank _ _ _ _ _ Hrun).
Defined.

(** X10. A successful transform touches one entry and one file only:
    every other entry of the store is kept, the entry keeps its
    original picture and file name, and no file other than the
    transformed picture of this image is written. *)
Theorem transform_image_frame `{OpenCV} (st : state) (id : string)
    (form : transform_form) (resp : transform_response) (st' : state) :
  transform_image st id form = (inr resp, st') ->
  (forall other, other <> id -> image_store st' !! other = image_store st !! other)
  /\ original <$> image_store st' !! id = original <$> image_store st !! id
  /\ filename <$> image_store st' !! id = filename <$> image_store st !! id
  /\ (forall path, path <> transformed_path id ->
        storage st' !! path = storage st !! path).
Proof.
  intros Hrun.
  apply transform_image_inr in Hrun
    as (entry & corners_data & entries & src_points & ow & oh & M & Hentry & _ & _
        & _ & _ & _ & _ & _ & _ & _ & ->).
  cbn [image_store storage]. rewrite Hentry, lookup_insert_eq.
  split; [|split; [done|split; [done|]]].
  - intros other Hne. by apply lookup_insert_ne.
  - intros path Hne. by apply lookup_insert_ne.
Qed.

Lemma transform_image_frame_witness :
  exists resp st',
    @transform_image cv_blank main_state0 "a"
       (form_of proper_quad (of_Z 2) (of_Z 1)) = (inr resp, st')
    /\ ((forall other, other <> "a" ->
           image_store st' !! other = image_store main_state0 !! other)
        /\ original <$> image_store st' !! "a"
           = original <$> image_store main_state0 !! "a"
        /\ filename <$> image_store st' !! "a"
           = filename <$> image_store main_state0 !! "a"
        /\ (forall path, path <> transformed_path "a" ->
              storage st' !! path = storage main_state0 !! path)).
Proof.
  destruct (@main_transform_runs cv_blank main_state0 "a"
              (form_of proper_quad (of_Z 2) (of_Z 1)) entry0 proper_quad 1600
              main_state0_entry one_pixel_rows one_pixel_columns eq_refl eq_refl
              dims_2_1 width_1600 eq_refl) as (canvas & Hrun & _).
  eexists _, _. split; [exact Hrun|].
  exact (@transform_image_frame cv_blank _ _ _ _ _ Hrun).
Defined.

End MainMore.

(** ** routes.py: ownership, frames and failures *)

Module RoutesMore.
Import Routes RoutesFacts.

(** get_project_image (routes.py 159-178) *)
Definition get_project_image (conn : option nat) (d : database)
    (current_user project_id_ image_id_ : uuid) : failure + project_image :=
  match select_image current_user project_id_ image_id_
          {| view := d; budget := conn; next_uuid := O |} with
  | inl f => inl f
  | inr (None, _) => inl (HTTPException 404 "Image not found")
  | inr (Some image, _) => inr image
  end.

(** The image is in the named project and the project is the caller's. *)
Definition owned (d : database) (user pid iid : uuid) : Prop :=
  exists row p,
    project_images d !! iid = Some row /\ project_id row = pid
    /\ projects d !! pid = Some p /\ user_id p = user.

Lemma select_image_found user pid iid s row s' :
  select_image user pid iid s = inr (Some row, s') -> owned (view s) user pid iid.
Proof.
  unfold select_image. intros Hrun.
  apply tx_bind_inr in Hrun as ([] & s1 & Hrt & Hrun).
  apply round_trip_view in Hrt as [Hv Hn].
  apply tx_bind_inr in Hrun as (d & s2 & Hread & Hrun).
  apply read_view_inr in Hread as [-> ->].
  unfold tx_ret in Hrun. rewrite Hv in Hrun.
  destruct (project_images (view s) !! iid) as [row0|] eqn:Hrow; [|discriminate].
  destruct (projects (view s) !! project_id row0) as [p|] eqn:Hp; [|discriminate].
  destruct (bool_decide (project_id row0 = pid)) eqn:Hpid; [|discriminate].
  destruct (bool_decide (user_id p = user)) eqn:Hu; [|discriminate].
  apply bool_decide_eq_true in Hpid, Hu. simpl in Hrun. simplify_eq.
  by exists row, p.
Qed.

Lemma select_image_holds user pid iid d n :
  exists found,
    select_image user pid iid {| view := d; budget := None; next_uuid := n |}
    = inr (found, {| view := d; budget := None; next_uuid := n |})
    /\ (forall row, found = Some row -> owned d user pid iid).
Proof.
  eexists. split; [reflexivity|]. intros row. cbn [view].
  destruct (project_images d !! iid) as [row0|] eqn:Hrow; [|discriminate].
  destruct (projects d !! project_id row0) as [p|] eqn:Hp; [|discriminate].
  destruct (bool_decide (project_id row0 = pid)) eqn:Hpid; [|discriminate].
  destruct (bool_decide (user_id p = user)) eqn:Hu; [|discriminate].
  apply bool_decide_eq_true in Hpid, Hu. simpl. intros [= <-].
  exists row0, p. by subst.
Qed.

(** X11. Access control: an image that is not in the named project, or
    whose project belongs to another user, or that does not exist, is
    "not found" for the caller.  Reading it, transforming it and saving
    an analysis for it all answer 404, and the database and the files
    stay as they were. *)
Theorem foreign_images_are_not_found `{OpenCV}
    (d : database) (fs : gmap string image) (uuid4 : nat -> uuid)
    (user pid iid : uuid) (form : transform_form)
    (analysis : image_analysis_update) :
  ~ owned d user pid iid ->
  get_project_image None d user pid iid
    = inl (HTTPException 404 "Image not found")
  /\ transform_project_image None {| db := d; files := fs |} user pid iid form
     = (inl (HTTPException 404 "Image not found"), {| db := d; files := fs |})
  /\ save_image_analysis uuid4 None d user pid iid analysis
     = (inl (HTTPException 404 "Image not found"), d).
Proof.
  intros Hno.
  destruct (select_image_holds user pid iid d O) as (found & Hsel & Hfound).
  destruct found as [row|]; [exfalso; by eapply Hno, Hfound|].
  split; [|split].
  - unfold get_project_image. by rewrite Hsel.
  - unfold transform_project_image. cbn [db]. by rewrite Hsel.
  - unfold save_image_analysis, in_session, save_image_analysis_body.
    unfold tx_bind at 1. by rewrite Hsel.
Qed.

(** Image "a" of [database1] belongs to user "u"; user "v" asks. *)
Lemma database1_not_owned_by_v : ~ owned database1 "v" "p" "a".
Proof.
  intros (row & p & _ & _ & Hp & Hu).
  change (projects database1) with ({[ "p" := project0 ]} : gmap uuid project) in Hp.
  rewrite lookup_singleton_eq in Hp. by simplify_eq.
Qed.

Lemma foreign_images_are_not_found_witness :
  get_project_image None database1 "v" "p" "a"
    = inl (HTTPException 404 "Image not found")
  /\ @transform_project_image cv_blank None {| db := database1; files := ∅ |}
       "v" "p" "a" (form_of proper_quad (of_Z 2) (of_Z 1))
     = (inl (HTTPException 404 "Image not found"),
        {| db := database1; files := ∅ |})
  /\ save_image_analysis uuids None database1 "v" "p" "a" (analysis_of None)
     = (inl (HTTPException 404 "Image not found"), database1).
Proof.
  exact (@foreign_images_are_not_found cv_blank database1 ∅ uuids "v" "p" "a"
           (form_of proper_quad (of_Z 2) (of_Z 1)) (analysis_of None)
           database1_not_owned_by_v).
Defined.

(** X12. What is read is the caller's: when get_project_image answers
    with a row, that row is the stored row of the image, the image is in
    the named project, and the project belongs to the caller. *)
Theorem get_project_image_returns_own_image
    (conn : option nat) (d : database) (user pid iid : uuid) (row : project_image) :
  get_project_image conn d user pid iid = inr row ->
  project_images d !! iid = Some row /\ owned d user pid iid.
Proof.
  unfold get_project_image.
  destruct (select_image _ _ _ _) as [f|[[row0|] s]] eqn:Hsel; try discriminate.
  intros [= ->]. split.
  - apply select_image_inr in Hsel as (_ & _ & Hfound). by apply Hfound.
  - by apply select_image_found in Hsel.
Qed.

Lemma get_project_image_returns_own_image_witness :
  project_images database1 !! "b" = Some image_row0 /\ owned database1 "u" "p" "b".
Proof.
  apply (get_project_image_returns_own_image None database1 "u" "p" "b" image_row0).
  vm_compute. reflexivity.
Defined.

(** *** transform_project_image: what a run changes *)

(** The columns a transform assigns. *)
Definition transform_columns (iid : uuid) (form : transform_form)
    (cols : gmap string value) : gmap string value :=
  <["status" := VStr "ready"]>
    (<["real_unit" := VStr "m"]>
       (<["real_height" := VFloat (height form)]>
          (<["real_width" := VFloat (width form)]>
             (<["storage_transformed_path" := VStr (transformed_path iid)]> cols)))).

Definition TRANSFORM_COLUMNS : list string :=
  ["status"; "real_unit"; "real_height"; "real_width"; "storage_transformed_path"].

Lemma transform_columns_other iid form cols (c : string) :
  c ∉ TRANSFORM_COLUMNS -> transform_columns iid form cols !! c = cols !! c.
Proof.
  unfold TRANSFORM_COLUMNS, transform_columns. intros Hc.
  rewrite !not_elem_of_cons in Hc. destruct Hc as (? & ? & ? & ? & ? & _).
  by rewrite !lookup_insert_ne.
Qed.

(** Where a run of the handler can leave the committed database and
    the files: untouched; or, once the warp has returned a canvas, with
    the picture written or not, and the row updated or not.  A request
    that succeeds has written the picture it answers with. *)
Lemma transform_project_image_outcome `{OpenCV} (conn : option nat) (w : world)
    (user pid iid : uuid) (form : transform_form) :
  let result := transform_project_image conn w user pid iid form in
  (result.2 = w /\ exists f, result.1 = inl f)
  \/ (exists row canvas,
        project_images (db w) !! iid = Some row
        /\ owned (db w) user pid iid
        /\ (files result.2 = files w
            \/ files result.2 = <[transformed_path iid := canvas]> (files w))
        /\ ((db result.2 = db w /\ exists f, result.1 = inl f)
            \/ (db result.2 =
                  {| projects := projects (db w);
                     project_images :=
                       <[iid := with_columns row
                                  (transform_columns iid form (columns row))]>
                         (project_images (db w));
                     image_deselections := image_deselections (db w) |}
                /\ forall resp, result.1 = inr resp ->
                     transformed_image resp = canvas
                     /\ files result.2
                        = <[transformed_path iid := canvas]> (files w)))).
Proof.
  intros result. unfold result, transform_project_image.
  destruct (select_image _ _ _ _) as [f|[[row|] s]] eqn:Hsel;
    [left; eauto | | left; eauto].
  pose proof (select_image_found _ _ _ _ _ _ Hsel) as Hown.
  apply select_image_inr in Hsel as (Hv & Hn & Hfound). cbn [view] in *.
  specialize (Hfound row eq_refl).
  destruct (corners form) as [corners_data|]; [|left; eauto].
  destruct (len _) as [e|n]; [left; eauto|].
  destruct (negb _); [left; eauto|].
  destruct (files w !! storage_original_path row) as [img|]; [|left; eauto].
  destruct (corner_entries _ _) as [e|entries]; [left; eauto|].
  destruct (np_float32 _) as [msg|src_points]; [left; eauto|].
  destruct (output_dims _ _) as [e|[ow oh]]; [left; eauto|].
  destruct (perspective_transform _ _) as [msg|M]; [left; eauto|].
  destruct (warpPerspective _ _ _) as [msg|canvas]; [left; eauto|].
  destruct (imwrite _ _ _) as [msg|files'] eqn:Hw; [left; eauto|].
  right. exists row, canvas. split; [done|]. split; [done|].
  pose proof (MainMore.imwrite_inr _ _ _ _ Hw) as Hfiles.
  destruct ((update_image iid _ ;; round_trip) s) as [f|[[] s1]] eqn:Hupd.
  { cbn [snd fst files db]. split; [done|]. left. eauto. }
  apply tx_bind_inr in Hupd as ([] & s2 & Hupd & Hrt).
  apply update_image_inr in Hupd as [Hv2 _].
  apply round_trip_view in Hrt as [Hv1 _].
  assert (Hdb : view s1 =
            {| projects := projects (db w);
               project_images :=
                 <[iid := with_columns row (transform_columns iid form (columns row))]>
                   (project_images (db w));
               image_deselections := image_deselections (db w) |}).
  { rewrite Hv1, Hv2, Hv. done. }
  destruct (round_trip s1) as [f|[[] s3]].
  { cbn [snd fst files db]. split; [done|]. right. split; [done|].
    intros resp. discriminate. }
  destruct (imencode canvas) as [msg|buffer] eqn:Henc;
    cbn [snd fst files db]; (split; [done|]); right; (split; [done|]).
  - intros resp. discriminate.
  - intros resp [= <-]. cbn [transformed_image].
    destruct (MainMore.imencode_inr _ _ Henc) as [-> Hwrite].
    rewrite Hwrite in Hw. by injection Hw as <-.
Qed.

(** X13. A transform that succeeds sets the five columns it assigns
    and nothing else: every other column of the row -- the analysis
    figures of an earlier run included -- keeps its value, the other
    images, the projects and the deselections are as before, and the
    only file written is the transformed picture. *)
Theorem transform_project_image_frame `{OpenCV} (conn : option nat) (w w' : world)
    (user pid iid : uuid) (form : transform_form) (resp : transform_response) :
  transform_project_image conn w user pid iid form = (inr resp, w') ->
  exists row,
    project_images (db w) !! iid = Some row
    /\ project_images (db w') !! iid
       = Some (with_columns row (transform_columns iid form (columns row)))
    /\ (forall c, c ∉ TRANSFORM_COLUMNS ->
          transform_columns iid form (columns row) !! c = columns row !! c)
    /\ (forall other, other <> iid ->
          project_images (db w') !! other = project_images (db w) !! other)
    /\ projects (db w') = projects (db w)
    /\ image_deselections (db w') = image_deselections (db w)
    /\ files w' = <[transformed_path iid := transformed_image resp]> (files w).
Proof.
  intros Hrun.
  pose proof (transform_project_image_outcome conn w user pid iid form) as Hout.
  cbn zeta in Hout. rewrite Hrun in Hout. cbn [fst snd] in Hout.
  destruct Hout as [[_ [f Hf]]|(row & canvas & Hrow & _ & _ & Hdb)];
    [discriminate|].
  destruct Hdb as [[_ [f Hf]]|[Hdb Hresp]]; [discriminate|].
  destruct (Hresp resp eq_refl) as [Hcanvas Hfiles].
  exists row. rewrite Hdb, Hfiles, Hcanvas. cbn.
  split; [done|]. split; [apply lookup_insert_eq|].
  split; [intros c; apply transform_columns_other|].
  split; [|done]. intros other Hne. by apply lookup_insert_ne.
Qed.

Lemma transform_project_image_frame_witness :
  exists resp w' row,
    @transform_project_image cv_blank None world0 "u" "p" "a"
       (form_of proper_quad (of_Z 2) (of_Z 1)) = (inr resp, w')
    /\ project_images (db world0) !! "a" = Some row
    /\ project_images (db w') !! "a"
       = Some (with_columns row
                 (transform_columns "a" (form_of proper_quad (of_Z 2) (of_Z 1))
                    (columns row)))
    /\ (forall c, c ∉ TRANSFORM_COLUMNS ->
          transform_columns "a" (form_of proper_quad (of_Z 2) (of_Z 1))
            (columns row) !! c = columns row !! c)
    /\ (forall other, other <> "a" ->
          project_images (db w') !! other = project_images (db world0) !! other)
    /\ projects (db w') = projects (db world0)
    /\ image_deselections (db w') = image_deselections (db world0)
    /\ files w' = <[transformed_path "a" := transformed_image resp]> (files world0).
Proof.
  destruct (@routes_transform_runs cv_blank world0 "u" "p" "a"
              (form_of proper_quad (of_Z 2) (of_Z 1))
              image_row0 project0 one_pixel proper_quad 1600
              world0_image world0_project eq_refl eq_refl world0_file
              one_pixel_rows one_pixel_columns eq_refl eq_refl
              dims_2_1 width_1600 eq_refl) as (canvas & Hrun & _).
  destruct (@transform_project_image_frame cv_blank None world0 _ "u" "p" "a"
              _ _ Hrun) as (row & Hframe).
  eexists _, _, row. split; [exact Hrun|]. exact Hframe.
Defined.

(** X14. The picture is written before the transaction commits: for
    a request that would succeed over a connection that holds (the
    caller's own readable image, four corner objects, a canvas of 1 to
    65500 pixels in width that OpenCV resamples), a connection lost at
    the UPDATE or at the COMMIT makes the request fail and leaves the
    database unchanged, but the transformed picture is already in the
    storage directory. *)
Theorem lost_connection_leaves_the_picture `{OpenCV} (conn : option nat)
    (w : world) (user pid iid : uuid) (form : transform_form)
    (row : project_image) (p : project) (img : image)
    (cs : list point) (ow : Z) :
  conn = Some 1%nat \/ conn = Some 2%nat ->
  project_images (db w) !! iid = Some row ->
  projects (db w) !! project_id row = Some p ->
  project_id row = pid -> user_id p = user ->
  files w !! storage_original_path row = Some img ->
  (0 < (shape img).1)%nat -> (0 < (shape img).2)%nat ->
  corners form = Some (corners_json cs) -> length cs = 4%nat ->
  output_dims (width form) (height form) = inr (ow, 800) ->
  0 < ow <= JPEG_MAX_DIMENSION ->
  warp_refuses img (ow, 800) = None ->
  exists canvas,
    transform_project_image conn w user pid iid form
    = (inl (Unhandled (DBError "connection lost")),
       {| db := db w;
          files := <[transformed_path iid := canvas]> (files w) |})
    /\ has_shape 800 (Z.to_nat ow) canvas.
Proof.
  intros Hconn Hrow Hproj Hpid Huser Hfile Hr Hc Hcs Hlen Hdims How Hok.
  unfold JPEG_MAX_DIMENSION in How.
  destruct (corners_json_points cs Hlen) as (Hl & entries & Hent & Hnp).
  destruct (warpPerspective_shape img
              (getPerspectiveTransform cs (dst_points ow 800)) ow 800 Hr Hc)
    as (canvas & Hwarp & Hshape); [unfold INT_MAX; lia | unfold INT_MAX; lia | exact Hok |].
  destruct (jpeg_written canvas _ _ (transformed_path iid) (files w) Hshape)
    as [Hwrite _]; [lia | lia | unfold JPEG_MAX_DIMENSION; lia
                   | unfold JPEG_MAX_DIMENSION; lia |].
  exists canvas. split; [|exact Hshape].
  unfold transform_project_image, select_image, tx_bind, round_trip, read_view,
    tx_ret.
  destruct Hconn as [-> | ->]; cbn [view budget next_uuid].
  - rewrite Hrow, Hproj. rewrite !bool_decide_eq_true_2 by done. cbn [andb].
    rewrite Hcs, Hl. cbn [Nat.eqb negb]. cbv iota.
    rewrite Hfile, Hent, Hnp, Hdims. cbn [perspective_transform].
    rewrite Hwarp, Hwrite.
    unfold update_image, tx_bind, round_trip. cbn [view budget next_uuid].
    reflexivity.
  - rewrite Hrow, Hproj. rewrite !bool_decide_eq_true_2 by done. cbn [andb].
    rewrite Hcs, Hl. cbn [Nat.eqb negb]. cbv iota.
    rewrite Hfile, Hent, Hnp, Hdims. cbn [perspective_transform].
    rewrite Hwarp, Hwrite.
    unfold update_image, tx_bind, round_trip, read_view, write_view.
    cbn [view budget next_uuid].
    reflexivity.
Qed.

Lemma lost_connection_leaves_the_picture_witness :
  exists canvas,
    @transform_project_image cv_blank (Some 2%nat) world0 "u" "p" "a"
       (form_of proper_quad (of_Z 2) (of_Z 1))
    = (inl (Unhandled (DBError "connection lost")),
       {| db := db world0;
          files := <[transformed_path "a" := canvas]> (files world0) |})
    /\ has_shape 800 (Z.to_nat 1600) canvas.
Proof.
  exact (@lost_connection_leaves_the_picture cv_blank (Some 2%nat) world0
           "u" "p" "a" (form_of proper_quad (of_Z 2) (of_Z 1))
           image_row0 project0 one_pixel proper_quad 1600
           (or_intror eq_refl)
           world0_image world0_project eq_refl eq_refl world0_file
           one_pixel_rows one_pixel_columns eq_refl eq_refl
           dims_2_1 width_1600 eq_refl).
Defined.

(** *** save_image_analysis: what is stored *)

Lemma assign_fields_lookup analysis cols (field : string) :
  assign_fields analysis cols !! field =
  if bool_decide (field ∈ ANALYSIS_FIELDS)
  then match analysis_fields analysis !! field with
       | Some v => Some v
       | None => cols !! field
       end
  else cols !! field.
Proof.
  unfold assign_fields. generalize ANALYSIS_FIELDS as fields.
  intros fields. revert cols.
  induction fields as [|f fields IH]; intros cols; [done|].
  cbn [foldl]. rewrite IH.
  destruct (decide (field = f)) as [->|Hne].
  - rewrite (bool_decide_eq_true_2 (f ∈ f :: fields)) by left.
    destruct (analysis_fields analysis !! f) as [v|] eqn:Hf.
    + rewrite lookup_insert_eq. by destruct (bool_decide _).
    + by destruct (bool_decide _).
  - assert (Hcols : (match analysis_fields analysis !! f with
                     | Some v => <[f := v]> cols
                     | None => cols
                     end) !! field = cols !! field).
    { destruct (analysis_fields analysis !! f); [|done].
      by apply lookup_insert_ne. }
    rewrite Hcols.
    destruct (decide (field ∈ fields)) as [Hin|Hnin].
    + rewrite bool_decide_eq_true_2 by done.
      by rewrite (bool_decide_eq_true_2 (field ∈ f :: fields)) by (by right).
    + rewrite bool_decide_eq_false_2 by done.
      rewrite (bool_decide_eq_false_2 (field ∈ f :: fields)); [done|].
      rewrite not_elem_of_cons. done.
Qed.

(** X15. A request that succeeds stores every analysis field it
    carries: each of the ten fields with a value in the request has
    that value on the stored row and on the row sent back.  No other
    column can be written through the request: a column outside the
    ten keeps its stored value whatever the request holds. *)
Theorem analysis_fields_are_stored
    (uuid4 : nat -> uuid) (conn : option nat) (d d' : database)
    (user pid iid : uuid) (analysis : image_analysis_update)
    (row : project_image) :
  save_image_analysis uuid4 conn d user pid iid analysis = (inr row, d') ->
  project_images d' !! iid = Some row
  /\ (forall field v,
        field ∈ ANALYSIS_FIELDS -> analysis_fields analysis !! field = Some v ->
        columns row !! field = Some v)
  /\ (forall column,
        column ∉ ANALYSIS_FIELDS ->
        Some (columns row !! column)
        = (fun old => columns old !! column) <$> project_images d !! iid).
Proof.
  unfold save_image_analysis. intros Hrun.
  apply in_session_success in Hrun as (s & Hbody & ->).
  apply save_image_analysis_body_view in Hbody as (db_image & Himg & -> & Hv).
  cbn [view] in *. rewrite Hv. cbn [project_images columns with_columns].
  split; [apply lookup_insert_eq|]. split.
  - intros field v Hin Hval. rewrite assign_fields_lookup.
    by rewrite bool_decide_eq_true_2, Hval.
  - intros column Hnin. rewrite Himg.
    change (Some (assign_fields analysis (columns db_image) !! column)
            = Some (columns db_image !! column)).
    rewrite assign_fields_lookup. by rewrite bool_decide_eq_false_2.
Qed.

(** A request that tries to write [status] next to a real field. *)
Definition sneaky_analysis : image_analysis_update :=
  {| analysis_fields := {[ "usable_area" := VFloat (of_Z 9);
                           "status" := VStr "hacked" ]};
     deselections := None;
     cemented_image := None |}.

Lemma analysis_fields_are_stored_witness :
  exists row d',
    save_image_analysis uuids None database1 "u" "p" "a" sneaky_analysis
      = (inr row, d')
    /\ project_images d' !! "a" = Some row
    /\ (forall field v,
          field ∈ ANALYSIS_FIELDS ->
          analysis_fields sneaky_analysis !! field = Some v ->
          columns row !! field = Some v)
    /\ (forall column,
          column ∉ ANALYSIS_FIELDS ->
          Some (columns row !! column)
          = (fun old => columns old !! column) <$> project_images database1 !! "a").
Proof.
  destruct (save_image_analysis uuids None database1 "u" "p" "a" sneaky_analysis)
    as [r d'] eqn:Hrun.
  assert (Hr : exists row, r = inr row).
  { revert Hrun. vm_compute. intros [= <- _]. by eexists. }
  destruct Hr as [row ->].
  exists row, d'. split; [reflexivity|].
  exact (analysis_fields_are_stored uuids None database1 d' "u" "p" "a"
           sneaky_analysis row Hrun).
Defined.

(** *** save_image_analysis: all or nothing *)

(** While the connection holds, no round trip fails and the session
    keeps its connection. *)
Definition keeps_connection {A} (m : tx A) : Prop :=
  forall s a s', budget s = None -> m s = inr (a, s') -> budget s' = None.

Lemma keeps_connection_bind {A B} (m : tx A) (k : A -> tx B) :
  keeps_connection m -> (forall a, keeps_connection (k a)) ->
  keeps_connection (tx_bind m k).
Proof.
  intros Hm Hk s b s' Hs Hrun.
  apply tx_bind_inr in Hrun as (a & s1 & Hm1 & Hk1).
  eapply Hk; [|exact Hk1]. by eapply Hm.
Qed.

Lemma keeps_connection_ret {A} (a : A) : keeps_connection (tx_ret a).
Proof. intros s a' s' Hs [= _ <-]. done. Qed.

Lemma keeps_connection_round_trip : keeps_connection round_trip.
Proof.
  intros s a s' Hs. unfold round_trip. rewrite Hs. by intros [= _ <-].
Qed.

Lemma keeps_connection_read_view : keeps_connection read_view.
Proof. intros s a s' Hs [= _ <-]. done. Qed.

Lemma keeps_connection_write_view d : keeps_connection (write_view d).
Proof. intros s a s' Hs [= _ <-]. done. Qed.

Lemma keeps_connection_insert_all uuid4 iid items :
  keeps_connection (insert_all uuid4 iid items).
Proof.
  induction items as [|it rest IH]; simpl; [apply keeps_connection_ret|].
  apply keeps_connection_bind; [|done].
  unfold insert_deselection.
  apply keeps_connection_bind; [apply keeps_connection_round_trip|].
  intros _. destruct (negb _); [intros s a s' Hs; discriminate|].
  destruct (bool_decide _).
  - intros s a s' Hs [= _ <-]. done.
  - intros s a s' Hs. discriminate.
Qed.

Lemma keeps_connection_raise {A} (f : failure) : keeps_connection (@raise A f).
Proof. intros s a s' _. discriminate. Qed.

Ltac keeps_connection_step :=
  first [ apply keeps_connection_round_trip
        | apply keeps_connection_read_view
        | apply keeps_connection_write_view
        | apply keeps_connection_ret
        | apply keeps_connection_raise
        | apply keeps_connection_insert_all
        | apply keeps_connection_bind; [|intros ?] ].

Lemma keeps_connection_body uuid4 user pid iid analysis :
  keeps_connection (save_image_analysis_body uuid4 user pid iid analysis).
Proof.
  unfold save_image_analysis_body, select_image, update_image, delete_deselections.
  apply keeps_connection_bind; [repeat keeps_connection_step|].
  intros [db_image|]; [|apply keeps_connection_raise].
  apply keeps_connection_bind; [repeat keeps_connection_step|]. intros _.
  apply keeps_connection_bind; [|intros _; apply keeps_connection_ret].
  destruct (deselections analysis); repeat keeps_connection_step.
Qed.

(** X16. All or nothing: while the connection holds, a request that is
    answered with an error -- an unknown or foreign image, a deselection
    whose shape the column refuses -- changes nothing at all; the field
    values it carried are not stored either. *)
Theorem failed_analysis_changes_nothing
    (uuid4 : nat -> uuid) (d : database) (user pid iid : uuid)
    (analysis : image_analysis_update) (f : failure) :
  (save_image_analysis uuid4 None d user pid iid analysis).1 = inl f ->
  (save_image_analysis uuid4 None d user pid iid analysis).2 = d.
Proof.
  unfold save_image_analysis, in_session.
  destruct (save_image_analysis_body _ _ _ _ _ _) as [f'|[row s]] eqn:Hbody;
    [done|].
  apply keeps_connection_body in Hbody; [|done].
  unfold round_trip. rewrite Hbody. cbv beta iota. rewrite Hbody.
  discriminate.
Qed.

Lemma failed_analysis_changes_nothing_witness :
  (save_image_analysis uuids None database1 "u" "p" "a"
     (analysis_of (Some [rect_item; star_item]))).2 = database1.
Proof.
  apply (failed_analysis_changes_nothing uuids database1 "u" "p" "a"
           (analysis_of (Some [rect_item; star_item]))
           (Unhandled (DBError "invalid input value for enum deselect_shape"))).
  vm_compute. reflexivity.
Defined.

(** *** Referential integrity *)

(** Every image belongs to a stored project and every deselection to
    a stored image. *)
Definition well_formed (d : database) : Prop :=
  (forall iid row, project_images d !! iid = Some row ->
                   is_Some (projects d !! project_id row))
  /\ Forall (fun r => is_Some (project_images d !! image_id r))
            (image_deselections d).

Lemma well_formed_update (d : database) (iid : uuid) (row : project_image)
    (cols : gmap string value) (rows : list image_deselection) :
  well_formed d -> project_images d !! iid = Some row ->
  Forall (fun r => image_id r = iid
                   \/ r ∈ image_deselections d) rows ->
  well_formed {| projects := projects d;
                 project_images := <[iid := with_columns row cols]> (project_images d);
                 image_deselections := rows |}.
Proof.
  intros [Himgs Hdes] Hrow Hrows. split; cbn.
  - intros i r Hi. destruct (decide (iid = i)) as [->|Hne].
    + rewrite lookup_insert_eq in Hi. injection Hi as <-. cbn. by eapply Himgs.
    + rewrite lookup_insert_ne in Hi by done. by eapply Himgs.
  - eapply Forall_impl; [exact Hrows|]. intros r [->|Hin]; cbn.
    + rewrite lookup_insert_eq. by eexists.
    + destruct (decide (iid = image_id r)) as [<-|Hne].
      * rewrite lookup_insert_eq. by eexists.
      * rewrite lookup_insert_ne by done.
        by apply (proj1 (Forall_forall _ _) Hdes).
Qed.

(** X17. Both writing handlers keep the references of the database
    intact: after a transform or a saved analysis, however the request
    ends, every image still belongs to a stored project and every
    deselection row to a stored image. *)
Theorem handlers_keep_references `{OpenCV}
    (uuid4 : nat -> uuid) (conn : option nat) (w : world)
    (user pid iid : uuid) (form : transform_form)
    (analysis : image_analysis_update) :
  well_formed (db w) ->
  well_formed (db (transform_project_image conn w user pid iid form).2)
  /\ well_formed (save_image_analysis uuid4 conn (db w) user pid iid analysis).2.
Proof.
  intros Hwf. split.
  - pose proof (transform_project_image_outcome conn w user pid iid form) as Hout.
    cbn zeta in Hout.
    destruct Hout as [[-> _]|(row & canvas & Hrow & _ & _ & [[-> _]|[-> _]])];
      try done.
    apply well_formed_update; [done..|].
    apply Forall_forall. intros r Hr. by right.
  - unfold save_image_analysis.
    destruct (in_session_outcome conn (db w)
                (save_image_analysis_body uuid4 user pid iid analysis))
      as [[f ->]|(row & s & r & Hbody & -> & _)]; [done|].
    apply save_image_analysis_body_view in Hbody as (db_image & Himg & -> & Hv).
    cbn [view snd] in *. rewrite Hv.
    apply well_formed_update; [done..|].
    destruct (deselections analysis) as [items|].
    + apply Forall_app. split.
      * apply Forall_forall. intros x Hx. right.
        by apply list_elem_of_filter in Hx as [_ Hx].
      * eapply Forall_impl; [apply new_rows_image|]. intros x Hx. by left.
    + apply Forall_forall. intros x Hx. by right.
Qed.

Lemma database1_well_formed : well_formed database1.
Proof.
  split.
  - intros iid row Hrow.
    change (project_images database1) with
      ({[ "a" := with_columns image_row0
                   (<["usable_area" := VFloat (of_Z 7)]> (columns image_row0));
          "b" := image_row0 ]} : gmap uuid project_image) in Hrow.
    apply lookup_insert_Some in Hrow as [[_ <-]|[_ Hrow]].
    + cbn. by eexists.
    + apply lookup_singleton_Some in Hrow as [_ <-]. cbn. by eexists.
  - repeat constructor; cbn; by eexists.
Qed.

Lemma handlers_keep_references_witness :
  well_formed
    (db (@transform_project_image cv_blank None
           {| db := database1; files := ∅ |} "u" "p" "a"
           (form_of proper_quad (of_Z 2) (of_Z 1))).2)
  /\ well_formed
       (save_image_analysis uuids None database1 "u" "p" "a"
          (analysis_of (Some [rect_item; circle_item]))).2.
Proof.
  exact (@handlers_keep_references cv_blank uuids None
           {| db := database1; files := ∅ |} "u" "p" "a"
           (form_of proper_quad (of_Z 2) (of_Z 1))
           (analysis_of (Some [rect_item; circle_item]))
           database1_well_formed).
Defined.

(** *** delete_project (routes.py 111-128)

    The project row is deleted through the ORM; the relationships
    [Project.images] and [ProjectImage.deselections] cascade the delete
    to the images of the project and to their deselection rows. *)

(** [select(Project).where(Project.id == project_id,
    Project.user_id == current_user.id)] *)
Definition select_project (current_user project_id_ : uuid) : tx (option project) :=
  round_trip ;;
  d <- read_view ;;
  tx_ret (match projects d !! project_id_ with
          | Some p => if bool_decide (user_id p = current_user) then Some p else None
          | None => None
          end).

(** The image of a deselection row is one of the project. *)
Definition in_project (d : database) (project_id_ image_id_ : uuid) : bool :=
  match project_images d !! image_id_ with
  | Some row => bool_decide (project_id row = project_id_)
  | None => false
  end.

Definition delete_cascade (project_id_ : uuid) : tx unit :=
  round_trip ;;
  d <- read_view ;;
  write_view
    {| projects := delete project_id_ (projects d);
       project_images :=
         filter (fun kv => project_id kv.2 <> project_id_) (project_images d);
       image_deselections :=
         filter (fun r => in_project d project_id_ (image_id r) = false)
                (image_deselections d) |}.

Definition delete_project (conn : option nat) (d : database)
    (current_user project_id_ : uuid) : (failure + Z) * database :=
  match (found <- select_project current_user project_id_ ;;
         match found with
         | None => raise (HTTPException 404 "Project not found")
         | Some _ => delete_cascade project_id_
         end) {| view := d; budget := conn; next_uuid := O |} with
  | inl f => (inl f, d)
  | inr (_, s) =>
      match round_trip s with       (* COMMIT *)
      | inl f => (inl f, d)
      | inr _ => (inr 204, view s)
      end
  end.

Lemma delete_project_inr conn d user pid code d' :
  delete_project conn d user pid = (inr code, d') ->
  code = 204
  /\ (exists p, projects d !! pid = Some p /\ user_id p = user)
  /\ d' = {| projects := delete pid (projects d);
             project_images :=
               filter (fun kv => project_id kv.2 <> pid) (project_images d);
             image_deselections :=
               filter (fun r => in_project d pid (image_id r) = false)
                      (image_deselections d) |}.
Proof.
  unfold delete_project.
  destruct (tx_bind _ _ _) as [f|[[] s]] eqn:Hbody; [discriminate|].
  destruct (round_trip s) as [f|[[] s1]] eqn:Hrt; [discriminate|].
  intros [= <- <-].
  apply tx_bind_inr in Hbody as (found & s2 & Hsel & Hdel).
  unfold select_project in Hsel.
  apply tx_bind_inr in Hsel as ([] & s3 & Hrt3 & Hsel).
  apply round_trip_view in Hrt3 as [Hv3 _].
  apply tx_bind_inr in Hsel as (d0 & s4 & Hread & Hsel).
  apply read_view_inr in Hread as [-> ->].
  unfold tx_ret in Hsel. injection Hsel as <- <-.
  rewrite Hv3 in Hdel. cbn [view] in Hdel.
  destruct (projects d !! pid) as [p|] eqn:Hp; [|discriminate].
  destruct (bool_decide (user_id p = user)) eqn:Hu; [|discriminate].
  apply bool_decide_eq_true in Hu.
  unfold delete_cascade in Hdel.
  apply tx_bind_inr in Hdel as ([] & s5 & Hrt5 & Hdel).
  apply round_trip_view in Hrt5 as [Hv5 _].
  apply tx_bind_inr in Hdel as (d1 & s6 & Hread & Hdel).
  apply read_view_inr in Hread as [-> ->].
  apply write_view_inr in Hdel as [Hv _].
  rewrite Hv5, Hv3 in Hv. cbn [view] in Hv.
  split; [done|]. split; [by exists p|]. by rewrite <- Hv.
Qed.

(** X18. Deleting a project removes the project, exactly its images
    and exactly the deselection rows of those images; the other
    projects, their images and their deselections are kept as they
    were, and the references of the database stay intact.  Only the
    owner of the project can delete it. *)
Theorem delete_project_cascades (conn : option nat) (d d' : database)
    (user pid : uuid) (code : Z) :
  delete_project conn d user pid = (inr code, d') ->
  (exists p, projects d !! pid = Some p /\ user_id p = user)
  /\ projects d' !! pid = None
  /\ (forall other, other <> pid -> projects d' !! other = projects d !! other)
  /\ (forall iid row,
        project_images d' !! iid = Some row <->
        project_images d !! iid = Some row /\ project_id row <> pid)
  /\ (forall r,
        r ∈ image_deselections d' <->
        r ∈ image_deselections d /\ in_project d pid (image_id r) = false)
  /\ (well_formed d -> well_formed d').
Proof.
  intros Hrun. apply delete_project_inr in Hrun as (_ & Hown & ->). cbn.
  split; [done|]. split; [apply lookup_delete_eq|].
  split; [intros other Hne; by apply lookup_delete_ne|].
  assert (Himgs : forall iid row,
            filter (fun kv : uuid * project_image => project_id kv.2 <> pid)
                   (project_images d) !! iid = Some row <->
            project_images d !! iid = Some row /\ project_id row <> pid).
  { intros iid row. apply map_lookup_filter_Some. }
  split; [exact Himgs|].
  split; [intros r; rewrite list_elem_of_filter; tauto|].
  intros [Hwi Hwd]. split; cbn.
  - intros iid row Hrow. apply Himgs in Hrow as [Hrow Hne].
    rewrite lookup_delete_ne by done. by eapply Hwi.
  - apply Forall_forall. intros r Hr.
    apply list_elem_of_filter in Hr as [Hout Hr].
    pose proof (proj1 (Forall_forall _ _) Hwd r Hr) as [row Hrow].
    exists row. apply Himgs. split; [done|].
    unfold in_project in Hout. rewrite Hrow in Hout.
    by apply bool_decide_eq_false in Hout.
Qed.

Lemma delete_project_cascades_witness :
  exists code d',
    delete_project None database1 "u" "p" = (inr code, d')
    /\ ((exists p, projects database1 !! "p" = Some p /\ user_id p = "u")
        /\ projects d' !! "p" = None
        /\ (forall other, other <> "p" ->
              projects d' !! other = projects database1 !! other)
        /\ (forall iid row,
              project_images d' !! iid = Some row <->
              project_images database1 !! iid = Some row /\ project_id row <> "p")
        /\ (forall r,
              r ∈ image_deselections d' <->
              r ∈ image_deselections database1
              /\ in_project database1 "p" (image_id r) = false)
        /\ (well_formed database1 -> well_formed d')).
Proof.
  destruct (delete_project None database1 "u" "p") as [r d'] eqn:Hrun.
  assert (Hr : exists code, r = inr code).
  { revert Hrun. vm_compute. intros [= <- _]. by eexists. }
  destruct Hr as [code ->].
  exists code, d'. split; [reflexivity|].
  exact (delete_project_cascades None database1 d' "u" "p" code Hrun).
Defined.

(** *** upload_project_image (routes.py 263-327) *)

Record project_image_upload_response := {
  upload_id : uuid;
  upload_project_id : uuid;
  upload_width_px : Z;
  upload_height_px : Z;
  upload_original_filename : string;
  upload_image_data : image
}.

(** The INSERT of the new image row. *)
Definition insert_image (image_id_ : uuid) (row : project_image) : tx unit :=
  round_trip ;;
  d <- read_view ;;
  write_view {| projects := projects d;
                project_images := <[image_id_ := row]> (project_images d);
                image_deselections := image_deselections d |}.

(** [uuid4 0] names the stored file, [uuid4 1] is the primary key the
    row gets when it is flushed.  A file without a content type, or
    with an empty one, is refused like one of another type.  The
    handler has no [try]; the picture is written before the row is
    inserted and committed, and encoded for the answer after the
    commit. *)
Definition upload_project_image `{MainMore.ImageCodec} (uuid4 : nat -> uuid)
    (conn : option nat) (w : world) (current_user project_id_ : uuid)
    (file : MainMore.upload_file)
  : (failure + project_image_upload_response) * world :=
  match select_project current_user project_id_
          {| view := db w; budget := conn; next_uuid := O |} with
  | inl f => (inl f, w)
  | inr (None, _) => (inl (HTTPException 404 "Project not found"), w)
  | inr (Some _, s) =>
      if match MainMore.content_type file with
         | None => true
         | Some ct => (ct =? "")%string || negb (String.prefix "image/" ct)
         end
      then (inl (HTTPException 400 "File must be an image"), w)
      else
        match MainMore.imdecode (MainMore.contents file) with
        | inl msg => (inl (Unhandled (Cv2Error msg)), w)
        | inr None => (inl (HTTPException 400 "Invalid image file"), w)
        | inr (Some img) =>
            let '(height_px_, width_px_) := shape img in
            let image_path := STORAGE_DIR +:+ "/" +:+ uuid4 O +:+ "_original.jpg" in
            match imwrite image_path img (files w) with
            | inl msg => (inl (Unhandled (Cv2Error msg)), w)
            | inr files' =>
                let db_image :=
                  {| project_id := project_id_;
                     original_filename := MainMore.up_filename file;
                     storage_original_path := image_path;
                     width_px := Z.of_nat width_px_;
                     height_px := Z.of_nat height_px_;
                     columns := {[ "status" := VStr "new" ]} |} in
                match (insert_image (uuid4 1%nat) db_image ;; round_trip) s with
                | inl f => (inl f, {| db := db w; files := files' |})
                | inr (_, s') =>
                    match round_trip s' with      (* db.refresh *)
                    | inl f => (inl f, {| db := view s'; files := files' |})
                    | inr _ =>
                        match imencode img with
                        | inl msg =>
                            (inl (Unhandled (Cv2Error msg)),
                             {| db := view s'; files := files' |})
                        | inr buffer =>
                            (inr {| upload_id := uuid4 1%nat;
                                    upload_project_id := project_id_;
                                    upload_width_px := Z.of_nat width_px_;
                                    upload_height_px := Z.of_nat height_px_;
                                    upload_original_filename :=
                                      MainMore.up_filename file;
                                    upload_image_data := buffer |},
                             {| db := view s'; files := files' |})
                        end
                    end
                end
            end
        end
  end.

(** X19. The two upload handlers differ on a file that declares no
    content type: the prototype fails on it with a 500, the
    project-bound handler refuses it with the 400 of a file that is not
    an image.  Neither stores anything. *)
Theorem upload_without_content_type `{MainMore.ImageCodec}
    (id : string) (st : Main.state)
    (uuid4 : nat -> uuid) (w : world) (user pid : uuid) (p : project)
    (file : MainMore.upload_file) :
  MainMore.content_type file = None ->
  projects (db w) !! pid = Some p -> user_id p = user ->
  MainMore.upload_image id st file
    = (inl (HTTPException 500
              "Error processing image: 'NoneType' object has no attribute 'startswith'"),
       st)
  /\ upload_project_image uuid4 None w user pid file
     = (inl (HTTPException 400 "File must be an image"), w).
Proof.
  intros Hct Hp Hu. split.
  - unfold MainMore.upload_image. by rewrite Hct.
  - unfold upload_project_image, select_project, tx_bind, round_trip, read_view,
      tx_ret. cbn. rewrite Hp, bool_decide_eq_true_2 by done. by rewrite Hct.
Qed.

Definition untyped_file : MainMore.upload_file :=
  {| MainMore.up_filename := "wall.jpg"; MainMore.content_type := None;
     MainMore.contents := "bytes" |}.

Lemma world0_project_p : projects (db world0) !! "p" = Some project0.
Proof. apply lookup_singleton_eq. Qed.

Lemma upload_without_content_type_witness :
  @MainMore.upload_image MainMore.codec_one_pixel "b" main_state0 untyped_file
    = (inl (HTTPException 500
              "Error processing image: 'NoneType' object has no attribute 'startswith'"),
       main_state0)
  /\ @upload_project_image MainMore.codec_one_pixel uuids None world0 "u" "p"
       untyped_file
     = (inl (HTTPException 400 "File must be an image"), world0).
Proof.
  exact (@upload_without_content_type MainMore.codec_one_pixel "b" main_state0
           uuids world0 "u" "p" project0 untyped_file
           eq_refl world0_project_p eq_refl).
Defined.

(** What a successful upload over a holding connection stores. *)
Lemma upload_project_image_runs `{MainMore.ImageCodec} (uuid4 : nat -> uuid)
    (w : world) (user pid : uuid) (p : project)
    (file : MainMore.upload_file) (ct : string) (img : image) :
  projects (db w) !! pid = Some p -> user_id p = user ->
  MainMore.content_type file = Some ct ->
  String.prefix "image/" ct = true ->
  MainMore.contents file <> ""%string ->
  MainMore.decode (MainMore.contents file) = Some img ->
  is_empty img = false -> jpeg_encodable img = true ->
  upload_project_image uuid4 None w user pid file
  = (inr {| upload_id := uuid4 1%nat;
            upload_project_id := pid;
            upload_width_px := Z.of_nat (shape img).2;
            upload_height_px := Z.of_nat (shape img).1;
            upload_original_filename := MainMore.up_filename file;
            upload_image_data := img |},
     {| db :=
          {| projects := projects (db w);
             project_images :=
               <[uuid4 1%nat :=
                   {| project_id := pid;
                      original_filename := MainMore.up_filename file;
                      storage_original_path :=
                        STORAGE_DIR +:+ "/" +:+ uuid4 O +:+ "_original.jpg";
                      width_px := Z.of_nat (shape img).2;
                      height_px := Z.of_nat (shape img).1;
                      columns := {[ "status" := VStr "new" ]} |}]>
                 (project_images (db w));
             image_deselections := image_deselections (db w) |};
        files := <[STORAGE_DIR +:+ "/" +:+ uuid4 O +:+ "_original.jpg" := img]>
                   (files w) |}).
Proof.
  intros Hp Hu Hct Hpre Hnb Hdec Hemp Henc.
  assert (Hne : (ct =? "")%string = false).
  { destruct ct; [discriminate|done]. }
  apply String.eqb_neq in Hnb.
  unfold upload_project_image, select_project, insert_image, tx_bind, round_trip,
    read_view, write_view, tx_ret, MainMore.imdecode, imwrite, imencode.
  cbn [view budget next_uuid].
  rewrite Hp, bool_decide_eq_true_2 by done.
  rewrite Hct, Hne, Hpre, Hnb, Hdec, Hemp, Henc. cbn [orb negb].
  destruct (shape img) as [hh ww]. reflexivity.
Qed.

(** X20. Upload and transform compose over the database: the row an
    upload creates has status "new"; the same user can transform the
    image under the identifier the upload answered with, the transform
    reads the picture the upload wrote, and after it the row has status
    "ready" and the real dimensions of the request.  This holds for a
    non-empty file that decodes to a picture of at most 65500 pixels a
    side, four corner objects and a canvas of 1 to 65500 pixels in
    width that OpenCV resamples from the picture. *)
Theorem upload_then_transform_project_image
    `{MainMore.ImageCodec} `{OpenCV} (uuid4 : nat -> uuid)
    (w : world) (user pid : uuid) (p : project)
    (file : MainMore.upload_file) (ct : string) (img : image)
    (cs : list point) (real_width real_height : float) (ow : Z) :
  projects (db w) !! pid = Some p -> user_id p = user ->
  MainMore.content_type file = Some ct ->
  String.prefix "image/" ct = true ->
  MainMore.contents file <> ""%string ->
  MainMore.decode (MainMore.contents file) = Some img ->
  (0 < (shape img).1)%nat -> (0 < (shape img).2)%nat ->
  jpeg_encodable img = true ->
  length cs = 4%nat ->
  output_dims real_width real_height = inr (ow, 800) ->
  0 < ow <= JPEG_MAX_DIMENSION ->
  warp_refuses img (ow, 800) = None ->
  exists up w1 resp w2,
    upload_project_image uuid4 None w user pid file = (inr up, w1)
    /\ (project_images (db w1) !! upload_id up
          ≫= fun row => columns row !! "status") = Some (VStr "new")
    /\ transform_project_image None w1 user pid (upload_id up)
         (form_of cs real_width real_height) = (inr resp, w2)
    /\ has_shape 800 (Z.to_nat ow) (transformed_image resp)
    /\ (project_images (db w2) !! upload_id up
          ≫= fun row => columns row !! "status") = Some (VStr "ready")
    /\ (project_images (db w2) !! upload_id up
          ≫= fun row => columns row !! "real_width") = Some (VFloat real_width)
    /\ (project_images (db w2) !! upload_id up
          ≫= fun row => columns row !! "real_height") = Some (VFloat real_height).
Proof.
  intros Hp Hu Hct Hpre Hnb Hdec Hr Hc Henc Hlen Hdims How Hok.
  pose proof (upload_project_image_runs uuid4 w user pid p file ct img
                Hp Hu Hct Hpre Hnb Hdec (MainMore.is_empty_false img Hr Hc) Henc)
    as Hup.
  set (row := {| project_id := pid;
                 original_filename := MainMore.up_filename file;
                 storage_original_path :=
                   STORAGE_DIR +:+ "/" +:+ uuid4 O +:+ "_original.jpg";
                 width_px := Z.of_nat (shape img).2;
                 height_px := Z.of_nat (shape img).1;
                 columns := {[ "status" := VStr "new" ]} |}) in *.
  set (w1 := {| db := {| projects := projects (db w);
                         project_images :=
                           <[uuid4 1%nat := row]> (project_images (db w));
                         image_deselections := image_deselections (db w) |};
                files := <[STORAGE_DIR +:+ "/" +:+ uuid4 O +:+ "_original.jpg" := img]>
                           (files w) |}) in *.
  assert (H1 : project_images (db w1) !! uuid4 1%nat = Some row)
    by apply lookup_insert_eq.
  assert (H2 : projects (db w1) !! project_id row = Some p) by exact Hp.
  assert (H5 : files w1 !! storage_original_path row = Some img)
    by apply lookup_insert_eq.
  destruct (routes_transform_runs w1 user pid (uuid4 1%nat)
              (form_of cs real_width real_height) row p img cs ow
              H1 H2 eq_refl Hu H5 Hr Hc eq_refl Hlen Hdims How Hok)
    as (canvas & Hrun & Hshape).
  exists {| upload_id := uuid4 1%nat;
            upload_project_id := pid;
            upload_width_px := Z.of_nat (shape img).2;
            upload_height_px := Z.of_nat (shape img).1;
            upload_original_filename := MainMore.up_filename file;
            upload_image_data := img |}, w1.
  subst w1 row.
  eexists _, _. split; [exact Hup|]. cbn [upload_id db project_images].
  split.
  { rewrite lookup_insert_eq. cbn. apply lookup_singleton_eq. }
  split; [exact Hrun|]. cbn [transformed_image db project_images].
  split; [exact Hshape|].
  rewrite lookup_insert_eq.
  cbn [mbind option_bind columns with_columns form_of width height].
  split; [apply lookup_insert_eq|]. split.
  - do 3 (rewrite lookup_insert_ne by done). apply lookup_insert_eq.
  - do 2 (rewrite lookup_insert_ne by done). apply lookup_insert_eq.
Qed.

Lemma upload_then_transform_project_image_witness :
  exists up w1 resp w2,
    @upload_project_image MainMore.codec_one_pixel uuids None world0 "u" "p"
       MainMore.jpeg_file = (inr up, w1)
    /\ (project_images (db w1) !! upload_id up
          ≫= fun row => columns row !! "status") = Some (VStr "new")
    /\ @transform_project_image cv_blank None w1 "u" "p" (upload_id up)
         (form_of proper_quad (of_Z 2) (of_Z 1)) = (inr resp, w2)
    /\ has_shape 800 (Z.to_nat 1600) (transformed_image resp)
    /\ (project_images (db w2) !! upload_id up
          ≫= fun row => columns row !! "status") = Some (VStr "ready")
    /\ (project_images (db w2) !! upload_id up
          ≫= fun row => columns row !! "real_width") = Some (VFloat (of_Z 2))
    /\ (project_images (db w2) !! upload_id up
          ≫= fun row => columns row !! "real_height") = Some (VFloat (of_Z 1)).
Proof.
  exact (@upload_then_transform_project_image MainMore.codec_one_pixel cv_blank
           uuids world0 "u" "p" project0 MainMore.jpeg_file "image/jpeg"
           one_pixel proper_quad (of_Z 2) (of_Z 1) 1600
           world0_project_p eq_refl eq_refl eq_refl MainMore.jpeg_file_not_empty
           eq_refl one_pixel_rows one_pixel_columns eq_refl eq_refl
           dims_2_1 width_1600 eq_refl).
Defined.

End RoutesMore.

(** ** The output dimensions at the edges *)

(** X21. For a surface much taller than wide the output width is zero:
    with positive real dimensions whose scaled ratio
    [800 * (width / height)] is below one, both handlers compute the
    output size 0 x 800 and hand an empty size to the warp. *)
Theorem narrow_surface_gives_zero_width (width height : float) :
  is_positive width = true -> is_positive height = true ->
  is_finite (mul (of_Z 800) (div width height)) = true ->
  (to_Q (mul (of_Z 800) (div width height)) < 1)%Q ->
  output_dims width height = inr (0, 800).
Proof.
  intros Hw Hh Hfin Hlt.
  assert (Hnn : nonneg (mul (of_Z 800) (div width height))).
  { apply mul_nonneg; [reflexivity | apply div_nonneg; assumption]. }
  unfold output_dims, truediv.
  replace (is_zero height) with false
    by (destruct height as [| | |[]]; simpl in *; congruence).
  change (of_Z output_height) with (of_Z 800).
  destruct (py_int (mul (of_Z 800) (div width height))) as [e|n] eqn:Hint.
  - destruct (mul (of_Z 800) (div width height)); simpl in *; discriminate.
  - destruct (py_int_nonneg_bounds _ _ Hnn Hint) as (H0 & Hlo & _).
    assert (Hn : (inject_Z n < inject_Z 1)%Q) by (eapply Qle_lt_trans; eauto).
    rewrite <- Zlt_Qlt in Hn. by replace n with 0 by lia.
Qed.

Lemma narrow_surface_gives_zero_width_witness :
  output_dims (of_Z 1) (of_Z 1000) = inr (0, 800).
Proof.
  apply (narrow_surface_gives_zero_width (of_Z 1) (of_Z 1000));
    vm_compute; reflexivity.
Defined.

Definition is_negative (x : float) : bool :=
  match x with
  | S754_finite true _ _ | S754_infinity true => true
  | _ => false
  end.

Definition nonpos (x : float) : Prop :=
  match x with
  | S754_zero true | S754_finite true _ _ | S754_infinity true | S754_nan => True
  | _ => False
  end.

Lemma binary_round_aux_nonpos mx ex lx :
  nonpos (binary_round_aux prec emax true mx ex lx).
Proof.
  unfold binary_round_aux.
  destruct (shr_fexp prec emax mx ex lx) as [mrs' e'].
  destruct (shr_fexp prec emax _ e' loc_Exact) as [mrs'' e''].
  destruct (shr_m mrs''); simpl; auto.
  destruct (e'' <=? emax - prec); simpl; auto.
Qed.

Lemma div_mixed_nonpos x y :
  (is_negative x = true /\ is_positive y = true)
  \/ (is_positive x = true /\ is_negative y = true) ->
  nonpos (div x y).
Proof.
  destruct x as [[]|[]| |[] mx ex], y as [[]|[]| |[] my ey]; simpl;
    intros [[Hx Hy]|[Hx Hy]]; try discriminate; auto;
    unfold div, SFdiv;
    destruct (SFdiv_core_binary prec emax (Z.pos mx) ex (Z.pos my) ey) as [[mz ez] lz];
    apply binary_round_aux_nonpos.
Qed.

Lemma mul_800_nonpos y : nonpos y -> nonpos (mul (of_Z 800) y).
Proof.
  destruct y as [[]|[]| |[] my ey]; simpl; intros Hy; try contradiction; auto.
  apply binary_round_aux_nonpos.
Qed.

Lemma py_int_nonpos p n : nonpos p -> py_int p = inr n -> n <= 0.
Proof.
  destruct p as [[]|[]| |[] m e]; simpl; intros Hp Hn;
    try contradiction; try discriminate; injection Hn as <-; [lia|].
  pose proof (trunc_mag_nonneg m e). lia.
Qed.

(** X22. When exactly one of the two real dimensions is negative the
    handlers do not refuse the request: they compute an output width
    that is zero or negative and pass it on as the size of the canvas. *)
Theorem mixed_signs_give_nonpositive_width (width height : float) :
  (is_negative width = true /\ is_positive height = true)
  \/ (is_positive width = true /\ is_negative height = true) ->
  is_finite (mul (of_Z 800) (div width height)) = true ->
  exists output_width,
    output_dims width height = inr (output_width, 800) /\ output_width <= 0.
Proof.
  intros Hsigns Hfin.
  assert (Hnp : nonpos (mul (of_Z 800) (div width height))).
  { by apply mul_800_nonpos, div_mixed_nonpos. }
  unfold output_dims, truediv.
  replace (is_zero height) with false
    by (destruct Hsigns as [[_ H]|[_ H]];
        destruct height as [| | |[]]; simpl in *; congruence).
  change (of_Z output_height) with (of_Z 800).
  destruct (py_int (mul (of_Z 800) (div width height))) as [e|n] eqn:Hint.
  - destruct (mul (of_Z 800) (div width height)); simpl in *; discriminate.
  - exists n. split; [done|]. by eapply py_int_nonpos.
Qed.

Lemma mixed_signs_give_nonpositive_width_witness :
  exists output_width,
    output_dims (of_Z (-2)) (of_Z 1) = inr (output_width, 800)
    /\ output_width <= 0.
Proof.
  apply (mixed_signs_give_nonpositive_width (of_Z (-2)) (of_Z 1));
    [left; split; reflexivity | reflexivity].
Defined.

Example negative_width_gives_minus_1600 :
  output_dims (of_Z (-2)) (of_Z 1) = inr (-1600, 800).
Proof. vm_compute. reflexivity. Qed.

(** ** The limits of the library calls

    What the handlers do when a call of OpenCV meets one of its
    limits: a canvas that JPEG cannot hold, a size beyond the C [int],
    an empty buffer; and what the corner checks let through. *)

Module Limits.
Import Main Routes RoutesFacts MainMore RoutesMore.

Lemma dims_82_1 : output_dims (of_Z 82) (of_Z 1) = inr (65600, 800).
Proof. vm_compute. reflexivity. Qed.

Lemma width_65600 : JPEG_MAX_DIMENSION < 65600 <= INT_MAX.
Proof. unfold JPEG_MAX_DIMENSION, INT_MAX. lia. Qed.

(** X23. A canvas wider than 65500 pixels is kept by the prototype
    although the request fails: the warp succeeds, the store takes the
    canvas and the real dimensions, then the picture is not written
    (JPEG cannot hold it) and encoding it raises, so the answer is a 500
    over a store that has changed and a storage directory that has not. *)
Theorem wide_canvas_is_stored_unanswered `{OpenCV} (st : state) (id : string)
    (form : transform_form) (entry : store_entry) (cs : list point) (ow : Z) :
  image_store st !! id = Some entry ->
  (0 < (shape (original entry)).1)%nat ->
  (0 < (shape (original entry)).2)%nat ->
  corners form = Some (corners_json cs) -> length cs = 4%nat ->
  output_dims (width form) (height form) = inr (ow, 800) ->
  JPEG_MAX_DIMENSION < ow <= INT_MAX ->
  warp_refuses (original entry) (ow, 800) = None ->
  exists canvas detail,
    transform_image st id form
    = (inl (HTTPException 500 detail),
       {| image_store :=
            <[id := {| original := original entry;
                       filename := filename entry;
                       transformed := Some canvas;
                       dimensions := Some (width form, height form) |}]>
              (image_store st);
          storage := storage st |})
    /\ has_shape 800 (Z.to_nat ow) canvas.
Proof.
  intros Hentry Hr Hc Hcs Hlen Hdims How Hok.
  unfold JPEG_MAX_DIMENSION in How.
  destruct (corners_json_points cs Hlen) as (Hl & entries & Hent & Hnp).
  destruct (warpPerspective_shape (original entry)
              (getPerspectiveTransform cs (dst_points ow 800)) ow 800 Hr Hc)
    as (canvas & Hwarp & Hshape); [lia | unfold INT_MAX; lia | exact Hok |].
  destruct (jpeg_too_wide canvas _ _ (transformed_path id) (storage st) Hshape)
    as [Hwrite Henc]; [lia | unfold JPEG_MAX_DIMENSION; lia |].
  exists canvas. eexists. split; [|exact Hshape].
  unfold transform_image.
  rewrite Hentry, Hcs, Hl. cbn [Nat.eqb negb]. cbv iota.
  rewrite Hent, Hnp, Hdims. cbn [perspective_transform].
  rewrite Hwarp, Hwrite, Henc. reflexivity.
Qed.

Lemma wide_canvas_is_stored_unanswered_witness :
  exists canvas detail,
    @transform_image cv_blank main_state0 "a"
       (form_of proper_quad (of_Z 82) (of_Z 1))
    = (inl (HTTPException 500 detail),
       {| image_store :=
            <[ "a" := {| original := one_pixel;
                         filename := "wall.jpg";
                         transformed := Some canvas;
                         dimensions := Some (of_Z 82, of_Z 1) |}]>
              (image_store main_state0);
          storage := storage main_state0 |})
    /\ has_shape 800 (Z.to_nat 65600) canvas.
Proof.
  exact (@wide_canvas_is_stored_unanswered cv_blank main_state0 "a"
           (form_of proper_quad (of_Z 82) (of_Z 1)) entry0 proper_quad 65600
           main_state0_entry one_pixel_rows one_pixel_columns eq_refl eq_refl
           dims_82_1 width_65600 eq_refl).
Defined.



(** X25. An output width beyond the C [int] is refused by the call of
    the warp itself: whatever else the request holds, both handlers
    answer with an error and leave the store, the database and the
    files as they were. *)
Theorem width_beyond_int_is_refused `{OpenCV}
    (st : state) (id : string)
    (conn : option nat) (w : world) (user pid iid : uuid)
    (form : transform_form) (ow oh : Z) :
  output_dims (width form) (height form) = inr (ow, oh) -> INT_MAX < ow ->
  (exists f, transform_image st id form = (inl f, st))
  /\ (exists f, transform_project_image conn w user pid iid form = (inl f, w)).
Proof.
  intros Hdims How. split.
  - unfold transform_image.
    destruct (image_store st !! id) as [entry|]; [|by eexists].
    destruct (corners form); [|by eexists].
    destruct (len _); [by eexists|].
    destruct (negb _); [by eexists|].
    destruct (corner_entries _ _); [by eexists|].
    destruct (np_float32 _); [by eexists|].
    rewrite Hdims.
    destruct (perspective_transform _ _) as [msg|M]; [by eexists|].
    destruct (warpPerspective_overflow (original entry) M ow oh How) as [msg ->].
    by eexists.
  - unfold transform_project_image.
    destruct (select_image _ _ _ _) as [f|[[row|] s]]; try by eexists.
    destruct (corners form); [|by eexists].
    destruct (len _); [by eexists|].
    destruct (negb _); [by eexists|].
    destruct (files w !! _) as [img|]; [|by eexists].
    destruct (corner_entries _ _); [by eexists|].
    destruct (np_float32 _); [by eexists|].
    rewrite Hdims.
    destruct (perspective_transform _ _) as [msg|M]; [by eexists|].
    destruct (warpPerspective_overflow img M ow oh How) as [msg ->].
    by eexists.
Qed.

Lemma dims_3000000_1 :
  output_dims (of_Z 3000000) (of_Z 1) = inr (2400000000, 800).
Proof. vm_compute. reflexivity. Qed.

Lemma width_beyond_int_is_refused_witness :
  (exists f, @transform_image cv_blank main_state0 "a"
               (form_of proper_quad (of_Z 3000000) (of_Z 1)) = (inl f, main_state0))
  /\ (exists f, @transform_project_image cv_blank None world0 "u" "p" "a"
                  (form_of proper_quad (of_Z 3000000) (of_Z 1)) = (inl f, world0)).
Proof.
  apply (@width_beyond_int_is_refused cv_blank main_state0 "a" None world0
           "u" "p" "a" (form_of proper_quad (of_Z 3000000) (of_Z 1))
           2400000000 800 dims_3000000_1).
  reflexivity.
Defined.

(** *** What the corner count lets through *)

Lemma corner_entries_dict (fields : gmap string json) :
  corner_entries (JDict fields) [0; 1; 2; 3]%nat = inl (KeyError "0").
Proof. reflexivity. Qed.

Lemma corner_entries_str (s : string) :
  String.length s = 4%nat ->
  exists msg, corner_entries (JStr s) [0; 1; 2; 3]%nat = inl (TypeError msg).
Proof.
  intros Hlen. destruct s as [|c s]; [discriminate|].
  eexists. reflexivity.
Qed.

(** X26. The check for four corners counts whatever [json.loads]
    returned.  A JSON object with four keys, or a JSON string of four
    characters, passes it; the subscripts that follow raise, and the
    request is an internal error -- a 500 of the prototype, an
    unhandled exception of the project-bound handler -- instead of the
    400 that other malformed corners get.  Nothing is stored. *)
Theorem four_keys_pass_the_corner_count `{OpenCV}
    (st : state) (id : string) (entry : store_entry)
    (w : world) (user pid iid : uuid)
    (row : project_image) (p : project) (img : image)
    (form : transform_form) (corners_data : json) :
  corners form = Some corners_data ->
  ((exists fields, corners_data = JDict fields /\ size fields = 4%nat)
   \/ (exists s, corners_data = JStr s /\ String.length s = 4%nat)) ->
  image_store st !! id = Some entry ->
  project_images (db w) !! iid = Some row ->
  projects (db w) !! project_id row = Some p ->
  project_id row = pid -> user_id p = user ->
  files w !! storage_original_path row = Some img ->
  (exists detail, transform_image st id form = (inl (HTTPException 500 detail), st))
  /\ (exists e, transform_project_image None w user pid iid form
                = (inl (Unhandled e), w)).
Proof.
  intros Hcs Hkind Hentry Hrow Hproj Hpid Huser Hfile.
  assert (Hchecks : len corners_data = inr 4%nat
            /\ exists e, corner_entries corners_data [0; 1; 2; 3]%nat = inl e).
  { destruct Hkind as [(fields & -> & Hsize)|(s & -> & Hlen)].
    - split; [cbn; by rewrite Hsize|]. eexists. apply corner_entries_dict.
    - split; [cbn; by rewrite Hlen|].
      destruct (corner_entries_str s Hlen) as [msg Hmsg]. by eexists. }
  destruct Hchecks as (Hl & e & He).
  split.
  - unfold transform_image.
    rewrite Hentry, Hcs, Hl. cbn [Nat.eqb negb]. cbv iota.
    rewrite He. by eexists.
  - unfold transform_project_image, select_image, tx_bind, round_trip, read_view,
      tx_ret.
    cbn [view budget next_uuid].
    rewrite Hrow, Hproj.
    rewrite !bool_decide_eq_true_2 by done. cbn [andb].
    rewrite Hcs, Hl. cbn [Nat.eqb negb]. cbv iota.
    rewrite Hfile, He. by eexists.
Qed.

Definition four_keys : json :=
  JDict {[ "a" := JInt 1; "b" := JInt 2; "c" := JInt 3; "d" := JInt 4 ]}.

Lemma four_keys_size :
  exists fields, four_keys = JDict fields /\ size fields = 4%nat.
Proof. eexists. split; [reflexivity|]. vm_compute. reflexivity. Qed.

Lemma four_keys_pass_the_corner_count_witness :
  (exists detail,
     @transform_image cv_blank main_state0 "a"
        {| corners := Some four_keys; height := of_Z 1; width := of_Z 2 |}
     = (inl (HTTPException 500 detail), main_state0))
  /\ (exists e,
        @transform_project_image cv_blank None world0 "u" "p" "a"
           {| corners := Some four_keys; height := of_Z 1; width := of_Z 2 |}
        = (inl (Unhandled e), world0)).
Proof.
  exact (@four_keys_pass_the_corner_count cv_blank main_state0 "a" entry0
           world0 "u" "p" "a" image_row0 project0 one_pixel
           {| corners := Some four_keys; height := of_Z 1; width := of_Z 2 |}
           four_keys eq_refl (or_introl four_keys_size)
           main_state0_entry world0_image world0_project eq_refl eq_refl
           world0_file).
Defined.

(** A list of three corners gets the 400. *)
Example three_corners_are_refused :
  @transform_image cv_blank main_state0 "a"
     (form_of [pt 0 0; pt 1 0; pt 1 1] (of_Z 2) (of_Z 1))
  = (inl (HTTPException 400 "Exactly 4 corners required"), main_state0).
Proof. vm_compute. reflexivity. Qed.

(** *** Uploads at the limits *)

(** X27. An empty file that declares an image type is not refused as
    an invalid image: the decoder raises on the empty buffer, which the
    prototype turns into a 500 and the project-bound handler lets
    escape.  Neither stores anything. *)
Theorem empty_upload_is_an_internal_error `{ImageCodec}
    (id : string) (st : state)
    (uuid4 : nat -> uuid) (w : world) (user pid : uuid) (p : project)
    (file : upload_file) (ct : string) :
  content_type file = Some ct -> String.prefix "image/" ct = true ->
  contents file = ""%string ->
  projects (db w) !! pid = Some p -> user_id p = user ->
  (exists detail, upload_image id st file = (inl (HTTPException 500 detail), st))
  /\ (exists e, upload_project_image uuid4 None w user pid file
                = (inl (Unhandled e), w)).
Proof.
  intros Hct Hpre Hempty Hp Hu.
  assert (Hne : (ct =? "")%string = false).
  { destruct ct; [discriminate|done]. }
  split.
  - unfold upload_image, imdecode. rewrite Hct, Hpre, Hempty. by eexists.
  - unfold upload_project_image, select_project, tx_bind, round_trip, read_view,
      tx_ret, imdecode.
    cbn [view budget next_uuid].
    rewrite Hp, bool_decide_eq_true_2 by done.
    rewrite Hct, Hne, Hpre, Hempty. by eexists.
Qed.

Definition empty_file : upload_file :=
  {| up_filename := "wall.jpg"; content_type := Some "image/jpeg";
     contents := "" |}.

Lemma empty_upload_is_an_internal_error_witness :
  (exists detail,
     @upload_image codec_one_pixel "b" main_state0 empty_file
     = (inl (HTTPException 500 detail), main_state0))
  /\ (exists e,
        @upload_project_image codec_one_pixel uuids None world0 "u" "p" empty_file
        = (inl (Unhandled e), world0)).
Proof.
  exact (@empty_upload_is_an_internal_error codec_one_pixel "b" main_state0
           uuids world0 "u" "p" project0 empty_file "image/jpeg"
           eq_refl eq_refl eq_refl world0_project_p eq_refl).
Defined.








(** Bytes that are not a picture get the 400. *)
Example undecodable_upload_is_refused :
  @upload_image codec_none "b" main_state0 jpeg_file
  = (inl (HTTPException 400 "Invalid image file"), main_state0).
Proof. vm_compute. reflexivity. Qed.

End Limits.
